(** * Full Calendar: calendar backends, descriptor parsing and the plugin's
      vault bridge

    A shallow embedding of the TypeScript sources
      - [src/calendars/FullNoteCalendar.ts]  (one note per event),
      - [src/calendars/GoogleCalendar.ts]    (remote snapshot, [revalidate];
                                              conversions and writes),
      - [src/types/calendar_settings.ts]     (descriptor validation),
      - [src/ui/components/EditEvent.tsx], [src/ui/event_modal.ts],
        [src/ui/ReactModal.ts]               (the event form and the create
                                              modal's save path),
      - [src/main.ts]                        (vault notifications, [saveData],
                                              the Google tokens and the
                                              authorisation service),
      - [src/cleanupDuplicateDailyEvents.ts] (repeated list items),
    followed by the properties the specification states about them, and by
    further properties of the same code.

    Conventions.  A JavaScript value is a [JSValue]; an object is the list of
    its own enumerable properties in insertion order.  A call that may throw
    (or a promise that may reject) returns a [Result].  Code that talks to the
    vault runs in the monad [M], which threads the vault and records every
    call made to it, and every invocation of the cache callback, in a trace. *)

From stdpp Require Import base strings list.
From Stdlib Require Import Ascii ZArith Lia DecimalString Sorted.

Open Scope string_scope.
Open Scope list_scope.
Open Scope Z_scope.

(* ===================================================================== *)
(** * JavaScript values                                                    *)
(* ===================================================================== *)

#[warnings="-register-all"]
Inductive JSValue : Type :=
| VUndefined
| VNull
| VBool (b : bool)
| VNum (n : Z)
| VStr (s : string)
| VArr (xs : list JSValue)
| VObj (props : list (string * JSValue)).

(** Integers only: the sources never put a fractional number in an event or
    in a descriptor. *)
Definition numberToString (n : Z) : string :=
  NilZero.string_of_int (Z.to_int n).

(** [sep.join(xs)] on strings. *)
Fixpoint join (sep : string) (xs : list string) : string :=
  match xs with
  | [] => ""
  | [x] => x
  | x :: rest => x +:+ sep +:+ join sep rest
  end.

(** [`${v}`], i.e. [String(v)].  [Array.prototype.toString] is [join(",")],
    which prints [null] and [undefined] elements as the empty string. *)
Fixpoint toStr (v : JSValue) : string :=
  match v with
  | VUndefined => "undefined"
  | VNull => "null"
  | VBool true => "true"
  | VBool false => "false"
  | VNum n => numberToString n
  | VStr s => s
  | VArr xs =>
      join "," (map (fun x => match x with
                              | VUndefined | VNull => ""
                              | _ => toStr x
                              end) xs)
  | VObj _ => "[object Object]"
  end.

(** [xs.join(sep)] on an array of values. *)
Definition arrayJoin (sep : string) (xs : list JSValue) : string :=
  join sep (map (fun x => match x with
                          | VUndefined | VNull => ""
                          | _ => toStr x
                          end) xs).

(** [!!v] *)
Definition truthy (v : JSValue) : bool :=
  match v with
  | VUndefined | VNull => false
  | VBool b => b
  | VNum n => negb (n =? 0)
  | VStr s => negb (String.eqb s "")
  | VArr _ | VObj _ => true
  end.

(** [o[k]] on a property list: the first binding of [k], else [undefined]. *)
Fixpoint getProp (k : string) (props : list (string * JSValue)) : JSValue :=
  match props with
  | [] => VUndefined
  | (k', v) :: rest => if String.eqb k k' then v else getProp k rest
  end.

Fixpoint hasProp (k : string) (props : list (string * JSValue)) : bool :=
  match props with
  | [] => false
  | (k', _) :: rest => String.eqb k k' || hasProp k rest
  end.

(** [{ ...o, k: v }]: an existing key keeps its position, a new one is
    appended. *)
Fixpoint setProp (k : string) (v : JSValue) (props : list (string * JSValue))
  : list (string * JSValue) :=
  match props with
  | [] => [(k, v)]
  | (k', v') :: rest =>
      if String.eqb k k' then (k', v) :: rest else (k', v') :: setProp k v rest
  end.

(** [{ ...a, ...b }] *)
Definition spread (a b : list (string * JSValue)) : list (string * JSValue) :=
  fold_left (fun acc kv => setProp kv.1 kv.2 acc) b a.

(* ===================================================================== *)
(** * Results                                                              *)
(* ===================================================================== *)

(** The outcome of a call that may throw, or of an awaited promise. *)
Inductive Result (A : Type) : Type :=
| Ok (a : A)
| Throw (msg : string).
Arguments Ok {A} a.
Arguments Throw {A} msg.

Definition isOk {A} (r : Result A) : bool :=
  match r with Ok _ => true | Throw _ => false end.

Definition rbind {A B} (r : Result A) (f : A -> Result B) : Result B :=
  match r with
  | Ok a => f a
  | Throw e => Throw e
  end.

(* ===================================================================== *)
(** * Vault paths ([FullNoteCalendar.ts], lines 22-39)                     *)
(* ===================================================================== *)

Definition slash : ascii := "/"%char.
Definition backslash : ascii := "\"%char.

(** [path.replace(/\\/g, "/")] *)
Fixpoint backslashesToSlashes (s : string) : string :=
  match s with
  | EmptyString => EmptyString
  | String c rest =>
      String (if Ascii.eqb c backslash then slash else c)
             (backslashesToSlashes rest)
  end.

(** [path.replace(/\/+/g, "/")]: every maximal run of slashes becomes one. *)
Fixpoint collapseSlashes (s : string) : string :=
  match s with
  | EmptyString => EmptyString
  | String c rest =>
      if Ascii.eqb c slash then
        match rest with
        | String d _ =>
            if Ascii.eqb d slash then collapseSlashes rest
            else String c (collapseSlashes rest)
        | EmptyString => String c EmptyString
        end
      else String c (collapseSlashes rest)
  end.

(** [path.replace(/^\//, "")] *)
Definition stripLeadingSlash (s : string) : string :=
  match s with
  | String c rest => if Ascii.eqb c slash then rest else s
  | EmptyString => EmptyString
  end.

Definition normalizeVaultPath (path : string) : string :=
  stripLeadingSlash (collapseSlashes (backslashesToSlashes path)).

Definition joinVaultPath (directory filename : string) : string :=
  let dir := normalizeVaultPath directory in
  if String.eqb dir "" then filename
  else normalizeVaultPath (dir +:+ "/" +:+ filename).

(* ===================================================================== *)
(** * Events and file names ([FullNoteCalendar.ts], lines 8-20)            *)
(* ===================================================================== *)

(** An [OFCEvent] is a plain object: [type], [title], [date], [daysOfWeek],
    [rrule], ... are read from it by name, and [Object.entries] lists its
    fields in insertion order. *)
Definition OFCEvent : Type := list (string * JSValue).

(** What the sources import from libraries: [rrulestr(s).toText()] of the
    rrule package, which throws on a rule it cannot parse, and Obsidian's
    [parseYaml] (an object, or [null] for a line without content). *)
Class Libraries : Type := {
  rrulestr_toText : JSValue -> Result string;
  parseYaml : string -> option (list (string * JSValue));
}.

(** [validateEvent] of [src/types], which is not part of the sources at hand:
    the validated event, or [null]. *)
Class EventSchema : Type := {
  validateEvent : JSValue -> option OFCEvent;
}.

Section Filenames.
Context `{Libraries}.

(** The [switch] has no default: any other [type] falls out of it and the
    function returns [undefined]. *)
Definition basenameFromEvent (event : OFCEvent) : Result JSValue :=
  let title := toStr (getProp "title" event) in
  match getProp "type" event with
  | VUndefined =>
      Ok (VStr (toStr (getProp "date" event) +:+ " " +:+ title))
  | VStr ty =>
      if String.eqb ty "single" then
        Ok (VStr (toStr (getProp "date" event) +:+ " " +:+ title))
      else if String.eqb ty "recurring" then
        match getProp "daysOfWeek" event with
        | VArr days =>
            Ok (VStr ("(Every " +:+ arrayJoin "," days +:+ ") " +:+ title))
        | _ => Throw "TypeError: event.daysOfWeek.join is not a function"
        end
      else if String.eqb ty "rrule" then
        rbind (rrulestr_toText (getProp "rrule" event))
              (fun text => Ok (VStr ("(" +:+ text +:+ ") " +:+ title)))
      else Ok VUndefined
  | _ => Ok VUndefined
  end.

Definition filenameForEvent (event : OFCEvent) : Result string :=
  rbind (basenameFromEvent event) (fun b => Ok (toStr b +:+ ".md")).
End Filenames.

(* ===================================================================== *)
(** * Front matter ([FullNoteCalendar.ts], lines 41-169)                   *)
(* ===================================================================== *)

Definition nl : string := String (ascii_of_nat 10) EmptyString.

Definition FRONTMATTER_SEPARATOR : string := "---".

(** [s.indexOf(sep) === 0] *)
Fixpoint startsWith (sep s : string) : bool :=
  match sep, s with
  | EmptyString, _ => true
  | String a sep', String b s' => Ascii.eqb a b && startsWith sep' s'
  | String _ _, EmptyString => false
  end.

(** [s.indexOf(sep) !== -1] *)
Fixpoint contains (sep s : string) : bool :=
  startsWith sep s ||
  match s with
  | EmptyString => false
  | String _ s' => contains sep s'
  end.

(** [s.slice(n)] *)
Fixpoint slice (n : nat) (s : string) : string :=
  match n, s with
  | O, _ => s
  | S n', String _ s' => slice n' s'
  | S _, EmptyString => EmptyString
  end.

(** [s.split(sep)] for a non-empty [sep]: [skip] counts the characters of a
    separator still to be passed over, [cur] is the piece being read,
    reversed. *)
Fixpoint splitGo (sep s : string) (skip : nat) (cur : string) : list string :=
  match s with
  | EmptyString => [String.rev cur]
  | String c rest =>
      match skip with
      | S k => splitGo sep rest k cur
      | O =>
          if startsWith sep s
          then String.rev cur :: splitGo sep rest (Nat.pred (String.length sep)) EmptyString
          else splitGo sep rest O (String c cur)
      end
  end.

Definition split (sep s : string) : list string := splitGo sep s O EmptyString.

Definition hasFrontmatter (page : string) : bool :=
  startsWith FRONTMATTER_SEPARATOR page
  && contains FRONTMATTER_SEPARATOR (slice 3 page).

Definition extractFrontmatter (page : string) : option string :=
  if hasFrontmatter page
  then Some (nth 1 (split FRONTMATTER_SEPARATOR page) "undefined")
  else None.

Definition extractPageContents (page : string) : string :=
  if hasFrontmatter page
  then join "---" (drop 2 (split "---" page))
  else page.

Definition replaceFrontmatter (page newFrontmatter : string) : string :=
  "---" +:+ nl +:+ newFrontmatter +:+ "---" +:+ extractPageContents page.

Fixpoint stringifyYamlAtom (v : JSValue) : string :=
  match v with
  | VArr xs => "[" +:+ join "," (map stringifyYamlAtom xs) +:+ "]"
  | _ => toStr v
  end.

Definition stringifyYamlLine (k : string) (v : JSValue) : string :=
  k +:+ ": " +:+ stringifyYamlAtom v.

Definition isUndefined (v : JSValue) : bool :=
  match v with VUndefined => true | _ => false end.

Definition isNull (v : JSValue) : bool :=
  match v with VNull => true | _ => false end.

Definition newFrontmatter (fields : OFCEvent) : string :=
  "---" +:+ nl
  +:+ join nl (map (fun kv => stringifyYamlLine kv.1 kv.2)
                   (filter (fun kv => isUndefined kv.2 = false) fields))
  +:+ nl +:+ "---" +:+ nl.

Section ModifyFrontmatter.
Context `{Libraries}.

(** The [for] loop over the lines of the existing front matter: the rows
    rewritten so far, and the keys seen ([linesAdded]). *)
Fixpoint modifyRows (frontmatter : list string) (modifications : OFCEvent)
         (rows : list string) (linesAdded : list string)
  : Result (list string * list string) :=
  match frontmatter with
  | [] => Ok (rows, linesAdded)
  | line :: rest =>
      match parseYaml line with
      | None => modifyRows rest modifications rows linesAdded
      | Some obj =>
          match map fst obj with
          | [key] =>
              let newVal := getProp key modifications in
              let rows' :=
                if isNull newVal && String.eqb key "color" then rows
                else if negb (isUndefined newVal)
                     then rows ++ [stringifyYamlLine key newVal]
                     else rows ++ [line] in
              modifyRows rest modifications rows' (linesAdded ++ [key])
          | _ => Throw "One YAML line parsed to multiple keys."
          end
      end
  end.

Definition modifyFrontmatterString (page : string) (modifications : OFCEvent)
  : Result string :=
  match extractFrontmatter page with
  | None =>
      let rows := map (fun kv => stringifyYamlLine kv.1 kv.2)
                      (filter (fun kv => isUndefined kv.2 = false)
                              modifications) in
      Ok (replaceFrontmatter (nl +:+ page) (join nl rows +:+ nl))
  | Some fm =>
      rbind (modifyRows (split nl fm) modifications [] [])
        (fun '(rows, linesAdded) =>
           let added :=
             filter (fun k =>
                       let v := getProp k modifications in
                       negb (isUndefined v)
                       && negb (String.eqb k "color" && isNull v) = true)
               (filter (fun k => existsb (String.eqb k) linesAdded = false)
                       (map fst modifications)) in
           let rows' :=
             rows ++ map (fun k => stringifyYamlLine k (getProp k modifications))
                         added in
           Ok (replaceFrontmatter page (join nl rows' +:+ nl)))
  end.
End ModifyFrontmatter.

(* ===================================================================== *)
(** * The vault as the calendar sees it                                    *)
(* ===================================================================== *)

(** A [TFile] handle.  Obsidian keeps one object per file and updates its
    fields in place when the file is renamed; [fid] stands for that object
    identity, the other fields are the values read when the handle was
    obtained.  [parent_path] is [file.parent.path]. *)
Record TFile : Type := {
  fid : nat;
  path : string;
  name : string;
  basename : string;
  parent_path : string;
}.

#[warnings="-register-all"]
Inductive TAbstractFile : Type :=
| AFile (f : TFile)
| AFolder (d : TFolder)
with TFolder : Type :=
| Folder (folder_path : string) (children : list TAbstractFile).

Definition folder_path (d : TFolder) : string :=
  match d with Folder p _ => p end.

Definition children (d : TFolder) : list TAbstractFile :=
  match d with Folder _ ch => ch end.

(** [metadata?.frontmatter]; [VUndefined] when the note has none. *)
Record CachedMetadata : Type := { frontmatter : JSValue }.

(** [{ path, lineNumber }] *)
Record EventPathLocation : Type := {
  loc_path : string;
  loc_lineNumber : option Z;
}.

(** [{ file, lineNumber }].  [F] is [TFile] where the code stores the handle
    itself, and [string] where it builds [{ path: ... }]. *)
Record EventLocation (F : Type) : Type := {
  file : F;
  lineNumber : option Z;
}.
Arguments file {F} _.
Arguments lineNumber {F} _.

Definition EditableEventResponse : Type := OFCEvent * EventLocation TFile.

(** [ObsidianInterface] of [src/ObsidianAdapter], which is not part of the
    sources at hand; the operations are those [FullNoteCalendar] calls on
    [this.app].  [V] is the state of the vault.  A call that rejects leaves
    the vault as it was. *)
Class ObsidianInterface (V : Type) : Type := {
  getAbstractFileByPath : V -> string -> option TAbstractFile;
  getFileByPath : V -> string -> option TFile;
  getRoot : V -> TFolder;
  getMetadata : V -> TFile -> option CachedMetadata;
  create : string -> string -> V -> Result (TFile * V);
  rename : TFile -> string -> V -> Result V;
  rewrite : TFile -> (string -> Result string) -> V -> Result V;
  delete : TFile -> V -> Result V;
}.

(** What a method of the calendar does to the outside: calls that change the
    vault, and invocations of [updateCacheWithLocation]. *)
Inductive Effect : Type :=
| CallCreate (path content : string)
| CallRename (file : TFile) (newPath : string)
| CallRewrite (file : TFile)
| CallDelete (file : TFile)
| CallUpdateCache (loc : EventLocation string).

Record World (V : Type) : Type := {
  vault : V;
  trace : list Effect;
}.
Arguments vault {V} _.
Arguments trace {V} _.

Definition M (V A : Type) : Type := World V -> Result A * World V.

Definition ret {V A} (a : A) : M V A := fun w => (Ok a, w).

Definition throw {V A} (msg : string) : M V A := fun w => (Throw msg, w).

Definition bind {V A B} (m : M V A) (f : A -> M V B) : M V B :=
  fun w =>
    match m w with
    | (Ok a, w') => f a w'
    | (Throw e, w') => (Throw e, w')
    end.

Notation "x <- m ;; k" := (bind m (fun x => k))
  (at level 100, m at next level, right associativity).
Notation "m ;;; k" := (bind m (fun _ => k))
  (at level 100, right associativity).

(** Read the current vault. *)
Definition ask {V A} (f : V -> A) : M V A := fun w => (Ok (f (vault w)), w).

(** A value that was computed by code that may throw. *)
Definition lift {V A} (r : Result A) : M V A := fun w => (r, w).

Definition emit {V} (e : Effect) (w : World V) : World V :=
  {| vault := vault w; trace := trace w ++ [e] |}.

(** Make a call that changes the vault: it is recorded, then performed. *)
Definition call {V A} (e : Effect) (op : V -> Result (A * V)) : M V A :=
  fun w =>
    let w' := emit e w in
    match op (vault w') with
    | Ok (a, v') => (Ok a, {| vault := v'; trace := trace w' |})
    | Throw msg => (Throw msg, w')
    end.

Definition unitResult {V} (r : Result V) : Result (unit * V) :=
  rbind r (fun v => Ok (tt, v)).

(** [updateCacheWithLocation(loc)] *)
Definition updateCacheWithLocation {V} (loc : EventLocation string) : M V unit :=
  fun w => (Ok tt, emit (CallUpdateCache loc) w).

(* ===================================================================== *)
(** * FullNoteCalendar ([FullNoteCalendar.ts], lines 171-344)              *)
(* ===================================================================== *)

Record FullNoteCalendar : Type := {
  color : string;
  directory : string;
}.

(** The subclasses of [EditableCalendar]. *)
Inductive EditableCalendar : Type :=
| NoteCalendar (c : FullNoteCalendar)
| DailyNoteCalendar (color heading : string).

Definition calendarType (c : EditableCalendar) : string :=
  match c with
  | NoteCalendar _ => "local"
  | DailyNoteCalendar _ _ => "dailynote"
  end.

Section Calendar.
Context `{Libraries} `{EventSchema} {V : Type} `{ObsidianInterface V}.

Definition getEventsInFile (v : V) (file : TFile)
  : list EditableEventResponse :=
  let fm := match getMetadata v file with
            | Some metadata => frontmatter metadata
            | None => VUndefined
            end in
  match validateEvent fm with
  | None => []
  | Some event =>
      let event' :=
        if negb (truthy (getProp "title" event))
        then setProp "title" (VStr (basename file)) event
        else event in
      [(event', {| file := file; lineNumber := None |})]
  end.

Fixpoint getEventsInFolderRecursive (v : V) (folder : TFolder)
  : list EditableEventResponse :=
  match folder with
  | Folder _ ch =>
      concat (map (fun file =>
                     match file with
                     | AFile f => getEventsInFile v f
                     | AFolder d => getEventsInFolderRecursive v d
                     end) ch)
  end.

(** The [for] loop of [getEvents]. *)
Fixpoint getEventsLoop (v : V) (files : list TAbstractFile)
         (events : list EditableEventResponse)
  : list EditableEventResponse :=
  match files with
  | [] => events
  | AFile f :: rest => getEventsLoop v rest (events ++ getEventsInFile v f)
  | AFolder _ :: rest => getEventsLoop v rest events
  end.

Definition getEvents (self : FullNoteCalendar) (v : V)
  : Result (list EditableEventResponse) :=
  let dirPath := normalizeVaultPath (directory self) in
  let eventFolder :=
    if negb (String.eqb dirPath "")
    then getAbstractFileByPath v dirPath
    else Some (AFolder (getRoot v)) in
  match eventFolder with
  | None => Throw ("Cannot get folder " +:+ directory self)
  | Some (AFile _) => Throw "[object Object] is not a directory."
  | Some (AFolder d) => Ok (getEventsLoop v (children d) [])
  end.

Definition createEvent (self : FullNoteCalendar) (event : OFCEvent)
  : M V (EventLocation TFile) :=
  filename <- lift (filenameForEvent event) ;;
  let path := joinVaultPath (directory self) filename in
  existing <- ask (fun v => getAbstractFileByPath v path) ;;
  match existing with
  | Some _ => throw ("Event at " +:+ path +:+ " already exists.")
  | None =>
      file <- call (CallCreate path (newFrontmatter event))
                   (create path (newFrontmatter event)) ;;
      ret {| file := file; lineNumber := None |}
  end.

Definition getNewLocation (v : V) (location : EventPathLocation)
           (event : OFCEvent) : Result (EventLocation string) :=
  match loc_lineNumber location with
  | Some _ => Throw "Note calendar cannot handle inline events."
  | None =>
      let normalizedPath := normalizeVaultPath (loc_path location) in
      match getFileByPath v normalizedPath with
      | None =>
          Throw ("File " +:+ normalizedPath
                 +:+ " either doesn't exist or is a folder.")
      | Some file =>
          rbind (filenameForEvent event) (fun filename =>
            let updatedPath := joinVaultPath (parent_path file) filename in
            Ok {| file := updatedPath; lineNumber := None |})
      end
  end.

Definition modifyEvent (location : EventPathLocation) (event : OFCEvent)
  : M V unit :=
  let normalizedPath := normalizeVaultPath (loc_path location) in
  found <- ask (fun v => getFileByPath v normalizedPath) ;;
  match found with
  | None =>
      throw ("File " +:+ loc_path location
             +:+ " either doesn't exist or is a folder.")
  | Some f =>
      located <- ask (fun v => getNewLocation v location event) ;;
      newLocation <- lift located ;;
      updateCacheWithLocation newLocation ;;;
      (if String.eqb (path f) (file newLocation) then ret tt
       else call (CallRename f (file newLocation))
                 (fun v => unitResult (rename f (file newLocation) v))) ;;;
      call (CallRewrite f)
           (fun v => unitResult
              (rewrite f (fun page => modifyFrontmatterString page event) v))
  end.

Definition move (fromLocation : EventPathLocation)
           (toCalendar : EditableCalendar) : M V unit :=
  match loc_lineNumber fromLocation with
  | Some _ => throw "Note calendar cannot handle inline events."
  | None =>
      match toCalendar with
      | DailyNoteCalendar _ _ =>
          throw ("Event cannot be moved to a note calendar from a calendar of type "
                 +:+ calendarType toCalendar +:+ ".")
      | NoteCalendar dest =>
          let normalizedPath := normalizeVaultPath (loc_path fromLocation) in
          found <- ask (fun v => getFileByPath v normalizedPath) ;;
          match found with
          | None => throw ("File " +:+ normalizedPath +:+ " not found.")
          | Some f =>
              let destDir := directory dest in
              let newPath := joinVaultPath destDir (name f) in
              updateCacheWithLocation
                {| file := newPath; lineNumber := None |} ;;;
              call (CallRename f newPath)
                   (fun v => unitResult (rename f newPath v))
          end
      end
  end.

Definition deleteEvent (location : EventPathLocation) : M V unit :=
  match loc_lineNumber location with
  | Some _ => throw "Note calendar cannot handle inline events."
  | None =>
      let normalizedPath := normalizeVaultPath (loc_path location) in
      found <- ask (fun v => getFileByPath v normalizedPath) ;;
      match found with
      | None => throw ("File " +:+ normalizedPath +:+ " not found.")
      | Some f =>
          call (CallDelete f) (fun v => unitResult (delete f v))
      end
  end.
End Calendar.

(* ===================================================================== *)
(** * An in-memory vault                                                   *)
(* ===================================================================== *)

(** Modelled from the spec: the vault/file I/O collaborator (resolve a path
    to a file or folder handle, create a file with initial content, rewrite a
    file's content through a transform, rename a file, delete a file, read a
    file's front-matter metadata).  [ObsidianIO] itself is not part of the
    sources at hand; this instance is the one the examples run on. *)
Record MemFile : Type := {
  mfid : nat;
  mpath : string;
  mcontent : string;
  mmeta : option CachedMetadata;
}.

Record MemVault : Type := {
  entries : list MemFile;
  dirs : list string;
}.

(** The last segment of a path, and what precedes it (["/"] at the root). *)
Definition nameOf (p : string) : string := List.last (split "/" p) "".

Definition parentOf (p : string) : string :=
  let dir := join "/" (removelast (split "/" p)) in
  if String.eqb dir "" then "/" else dir.

Definition basenameOf (n : string) : string :=
  match removelast (split "." n) with
  | [] => n
  | pieces => join "." pieces
  end.

Definition handle (e : MemFile) : TFile :=
  {| fid := mfid e;
     path := mpath e;
     name := nameOf (mpath e);
     basename := basenameOf (nameOf (mpath e));
     parent_path := parentOf (mpath e) |}.

Definition entryAt (p : string) (v : MemVault) : option MemFile :=
  List.find (fun e => String.eqb (mpath e) p) (entries v).

Definition entryOf (id : nat) (v : MemVault) : option MemFile :=
  List.find (fun e => Nat.eqb (mfid e) id) (entries v).

Definition isDir (p : string) (v : MemVault) : bool :=
  existsb (String.eqb p) (dirs v).

Fixpoint folderNode (fuel : nat) (v : MemVault) (p : string) : TFolder :=
  Folder p
    (map (fun e => AFile (handle e))
         (List.filter (fun e => String.eqb (parentOf (mpath e)) p) (entries v))
     ++ match fuel with
        | O => []
        | S k =>
            map (fun d => AFolder (folderNode k v d))
                (List.filter (fun d => String.eqb (parentOf d) p) (dirs v))
        end).

Definition freshId (v : MemVault) : nat :=
  S (fold_right (fun e m => Nat.max (mfid e) m) O (entries v)).

Definition memCreate (p content : string) (v : MemVault)
  : Result (TFile * MemVault) :=
  match entryAt p v with
  | Some _ => Throw "File already exists."
  | None =>
      if isDir p v then Throw "File already exists."
      else if negb (String.eqb (parentOf p) "/") && negb (isDir (parentOf p) v)
      then Throw "Folder does not exist."
      else
        let e := {| mfid := freshId v; mpath := p;
                    mcontent := content; mmeta := None |} in
        Ok (handle e, {| entries := entries v ++ [e]; dirs := dirs v |})
  end.

Definition memRename (f : TFile) (newPath : string) (v : MemVault)
  : Result MemVault :=
  match entryOf (fid f) v with
  | None => Throw "File not found."
  | Some _ =>
      match entryAt newPath v with
      | Some _ => Throw "Destination file already exists!"
      | None =>
          if isDir newPath v then Throw "Destination file already exists!"
          else
            Ok {| entries :=
                    map (fun e =>
                           if Nat.eqb (mfid e) (fid f)
                           then {| mfid := mfid e; mpath := newPath;
                                   mcontent := mcontent e; mmeta := mmeta e |}
                           else e) (entries v);
                  dirs := dirs v |}
      end
  end.

Definition memRewrite (f : TFile) (transform : string -> Result string)
           (v : MemVault) : Result MemVault :=
  match entryOf (fid f) v with
  | None => Throw "File not found."
  | Some e0 =>
      rbind (transform (mcontent e0)) (fun page =>
        Ok {| entries :=
                map (fun e =>
                       if Nat.eqb (mfid e) (fid f)
                       then {| mfid := mfid e; mpath := mpath e;
                               mcontent := page; mmeta := mmeta e |}
                       else e) (entries v);
              dirs := dirs v |})
  end.

Definition memDelete (f : TFile) (v : MemVault) : Result MemVault :=
  match entryOf (fid f) v with
  | None => Throw "File not found."
  | Some _ =>
      Ok {| entries :=
              List.filter (fun e => negb (Nat.eqb (mfid e) (fid f))) (entries v);
            dirs := dirs v |}
  end.

#[export] Instance MemVaultIO : ObsidianInterface MemVault := {|
  getAbstractFileByPath v p :=
    match entryAt p v with
    | Some e => Some (AFile (handle e))
    | None =>
        if isDir p v
        then Some (AFolder (folderNode (List.length (dirs v)) v p))
        else None
    end;
  getFileByPath v p := option_map handle (entryAt p v);
  getRoot v := folderNode (List.length (dirs v)) v "/";
  getMetadata v f := mbind mmeta (entryOf (fid f) v);
  create := memCreate;
  rename := memRename;
  rewrite := memRewrite;
  delete := memDelete;
|}.

(** What the proofs about a successful rename assume of a vault: a handle
    carries the path it was found at, a rename puts the same file at the new
    path, and a rewrite moves nothing. *)
Class ObsidianLaws (V : Type) `{ObsidianInterface V} : Prop := {
  getFileByPath_path :
    forall v p f, getFileByPath v p = Some f -> path f = p;
  rename_resolves :
    forall v v' f p,
      rename f p v = Ok v' ->
      exists f', getFileByPath v' p = Some f' /\ fid f' = fid f;
  rewrite_keeps_paths :
    forall v v' f t p,
      rewrite f t v = Ok v' ->
      option_map fid (getFileByPath v' p) = option_map fid (getFileByPath v p);
}.

(* ===================================================================== *)
(** * GoogleCalendar.revalidate ([GoogleCalendar.ts], lines 10-134)        *)
(* ===================================================================== *)

Module GoogleCalendar.

Record GoogleTime : Type := {
  dateTime : option string;
  date : option string;
  timeZone : option string;
}.

Record GoogleEvent : Type := {
  id : string;
  summary : option string;
  description : option string;
  start : option GoogleTime;
  end_ : option GoogleTime;
  recurrence : option (list string);
  status : option string;
  extendedProperties : option (option (list (string * string)));
}.

(** [response.json]; [error] holds [error.message]. *)
Record GoogleEventsListResponse : Type := {
  items : option (list GoogleEvent);
  nextPageToken : option string;
  error : option string;
}.

(** The request [revalidate] builds: the calendar in the URL, the search
    parameters, and the bearer token. *)
Record Request : Type := {
  req_calendarId : string;
  maxResults : string;
  singleEvents : string;
  req_timeMin : string;
  req_timeMax : string;
  req_pageToken : option string;
  authorization : string;
}.

(** The world outside one call of [revalidate]: what
    [authService.getValidAccessToken()] yields, the two ends of the time
    window computed from [new Date()], and what the [n]-th [requestUrl] of
    the call yields for the request it is given. *)
Record Remote : Type := {
  getValidAccessToken : Result string;
  timeMin : string;
  timeMax : string;
  requestUrl : nat -> Request -> Result GoogleEventsListResponse;
}.

Record t : Type := {
  color : string;
  calendarName : string;
  calendarId : string;
  events : list GoogleEvent;
}.

(** [if (pageToken)] / [while (pageToken)] on [string | undefined] *)
Definition present (tok : option string) : bool :=
  match tok with
  | Some s => negb (String.eqb s "")
  | None => false
  end.

(** [(e) => e.status !== "cancelled"] *)
Definition notCancelled (e : GoogleEvent) : bool :=
  match status e with
  | Some s => negb (String.eqb s "cancelled")
  | None => true
  end.

Definition pageRequest (self : t) (net : Remote) (token : string)
           (pageToken : option string) : Request :=
  {| req_calendarId := calendarId self;
     maxResults := "2500";
     singleEvents := "false";
     req_timeMin := timeMin net;
     req_timeMax := timeMax net;
     req_pageToken := if present pageToken then pageToken else None;
     authorization := "Bearer " +:+ token |}.

Definition keptItems (data : GoogleEventsListResponse) : list GoogleEvent :=
  match items data with
  | Some its => List.filter notCancelled its
  | None => []
  end.

(** The [do ... while (pageToken)] loop; [n] counts the requests made so
    far, [fuel] bounds the number of pages still to be asked for.  [None]
    when the bound is reached with a further page outstanding. *)
Fixpoint fetchPages (fuel : nat) (self : t) (net : Remote) (token : string)
         (n : nat) (pageToken : option string) (allEvents : list GoogleEvent)
  : option (Result (list GoogleEvent)) :=
  match fuel with
  | O => None
  | S fuel' =>
      match requestUrl net n (pageRequest self net token pageToken) with
      | Throw e => Some (Throw e)
      | Ok data =>
          match error data with
          | Some message =>
              Some (Throw ("Google Calendar API error: " +:+ message))
          | None =>
              let allEvents' := allEvents ++ keptItems data in
              if present (nextPageToken data)
              then fetchPages fuel' self net token (S n)
                              (nextPageToken data) allEvents'
              else Some (Ok allEvents')
          end
      end
  end.

Definition setEvents (self : t) (evs : list GoogleEvent) : t :=
  {| color := color self; calendarName := calendarName self;
     calendarId := calendarId self; events := evs |}.

(** The outcome of the call ([None]: still paging when the bound was
    reached) and the calendar object after it. *)
Definition revalidate (fuel : nat) (net : Remote) (self : t)
  : option (Result unit) * t :=
  match getValidAccessToken net with
  | Throw e => (Some (Throw e), self)
  | Ok token =>
      match fetchPages fuel self net token O None [] with
      | None => (None, self)
      | Some (Throw e) => (Some (Throw e), self)
      | Some (Ok allEvents) => (Some (Ok tt), setEvents self allEvents)
      end
  end.

(** The same loop as a relation, without a bound: the pages served from the
    [n]-th request on, and how the loop ends. *)
Inductive Fetch (self : t) (net : Remote) (token : string)
  : nat -> option string -> list GoogleEventsListResponse
    -> Result unit -> Prop :=
| Fetch_throws n pt e :
    requestUrl net n (pageRequest self net token pt) = Throw e ->
    Fetch self net token n pt [] (Throw e)
| Fetch_error n pt data message :
    requestUrl net n (pageRequest self net token pt) = Ok data ->
    error data = Some message ->
    Fetch self net token n pt []
          (Throw ("Google Calendar API error: " +:+ message))
| Fetch_last n pt data :
    requestUrl net n (pageRequest self net token pt) = Ok data ->
    error data = None ->
    present (nextPageToken data) = false ->
    Fetch self net token n pt [data] (Ok tt)
| Fetch_more n pt data pages r :
    requestUrl net n (pageRequest self net token pt) = Ok data ->
    error data = None ->
    present (nextPageToken data) = true ->
    Fetch self net token (S n) (nextPageToken data) pages r ->
    Fetch self net token n pt (data :: pages) r.

End GoogleCalendar.

(* ===================================================================== *)
(** * Descriptor validation ([calendar_settings.ts], lines 1-57)           *)
(* ===================================================================== *)

Module CalendarSettings.

(** The zod schemas the file uses: [z.literal(s)], [z.string()] and
    [z.string().url()]; a [z.object] is the list of its keys with their
    schemas. *)
Inductive ZodField : Type :=
| ZLiteral (s : string)
| ZString
| ZStringUrl.

Definition ZodObject : Type := list (string * ZodField).

(** [new URL(s)] does not throw: the test behind [z.string().url()]. *)
Class UrlSyntax : Type := { validUrl : string -> bool }.

Definition calendarOptionsSchema : list ZodObject :=
  [ [("type", ZLiteral "local"); ("directory", ZString)];
    [("type", ZLiteral "dailynote"); ("heading", ZString)];
    [("type", ZLiteral "ical"); ("url", ZStringUrl)];
    [("type", ZLiteral "caldav"); ("name", ZString); ("url", ZStringUrl);
     ("homeUrl", ZStringUrl); ("username", ZString); ("password", ZString)];
    [("type", ZLiteral "gcal"); ("calendarId", ZString); ("name", ZString)] ].

Definition colorValidator : ZodObject := [("color", ZString)].

(** [CalendarInfo]: the object [parseCalendarInfo] returns. *)
Definition CalendarInfo : Type := list (string * JSValue).

Section Parse.
Context `{UrlSyntax}.

Definition parseField (schema : ZodField) (v : JSValue) : Result JSValue :=
  match schema, v with
  | ZLiteral s, VStr s' =>
      if String.eqb s s' then Ok v else Throw "ZodError: invalid_literal"
  | ZString, VStr _ => Ok v
  | ZStringUrl, VStr s =>
      if validUrl s then Ok v else Throw "ZodError: invalid_string"
  | ZLiteral _, _ => Throw "ZodError: invalid_literal"
  | _, _ => Throw "ZodError: invalid_type"
  end.

(** The keys of the schema, each read from the input and validated;
    keys the schema does not name are stripped. *)
Fixpoint parseShape (shape : ZodObject) (props : list (string * JSValue))
  : Result (list (string * JSValue)) :=
  match shape with
  | [] => Ok []
  | (k, schema) :: rest =>
      rbind (parseField schema (getProp k props)) (fun v =>
      rbind (parseShape rest props) (fun out => Ok ((k, v) :: out)))
  end.

(** [z.object(shape).parse(obj)] *)
Definition parseObject (shape : ZodObject) (obj : JSValue)
  : Result (list (string * JSValue)) :=
  match obj with
  | VObj props => parseShape shape props
  | _ => Throw "ZodError: invalid_type"
  end.

(** The option of a discriminated union that the value [d] of the
    discriminator selects. *)
Fixpoint selectOption (discriminator : string) (options : list ZodObject)
         (d : JSValue) : option ZodObject :=
  match options with
  | [] => None
  | shape :: rest =>
      match List.find (fun kf => String.eqb kf.1 discriminator) shape, d with
      | Some (_, ZLiteral s), VStr s' =>
          if String.eqb s s' then Some shape
          else selectOption discriminator rest d
      | _, _ => selectOption discriminator rest d
      end
  end.

(** [z.discriminatedUnion(discriminator, options).parse(obj)] *)
Definition parseDiscriminatedUnion (discriminator : string)
           (options : list ZodObject) (obj : JSValue)
  : Result (list (string * JSValue)) :=
  match obj with
  | VObj props =>
      match selectOption discriminator options
                         (getProp discriminator props) with
      | Some shape => parseShape shape props
      | None => Throw "ZodError: invalid_union_discriminator"
      end
  | _ => Throw "ZodError: invalid_type"
  end.

Definition parseCalendarInfo (obj : JSValue) : Result CalendarInfo :=
  rbind (parseDiscriminatedUnion "type" calendarOptionsSchema obj)
    (fun options =>
  rbind (parseObject colorValidator obj)
    (fun color => Ok (spread options color))).

(** [null] is [None]. *)
Definition safeParseCalendarInfo (obj : JSValue) : option CalendarInfo :=
  match parseCalendarInfo obj with
  | Ok info => Some info
  | Throw _ => None
  end.
End Parse.

(** The specification's reading of a descriptor: one of five variants with
    its own fields, and a shared colour. *)
Inductive Variant : Type :=
| Local (directory : string)
| DailyNote (heading : string)
| ICal (url : string)
| CalDAV (name url homeUrl username password : string)
| GCal (calendarId name : string).

Definition variantFields (d : Variant) : list (string * JSValue) :=
  match d with
  | Local directory =>
      [("type", VStr "local"); ("directory", VStr directory)]
  | DailyNote heading =>
      [("type", VStr "dailynote"); ("heading", VStr heading)]
  | ICal url => [("type", VStr "ical"); ("url", VStr url)]
  | CalDAV name url homeUrl username password =>
      [("type", VStr "caldav"); ("name", VStr name); ("url", VStr url);
       ("homeUrl", VStr homeUrl); ("username", VStr username);
       ("password", VStr password)]
  | GCal calendarId name =>
      [("type", VStr "gcal"); ("calendarId", VStr calendarId);
       ("name", VStr name)]
  end.

(** The URL-valued fields of a variant. *)
Definition variantUrls (d : Variant) : list string :=
  match d with
  | ICal url => [url]
  | CalDAV _ url homeUrl _ _ => [url; homeUrl]
  | _ => []
  end.

(** [obj] conforms to the schema of variant [d] and carries the string
    colour [c]: it is an object whose fields of [d]'s schema hold exactly
    [d]'s values, the URLs among them well-formed. *)
Definition Conforms `{UrlSyntax} (obj : JSValue) (d : Variant) (c : string)
  : Prop :=
  exists props,
    obj = VObj props
    /\ Forall (fun kv => getProp kv.1 props = kv.2) (variantFields d)
    /\ Forall (fun u => validUrl u = true) (variantUrls d)
    /\ getProp "color" props = VStr c.

(** [makeDefaultPartialCalendarSource(type)]; [getAccentColorHex()] of
    [colorUtils.ts] reads the page's computed style. *)
Definition makeDefaultPartialCalendarSource (getAccentColorHex : string)
           (type : string) : list (string * JSValue) :=
  if String.eqb type "icloud"
  then [("type", VStr "caldav"); ("color", VStr getAccentColorHex);
        ("url", VStr "https://caldav.icloud.com")]
  else [("type", VStr type); ("color", VStr getAccentColorHex)].

End CalendarSettings.

(* ===================================================================== *)
(** * The event modal's save path ([EditEvent.tsx], lines 110-278;
      [event_modal.ts], lines 11-49; [ReactModal.ts])                      *)
(* ===================================================================== *)

Module EditEvent.

(** The state variables of one render that [getEventData] and
    [performSave] close over.  [date] is a string or [undefined],
    [endDate] a string, [null] or [undefined], [complete] a string or a
    boolean. *)
Record FormState : Type := {
  title : string;
  date : JSValue;
  endDate : JSValue;
  startTime : string;
  endTime : string;
  isRecurring : bool;
  endRecur : string;
  daysOfWeek : list string;
  allDay : bool;
  calendarIndex : Z;
  eventColor : string;
  complete : JSValue;
  isTask : bool;
}.

(** [a || b] *)
Definition or_ (a b : JSValue) : JSValue := if truthy a then a else b.

Definition getEventData (s : FormState) : OFCEvent :=
  spread
    (spread
       (spread [("title", VStr (title s))] [("color", VStr (eventColor s))])
       (if allDay s then [("allDay", VBool true)]
        else [("allDay", VBool false);
              ("startTime", or_ (VStr (startTime s)) (VStr ""));
              ("endTime", VStr (endTime s))]))
    (if isRecurring s
     then [("type", VStr "recurring");
           ("daysOfWeek", VArr (map VStr (daysOfWeek s)));
           ("startRecur", or_ (date s) VUndefined);
           ("endRecur", or_ (VStr (endRecur s)) VUndefined)]
     else [("type", VStr "single");
           ("date", or_ (date s) (VStr ""));
           ("endDate", or_ (endDate s) VNull);
           ("completed", if isTask s then complete s else VNull)]).

(** What outlives a render: the [hasCreatedRef] latch.  [submitCalls] lists
    the calls of the [submit] prop made so far, [pending] counts those whose
    promise has not settled. *)
Record Modal : Type := {
  hasCreatedRef : bool;
  submitCalls : list (OFCEvent * Z);
  pending : nat;
}.

Definition initial : Modal :=
  {| hasCreatedRef := false; submitCalls := []; pending := O |}.

(** The first half of [performSave(overrides)], for the render whose state
    is [s]: the event data, and the three guards.  [None] when it returns
    at a guard, else the arguments [submit] is called with. *)
Definition submitArguments (isCreate : bool) (s : FormState)
           (overrides : option OFCEvent) (m : Modal) : option (OFCEvent * Z) :=
  let base := getEventData s in
  let data := match overrides with
              | Some o => spread base o
              | None => base
              end in
  if isCreate && negb (truthy (getProp "title" data)) then None
  else if isCreate && negb (truthy (date s)) then None
  else if isCreate && hasCreatedRef m then None
  else Some (data, calendarIndex s).

(** [performSave(overrides)] up to [await submit(...)]. *)
Definition performSave (isCreate : bool) (s : FormState)
           (overrides : option OFCEvent) (m : Modal) : Modal :=
  match submitArguments isCreate s overrides m with
  | None => m
  | Some call =>
      {| hasCreatedRef := hasCreatedRef m;
         submitCalls := submitCalls m ++ [call];
         pending := S (pending m) |}
  end.

(** [markCreated: () => { hasCreatedRef.current = true }] *)
Definition markCreated (m : Modal) : Modal :=
  {| hasCreatedRef := true;
     submitCalls := submitCalls m;
     pending := pending m |}.

(** [performSave] after [await submit(...)]: the line after the [await] when
    the promise resolved, the empty [catch] when it rejected. *)
Definition performSaveResumes (isCreate : bool) (outcome : Result unit)
           (m : Modal) : Modal :=
  {| hasCreatedRef :=
       match outcome with
       | Ok _ => if isCreate then true else hasCreatedRef m
       | Throw _ => hasCreatedRef m
       end;
     submitCalls := submitCalls m;
     pending := Nat.pred (pending m) |}.

(** One uninterrupted stretch of execution that touches the modal: a save
    is triggered (the debounce timer of [autoSave] fires, the form is
    submitted, a colour is picked, the modal is closing) from the render
    with state [s]; a running [submit] invokes [markCreated]; an awaited
    [submit] settles. *)
Inductive Turn : Type :=
| Save (s : FormState) (overrides : option OFCEvent)
| MarkCreated
| SubmitSettles (outcome : Result unit).

Definition step (isCreate : bool) (m : Modal) (t : Turn) : Modal :=
  match t with
  | Save s overrides => performSave isCreate s overrides m
  | MarkCreated =>
      match pending m with O => m | S _ => markCreated m end
  | SubmitSettles outcome =>
      match pending m with
      | O => m
      | S _ => performSaveResumes isCreate outcome m
      end
  end.

Definition run (isCreate : bool) (turns : list Turn) (m : Modal) : Modal :=
  fold_left (step isCreate) turns m.

(** Every save of the sequence has settled, or marked the event created,
    before the next one starts. *)
Fixpoint oneAtATime (turns : list Turn) : Prop :=
  match turns with
  | Save _ _ :: ((SubmitSettles (Ok _) :: _) as rest)
  | Save _ _ :: ((MarkCreated :: _) as rest) => oneAtATime rest
  | Save _ _ :: _ :: _ => False
  | _ :: rest => oneAtATime rest
  | [] => True
  end.

(** ** [DaySelect] (lines 61-85) *)

(** [days.includes(code)] *)
Definition includes (days : list string) (code : string) : bool :=
  existsb (String.eqb code) days.

(** The [onClick] of the choice for [code]: the list it hands to
    [onChange]. *)
Definition dayClicked (days : list string) (code : string) : list string :=
  if includes days code
  then List.filter (fun c => negb (String.eqb c code)) days
  else code :: days.

(** ** The state of the first render (lines 121-184)

    The state variables are typed: [title], [startTime] and [endTime] are
    strings, [allDay] is a boolean, [daysOfWeek] an array of strings.  The
    fields of [initialEvent] are read at the types [OFCEvent] gives them;
    [None] when a field holds a value of another kind. *)

(** [v || ""] for [v : string | undefined] *)
Definition stringOrEmpty (v : JSValue) : option string :=
  match v with
  | VStr s => Some s
  | _ => if truthy v then None else Some ""
  end.

(** [v || false] for [v : boolean | undefined] *)
Definition boolOrFalse (v : JSValue) : option bool :=
  match v with
  | VBool b => Some b
  | _ => if truthy v then None else Some false
  end.

Fixpoint strings (xs : list JSValue) : option (list string) :=
  match xs with
  | [] => Some []
  | VStr s :: rest =>
      match strings rest with
      | Some ss => Some (s :: ss)
      | None => None
      end
  | _ :: _ => None
  end.

(** [v || []] for [v : string[] | undefined] *)
Definition stringsOrEmpty (v : JSValue) : option (list string) :=
  match v with
  | VArr xs => strings xs
  | _ => if truthy v then None else Some []
  end.

(** [initialEvent?.type === ty] *)
Definition hasType (initialEvent : OFCEvent) (ty : string) : bool :=
  match getProp "type" initialEvent with
  | VStr s => String.eqb s ty
  | _ => false
  end.

(** [v !== null && v !== undefined] *)
Definition notNullish (v : JSValue) : bool :=
  match v with
  | VUndefined | VNull => false
  | _ => true
  end.

Section InitialState.
(** [getAccentColorHex()], or ["#808080"] without a document, and
    [toHexForColorInput] of [colorUtils.ts], which read the page's computed
    styles. *)
Variable defaultEventColor : string.
Variable toHexForColorInput : JSValue -> string.

Definition initialDate (initialEvent : option OFCEvent) : JSValue :=
  match initialEvent with
  | Some e =>
      if hasType e "single" then getProp "date" e
      else if hasType e "recurring" then getProp "startRecur" e
      else if hasType e "rrule" then getProp "startDate" e
      else VStr ""
  | None => VStr ""
  end.

(** The initial values of the thirteen state variables.  An absent
    [initialEvent] reads as an object without fields ([initialEvent?.x]),
    but for the date. *)
Definition initialState (initialEvent : option OFCEvent)
           (defaultCalendarIndex : Z) : option FormState :=
  let e := match initialEvent with Some e => e | None => [] end in
  match stringOrEmpty (getProp "title" e),
        stringOrEmpty (getProp "startTime" e),
        stringOrEmpty (getProp "endTime" e),
        boolOrFalse (getProp "allDay" e),
        stringsOrEmpty (if hasType e "recurring"
                        then getProp "daysOfWeek" e else VArr []) with
  | Some title0, Some startTime0, Some endTime0, Some allDay0, Some days0 =>
      Some {| title := title0;
              date := initialDate initialEvent;
              endDate := if hasType e "single" then getProp "endDate" e
                         else VUndefined;
              startTime := startTime0;
              endTime := endTime0;
              isRecurring := hasType e "recurring";
              endRecur := "";
              daysOfWeek := days0;
              allDay := allDay0;
              calendarIndex := defaultCalendarIndex;
              eventColor := if truthy (getProp "color" e)
                            then toHexForColorInput (getProp "color" e)
                            else defaultEventColor;
              complete := if hasType e "single"
                             && notNullish (getProp "completed" e)
                          then getProp "completed" e else VBool false;
              isTask := hasType e "single"
                        && notNullish (getProp "completed" e) |}
  | _, _, _, _, _ => None
  end.
End InitialState.

End EditEvent.

Module CreateModal.
Import EditEvent.

(** An entry of the [calendars] prop. *)
Record CalendarEntry : Type := {
  id : string;
  name : string;
  type : string;
}.

(** The create modal of [launchCreateModal]: the component's latch and
    submit log, the state of the current render, whether the component has
    registered its before-close hook with the [ReactModal], the calls made
    to [plugin.cache.addEvent] with the number of them not yet settled, the
    notices shown, and the number of calls of [ReactModal.close]. *)
Record t : Type := {
  modal : Modal;
  form : FormState;
  beforeCloseRef : bool;
  addEventCalls : list (string * OFCEvent);
  addEventPending : nat;
  notices : list string;
  closeCalls : nat;
}.

Definition withModal (m : Modal) (c : t) : t :=
  {| modal := m; form := form c; beforeCloseRef := beforeCloseRef c;
     addEventCalls := addEventCalls c; addEventPending := addEventPending c;
     notices := notices c; closeCalls := closeCalls c |}.

(** [calendars[calendarIndex]] *)
Definition calendarAt (calendars : list CalendarEntry) (i : Z)
  : option CalendarEntry :=
  if i <? 0 then None else nth_error calendars (Z.to_nat i).

(** The [submit] prop up to its [await]: it reads the calendar's id, which
    throws when there is no such entry, and calls [addEvent]. *)
Definition submitStarts (calendars : list CalendarEntry) (data : OFCEvent)
           (calendarIndex : Z) (c : t) : t :=
  match calendarAt calendars calendarIndex with
  | None =>
      withModal (performSaveResumes true
                   (Throw "TypeError: Cannot read properties of undefined")
                   (modal c)) c
  | Some cal =>
      {| modal := modal c; form := form c;
         beforeCloseRef := beforeCloseRef c;
         addEventCalls := addEventCalls c ++ [(id cal, data)];
         addEventPending := S (addEventPending c);
         notices := notices c; closeCalls := closeCalls c |}
  end.

(** [performSave] of the render with state [s], with [submit] bound as in
    [launchCreateModal] ([isCreate: true]). *)
Definition save (calendars : list CalendarEntry) (s : FormState)
           (overrides : option OFCEvent) (c : t) : t :=
  match submitArguments true s overrides (modal c) with
  | None => c
  | Some (data, calendarIndex) =>
      submitStarts calendars data calendarIndex
        (withModal (performSave true s overrides (modal c)) c)
  end.

(** [closeModal()], i.e. [ReactModal.close]: the registered hook runs
    [saveImmediately()] of the current render before the modal closes. *)
Definition closeModal (calendars : list CalendarEntry) (c : t) : t :=
  let c' := {| modal := modal c; form := form c;
               beforeCloseRef := beforeCloseRef c;
               addEventCalls := addEventCalls c;
               addEventPending := addEventPending c;
               notices := notices c; closeCalls := S (closeCalls c) |} in
  if beforeCloseRef c' then save calendars (form c') None c' else c'.

(** The rest of [submit] once [addEvent] has settled: [markCreated] on
    success, a notice on failure, then [closeModal()]; the promise of
    [submit] resolves and [performSave] resumes after its [await]. *)
Definition addEventSettles (calendars : list CalendarEntry)
           (outcome : Result unit) (c : t) : t :=
  match addEventPending c with
  | O => c
  | S k =>
      let c1 :=
        match outcome with
        | Ok _ =>
            {| modal := markCreated (modal c); form := form c;
               beforeCloseRef := beforeCloseRef c;
               addEventCalls := addEventCalls c; addEventPending := k;
               notices := notices c; closeCalls := closeCalls c |}
        | Throw message =>
            {| modal := modal c; form := form c;
               beforeCloseRef := beforeCloseRef c;
               addEventCalls := addEventCalls c; addEventPending := k;
               notices := notices c
                          ++ ["Error when creating event: " +:+ message];
               closeCalls := closeCalls c |}
        end in
      let c2 := closeModal calendars c1 in
      withModal (performSaveResumes true (Ok tt) (modal c2)) c2
  end.

(** What can happen to an open create modal. *)
Inductive Occurrence : Type :=
| Rendered (s : FormState)
| SaveTriggered (s : FormState) (overrides : option OFCEvent)
| CloseClicked
| AddEventSettles (outcome : Result unit).

Definition occur (calendars : list CalendarEntry) (c : t) (o : Occurrence)
  : t :=
  match o with
  | Rendered s =>
      {| modal := modal c; form := s; beforeCloseRef := true;
         addEventCalls := addEventCalls c;
         addEventPending := addEventPending c;
         notices := notices c; closeCalls := closeCalls c |}
  | SaveTriggered s overrides => save calendars s overrides c
  | CloseClicked => closeModal calendars c
  | AddEventSettles outcome => addEventSettles calendars outcome c
  end.

Definition opened (s : FormState) : t :=
  {| modal := initial; form := s; beforeCloseRef := true;
     addEventCalls := []; addEventPending := O;
     notices := []; closeCalls := O |}.

Definition run (calendars : list CalendarEntry) (os : list Occurrence)
           (c : t) : t :=
  fold_left (occur calendars) os c.

End CreateModal.

(* ===================================================================== *)
(** * The plugin ([main.ts], lines 143-150, 203-231, 343-362)              *)
(* ===================================================================== *)

Module Main.

Record FullCalendarSettings : Type := {
  calendarSources : list JSValue;
  defaultCalendar : Z;
  firstDay : Z;
  initialView : string * string;
  timeFormat24h : bool;
  clickToCreateEventFromMonthView : bool;
  slotMinTime : string;
  slotMaxTime : string;
  googleClientId : string;
  googleClientSecret : string;
  googleRefreshToken : string;
  googleAccessToken : string;
  googleTokenExpiry : Z;
}.

(** The settings object as a value, as [saveData] receives and persists
    it. *)
Definition settingsObject (s : FullCalendarSettings) : JSValue :=
  VObj [ ("calendarSources", VArr (calendarSources s));
         ("defaultCalendar", VNum (defaultCalendar s));
         ("firstDay", VNum (firstDay s));
         ("initialView", VObj [("desktop", VStr (initialView s).1);
                               ("mobile", VStr (initialView s).2)]);
         ("timeFormat24h", VBool (timeFormat24h s));
         ("clickToCreateEventFromMonthView",
          VBool (clickToCreateEventFromMonthView s));
         ("slotMinTime", VStr (slotMinTime s));
         ("slotMaxTime", VStr (slotMaxTime s));
         ("googleClientId", VStr (googleClientId s));
         ("googleClientSecret", VStr (googleClientSecret s));
         ("googleRefreshToken", VStr (googleRefreshToken s));
         ("googleAccessToken", VStr (googleAccessToken s));
         ("googleTokenExpiry", VNum (googleTokenExpiry s)) ].

(** The plugin: its settings, and the content of its data file. *)
Record Plugin : Type := {
  settings : FullCalendarSettings;
  dataFile : JSValue;
}.

Definition getSettingsForSave (self : Plugin) : FullCalendarSettings :=
  let s := settings self in
  {| calendarSources := calendarSources s;
     defaultCalendar := defaultCalendar s;
     firstDay := firstDay s;
     initialView := initialView s;
     timeFormat24h := timeFormat24h s;
     clickToCreateEventFromMonthView := clickToCreateEventFromMonthView s;
     slotMinTime := slotMinTime s;
     slotMaxTime := slotMaxTime s;
     googleClientId := googleClientId s;
     googleClientSecret := googleClientSecret s;
     googleRefreshToken := "";
     googleAccessToken := "";
     googleTokenExpiry := 0 |}.

(** [typeof data === "object"] *)
Definition typeofObject (data : JSValue) : bool :=
  match data with
  | VNull | VArr _ | VObj _ => true
  | _ => false
  end.

(** ["calendarSources" in data], for [data] an object or an array *)
Definition inOperator (k : string) (data : JSValue) : bool :=
  match data with
  | VObj props => hasProp k props
  | _ => false
  end.

(** [a ?? b] *)
Definition nullish (a b : JSValue) : JSValue :=
  match a with
  | VUndefined | VNull => b
  | _ => a
  end.

(** [super.saveData(toSave)] writes the data file. *)
Definition saveData (data : JSValue) (self : Plugin) : Plugin :=
  let toSave :=
    if truthy data && typeofObject data && inOperator "calendarSources" data
    then settingsObject (getSettingsForSave self)
    else nullish data (settingsObject (getSettingsForSave self)) in
  {| settings := settings self; dataFile := toSave |}.

(** Two settings that agree on everything but the three token fields. *)
Definition sameButTokens (a b : FullCalendarSettings) : Prop :=
  calendarSources a = calendarSources b
  /\ defaultCalendar a = defaultCalendar b
  /\ firstDay a = firstDay b
  /\ initialView a = initialView b
  /\ timeFormat24h a = timeFormat24h b
  /\ clickToCreateEventFromMonthView a = clickToCreateEventFromMonthView b
  /\ slotMinTime a = slotMinTime b
  /\ slotMaxTime a = slotMaxTime b
  /\ googleClientId a = googleClientId b
  /\ googleClientSecret a = googleClientSecret b.

(** ** Vault notifications ([onload], lines 209-231) *)

Inductive CacheCall : Type :=
| FileUpdated (file : TFile)
| DeleteEventsAtPath (path : string).

(** What the plugin subscribes to: [metadataCache] "changed", and the
    vault's "rename" and "delete". *)
Inductive Notification : Type :=
| MetadataChanged (file : TFile)
| VaultRename (file : TAbstractFile) (oldPath : string)
| VaultDelete (file : TAbstractFile).

Inductive Emitter : Type := MetadataCache | Vault.

(** The event a notification is delivered as: emitter and name. *)
Definition channel (n : Notification) : Emitter * string :=
  match n with
  | MetadataChanged _ => (MetadataCache, "changed")
  | VaultRename _ _ => (Vault, "rename")
  | VaultDelete _ => (Vault, "delete")
  end.

(** [emitter.on(name, callback)]; the callback is given as the calls it
    makes on [this.cache]. *)
Record EventRef : Type := {
  emitter : Emitter;
  eventName : string;
  callback : Notification -> list CacheCall;
}.

(** The three [registerEvent] calls of [onload], in order. *)
Definition onload : list EventRef :=
  [ {| emitter := MetadataCache; eventName := "changed";
       callback := fun n =>
         match n with
         | MetadataChanged file => [FileUpdated file]
         | _ => []
         end |};
    {| emitter := Vault; eventName := "rename";
       callback := fun n =>
         match n with
         | VaultRename (AFile file) oldPath => [DeleteEventsAtPath oldPath]
         | _ => []
         end |};
    {| emitter := Vault; eventName := "delete";
       callback := fun n =>
         match n with
         | VaultDelete (AFile file) => [DeleteEventsAtPath (path file)]
         | _ => []
         end |} ].

(** Unloading the plugin detaches everything it registered. *)
Definition onunload : list EventRef := [].

Definition emitterEqb (a b : Emitter) : bool :=
  match a, b with
  | MetadataCache, MetadataCache | Vault, Vault => true
  | _, _ => false
  end.

(** Deliver [n] to the registered callbacks of its channel. *)
Definition deliver (registered : list EventRef) (n : Notification)
  : list CacheCall :=
  flat_map (fun r =>
              if emitterEqb (emitter r) (channel n).1
                 && String.eqb (eventName r) (channel n).2
              then callback r n else [])
           registered.

End Main.

(* ===================================================================== *)
(** * Google events ([GoogleCalendar.ts], lines 136-348)                   *)
(* ===================================================================== *)

Module GoogleEvents.
Import GoogleCalendar.

(** What the getters of a valid [Date] return, in the local time zone. *)
Record DateFields : Type := {
  getFullYear : Z;
  getMonth : Z;
  getDate : Z;
  getHours : Z;
  getMinutes : Z;
}.

(** [String(n).padStart(2, "0")] *)
Definition padStart2 (s : string) : string :=
  match s with
  | EmptyString => "00"
  | String c EmptyString => String "0" (String c EmptyString)
  | _ => s
  end.

(** A [string | undefined] where the code tests it: the string when it is
    truthy. *)
Definition nonEmpty (s : option string) : option string :=
  match s with
  | Some x => if String.eqb x "" then None else Some x
  | None => None
  end.

(** [gEvent.extendedProperties?.private?.ofcColor ?? undefined] *)
Definition ofcColorOf (gEvent : GoogleEvent) : option string :=
  match extendedProperties gEvent with
  | Some (Some private) =>
      option_map snd
        (List.find (fun kv => String.eqb kv.1 "ofcColor") private)
  | _ => None
  end.

(** [...(ofcColor ? { color: ofcColor } : {})] *)
Definition colorField (ofcColor : option string) : list (string * JSValue) :=
  match nonEmpty ofcColor with
  | Some c => [("color", VStr c)]
  | None => []
  end.

(** [t?.date] and [t?.dateTime] *)
Definition dateOf (t : option GoogleTime) : option string :=
  match t with Some t => date t | None => None end.

Definition dateTimeOf (t : option GoogleTime) : option string :=
  match t with Some t => dateTime t | None => None end.

Section Conversions.
(** The runtime's [Date]: [new Date(s)]; the getters, which return [NaN]
    on an invalid date ([None]); [toISOString], which throws on one;
    [d.setHours(d.getHours() + 1)]; and the time zone
    [Intl.DateTimeFormat().resolvedOptions().timeZone]. *)
Variable Date : Type.
Variable newDate : string -> Date.
Variable fields : Date -> option DateFields.
Variable toISOString : Date -> Result string.
Variable plusOneHour : Date -> Date.
Variable localTimeZone : string.

Definition formatDate (d : Date) : string :=
  match fields d with
  | Some f =>
      numberToString (getFullYear f) +:+ "-"
      +:+ padStart2 (numberToString (getMonth f + 1)) +:+ "-"
      +:+ padStart2 (numberToString (getDate f))
  | None => "NaN-NaN-NaN"
  end.

Definition formatTime (d : Date) : string :=
  match fields d with
  | Some f =>
      padStart2 (numberToString (getHours f)) +:+ ":"
      +:+ padStart2 (numberToString (getMinutes f))
  | None => "NaN:NaN"
  end.

Definition parseDateTime (date time : JSValue) : Result string :=
  toISOString (newDate (toStr date +:+ "T" +:+ toStr time +:+ ":00")).

Definition googleEventToOFC (gEvent : GoogleEvent) : option OFCEvent :=
  if negb (present (summary gEvent))
     && negb (match start gEvent with Some _ => true | None => false end)
  then None
  else
    let title := match nonEmpty (summary gEvent) with
                 | Some s => s
                 | None => "(No title)"
                 end in
    let ofcColor := ofcColorOf gEvent in
    match nonEmpty (dateOf (start gEvent)) with
    | Some startDate =>
        Some ([("title", VStr title); ("id", VStr (id gEvent));
               ("type", VStr "single"); ("allDay", VBool true);
               ("date", VStr startDate);
               ("endDate", match nonEmpty (dateOf (end_ gEvent)) with
                           | Some d => VStr d
                           | None => VNull
                           end);
               ("completed", VNull)] ++ colorField ofcColor)
    | None =>
        match nonEmpty (dateTimeOf (start gEvent)) with
        | Some startDateTime =>
            let startDT := newDate startDateTime in
            let endDT := option_map newDate
                           (nonEmpty (dateTimeOf (end_ gEvent))) in
            let date := formatDate startDT in
            let startTime := formatTime startDT in
            let endTime := match endDT with
                           | Some e => VStr (formatTime e)
                           | None => VNull
                           end in
            let endDate := match endDT with
                           | Some e =>
                               if negb (String.eqb (formatDate e) date)
                               then VStr (formatDate e) else VNull
                           | None => VNull
                           end in
            Some ([("title", VStr title); ("id", VStr (id gEvent));
                   ("type", VStr "single"); ("allDay", VBool false);
                   ("date", VStr date); ("endDate", endDate);
                   ("startTime", VStr startTime); ("endTime", endTime);
                   ("completed", VNull)] ++ colorField ofcColor)
        | None => None
        end
    end.

(** [EventResponse]: the event and its location, here always [null]. *)
Definition getEvents (self : t)
  : list (OFCEvent * option EventPathLocation) :=
  flat_map (fun gEvent =>
              match googleEventToOFC gEvent with
              | Some ofcEvent => [(ofcEvent, None)]
              | None => []
              end)
           (events self).

(** [event.type !== "single"], negated *)
Definition isSingle (event : OFCEvent) : bool :=
  match getProp "type" event with
  | VStr ty => String.eqb ty "single"
  | _ => false
  end.

(** The body is the object before [JSON.stringify], its properties in the
    order they are assigned. *)
Definition ofcToGoogleEvent (event : OFCEvent)
  : Result (list (string * JSValue)) :=
  let gEvent := [("summary", getProp "title" event)] in
  if negb (isSingle event) then Ok gEvent
  else
    rbind
      (if truthy (getProp "allDay" event)
       then Ok (gEvent
                ++ [("start", VObj [("date", getProp "date" event)]);
                    ("end", VObj [("date",
                                   EditEvent.or_ (getProp "endDate" event)
                                                 (getProp "date" event))])])
       else
         rbind (parseDateTime (getProp "date" event)
                              (getProp "startTime" event))
           (fun startDateTime =>
              rbind
                (if truthy (getProp "endTime" event)
                 then parseDateTime
                        (EditEvent.or_ (getProp "endDate" event)
                                       (getProp "date" event))
                        (getProp "endTime" event)
                 else toISOString (plusOneHour (newDate startDateTime)))
                (fun endDateTime =>
                   Ok (gEvent
                       ++ [("start", VObj [("dateTime", VStr startDateTime);
                                           ("timeZone", VStr localTimeZone)]);
                           ("end", VObj [("dateTime", VStr endDateTime);
                                         ("timeZone",
                                          VStr localTimeZone)])]))))
      (fun gEvent =>
         Ok (if truthy (getProp "color" event)
             then gEvent
                  ++ [("extendedProperties",
                       VObj [("private",
                              VObj [("ofcColor", getProp "color" event)])])]
             else gEvent)).

(** ** Write operations (lines 253-326) *)

Record WriteRequest : Type := {
  url : string;
  method : string;
  headers : list (string * string);
  body : option (list (string * JSValue));
}.

(** [response.json]: [error] holds [error.message]. *)
Record WriteResponse : Type := {
  write_error : option string;
  write_id : string;
}.

(** [authService.getValidAccessToken()], Obsidian's [requestUrl] and
    [encodeURIComponent]. *)
Variable validAccessToken : Result string.
Variable sendRequest : WriteRequest -> Result WriteResponse.
Variable encodeURIComponent : string -> string.

Definition GOOGLE_CALENDAR_API_BASE : string :=
  "https://www.googleapis.com/calendar/v3/calendars".

(** Each operation returns its outcome and the requests it sent. *)
Definition createGoogleEvent (self : t) (event : OFCEvent)
  : Result string * list WriteRequest :=
  match validAccessToken with
  | Throw e => (Throw e, [])
  | Ok token =>
      match ofcToGoogleEvent event with
      | Throw e => (Throw e, [])
      | Ok gEvent =>
          let request :=
            {| url := GOOGLE_CALENDAR_API_BASE +:+ "/"
                      +:+ encodeURIComponent (calendarId self) +:+ "/events";
               method := "POST";
               headers := [("Authorization", "Bearer " +:+ token);
                           ("Content-Type", "application/json")];
               body := Some gEvent |} in
          match sendRequest request with
          | Throw e => (Throw e, [request])
          | Ok data =>
              match write_error data with
              | Some message =>
                  (Throw ("Failed to create event: " +:+ message), [request])
              | None => (Ok (write_id data), [request])
              end
          end
      end
  end.

Definition updateGoogleEvent (self : t) (googleEventId : string)
           (event : OFCEvent) : Result unit * list WriteRequest :=
  match validAccessToken with
  | Throw e => (Throw e, [])
  | Ok token =>
      match ofcToGoogleEvent event with
      | Throw e => (Throw e, [])
      | Ok gEvent =>
          let request :=
            {| url := GOOGLE_CALENDAR_API_BASE +:+ "/"
                      +:+ encodeURIComponent (calendarId self) +:+ "/events/"
                      +:+ encodeURIComponent googleEventId;
               method := "PATCH";
               headers := [("Authorization", "Bearer " +:+ token);
                           ("Content-Type", "application/json")];
               body := Some gEvent |} in
          match sendRequest request with
          | Throw e => (Throw e, [request])
          | Ok data =>
              match write_error data with
              | Some message =>
                  (Throw ("Failed to update event: " +:+ message), [request])
              | None => (Ok tt, [request])
              end
          end
      end
  end.

Definition deleteGoogleEvent (self : t) (googleEventId : string)
  : Result unit * list WriteRequest :=
  match validAccessToken with
  | Throw e => (Throw e, [])
  | Ok token =>
      let request :=
        {| url := GOOGLE_CALENDAR_API_BASE +:+ "/"
                  +:+ encodeURIComponent (calendarId self) +:+ "/events/"
                  +:+ encodeURIComponent googleEventId;
           method := "DELETE";
           headers := [("Authorization", "Bearer " +:+ token)];
           body := None |} in
      match sendRequest request with
      | Throw e => (Throw e, [request])
      | Ok _ => (Ok tt, [request])
      end
  end.
End Conversions.

End GoogleEvents.

(* ===================================================================== *)
(** * GoogleAuthService ([main.ts], lines 372-686)                         *)
(* ===================================================================== *)

Module GoogleAuth.

Record GoogleTokens : Type := {
  accessToken : string;
  refreshToken : string;
  expiresAt : Z;
}.

Record GoogleAuthConfig : Type := {
  clientId : string;
  clientSecret : string;
}.

Record GoogleAuthService : Type := {
  config : GoogleAuthConfig;
  tokens : option GoogleTokens;
}.

(** [response.json] of the token endpoint. *)
Record TokenResponse : Type := {
  error : option string;
  error_description : option string;
  access_token : string;
  refresh_token : option string;
  expires_in : Z;
}.

(** The requests the service sends: a POST to the token endpoint with the
    given form fields, and a POST to the given revocation URL. *)
Inductive Request : Type :=
| TokenRequest (body : list (string * string))
| RevokeRequest (url : string).

(** [s || t] on [string | undefined] *)
Definition orElse (s : option string) (t : string) : string :=
  match GoogleEvents.nonEmpty s with
  | Some x => x
  | None => t
  end.

Definition isAuthenticated (self : GoogleAuthService) : bool :=
  match tokens self with
  | Some t => negb (String.eqb (refreshToken t) "")
  | None => false
  end.

Definition updateTokens (newTokens : option GoogleTokens)
           (self : GoogleAuthService) : GoogleAuthService :=
  {| config := config self; tokens := newTokens |}.

Section Service.
(** [onTokensUpdated], which acts on a state [P] of its owner's; the token
    endpoint behind [requestUrl]; [Date.now()] when the expiry is tested
    ([now]) and when a token response has arrived ([later]). *)
Variable P : Type.
Variable onTokensUpdated : GoogleTokens -> P -> Result unit * P.
Variable requestToken : list (string * string) -> Result TokenResponse.
Variable now later : Z.

(** The service, its owner's state, and what the service did so far. *)
Record World : Type := {
  self : GoogleAuthService;
  owner : P;
  requests : list Request;
  notices : list string;
}.

Definition sent (r : Request) (w : World) : World :=
  {| self := self w; owner := owner w; requests := requests w ++ [r];
     notices := notices w |}.

Definition withTokens (t : option GoogleTokens) (w : World) : World :=
  {| self := updateTokens t (self w); owner := owner w;
     requests := requests w; notices := notices w |}.

(** [await this.onTokensUpdated(tokens)] *)
Definition notifyOwner (t : GoogleTokens) (w : World) : Result unit * World :=
  let (r, p) := onTokensUpdated t (owner w) in
  (r, {| self := self w; owner := p; requests := requests w;
         notices := notices w |}).

(** [Date.now() + (data.expires_in - 60) * 1000] *)
Definition expiry (data : TokenResponse) : Z :=
  later + (expires_in data - 60) * 1000.

Definition exchangeCodeForTokens (code redirectUri : string) (w : World)
  : Result unit * World :=
  let body := [("code", code);
               ("client_id", clientId (config (self w)));
               ("client_secret", clientSecret (config (self w)));
               ("redirect_uri", redirectUri);
               ("grant_type", "authorization_code")] in
  let w1 := sent (TokenRequest body) w in
  match requestToken body with
  | Throw e => (Throw e, w1)
  | Ok data =>
      match GoogleEvents.nonEmpty (error data) with
      | Some err =>
          (Throw ("Token exchange failed: "
                  +:+ orElse (error_description data) err), w1)
      | None =>
          let newTokens :=
            {| accessToken := access_token data;
               refreshToken :=
                 orElse (refresh_token data)
                        (orElse (option_map refreshToken (tokens (self w)))
                                "");
               expiresAt := expiry data |} in
          notifyOwner newTokens (withTokens (Some newTokens) w1)
      end
  end.

Definition refreshAccessToken (w : World) : Result unit * World :=
  match GoogleEvents.nonEmpty (option_map refreshToken (tokens (self w))) with
  | None => (Throw "No refresh token available. Please re-authorize.", w)
  | Some storedRefreshToken =>
      let body := [("client_id", clientId (config (self w)));
                   ("client_secret", clientSecret (config (self w)));
                   ("refresh_token", storedRefreshToken);
                   ("grant_type", "refresh_token")] in
      let w1 := sent (TokenRequest body) w in
      match requestToken body with
      | Throw e => (Throw e, w1)
      | Ok data =>
          match GoogleEvents.nonEmpty (error data) with
          | Some err =>
              (Throw ("Token refresh failed: "
                      +:+ orElse (error_description data) err), w1)
          | None =>
              let newTokens :=
                {| accessToken := access_token data;
                   refreshToken := storedRefreshToken;
                   expiresAt := expiry data |} in
              notifyOwner newTokens (withTokens (Some newTokens) w1)
          end
      end
  end.

Definition getValidAccessToken (w : World) : Result string * World :=
  match tokens (self w) with
  | None =>
      (Throw "Not authenticated. Please authorize Google Calendar first.", w)
  | Some t =>
      if now >=? expiresAt t then
        match refreshAccessToken w with
        | (Ok _, w') =>
            (match tokens (self w') with
             | Some t' => Ok (accessToken t')
             | None =>
                 Throw "TypeError: Cannot read properties of null"
             end, w')
        | (Throw e, w') => (Throw e, w')
        end
      else (Ok (accessToken t), w)
  end.

(** The outcome of the revocation request is ignored (it is logged). *)
Definition revokeAuth (w : World) : Result unit * World :=
  let w1 :=
    match GoogleEvents.nonEmpty (option_map accessToken (tokens (self w)))
    with
    | Some token =>
        sent (RevokeRequest
                ("https://oauth2.googleapis.com/revoke?token=" +:+ token)) w
    | None => w
    end in
  match notifyOwner {| accessToken := ""; refreshToken := ""; expiresAt := 0 |}
                    (withTokens None w1) with
  | (Ok _, w2) =>
      (Ok tt,
       {| self := self w2; owner := owner w2; requests := requests w2;
          notices := notices w2
                     ++ ["Google Calendar authorization revoked."] |})
  | (Throw e, w2) => (Throw e, w2)
  end.
End Service.

Arguments self {P} _.
Arguments owner {P} _.
Arguments requests {P} _.
Arguments notices {P} _.

End GoogleAuth.

(* ===================================================================== *)
(** * Where the plugin keeps the tokens ([main.ts], lines 26, 95-201)      *)
(* ===================================================================== *)

Module TokenStorage.
Import Main GoogleAuth.

Definition GOOGLE_TOKENS_SECRET_KEY : string :=
  "full-calendar-google-oauth-tokens".

Section Storage.
(** [app.secretStorage]: whether the app has one; its state [S]; its
    [getSecret] and [setSecret], each of which may be missing and may
    throw.  [JSON.stringify] of tokens, and [JSON.parse] of a secret read
    as tokens: it throws, or yields [null] ([None]), or yields an object,
    whose [refreshToken] is tested. *)
Variable S : Type.
Variable hasSecretStorage : bool.
Variable getSecret : option (string -> S -> Result (option string)).
Variable setSecret : option (string -> string -> S -> Result S).
Variable stringify : GoogleTokens -> string.
Variable parse : string -> Result (option GoogleTokens).

(** The plugin with the app's secret storage. *)
Record Host : Type := {
  plugin : Plugin;
  secrets : S;
}.

Definition loadGoogleTokensFromStorage (h : Host) : option GoogleTokens :=
  if negb hasSecretStorage then None
  else
    match getSecret with
    | None => None
    | Some get =>
        match get GOOGLE_TOKENS_SECRET_KEY (secrets h) with
        | Throw _ => None
        | Ok None => None
        | Ok (Some raw) =>
            if String.eqb raw "" then None
            else
              match parse raw with
              | Throw _ => None
              | Ok None => None
              | Ok (Some parsed) =>
                  if String.eqb (refreshToken parsed) "" then None
                  else Some parsed
              end
        end
    end.

Definition saveGoogleTokensToStorage (newTokens : GoogleTokens) (h : Host)
  : bool * Host :=
  if negb hasSecretStorage then (false, h)
  else
    match setSecret with
    | None => (false, h)
    | Some set =>
        match set GOOGLE_TOKENS_SECRET_KEY (stringify newTokens) (secrets h)
        with
        | Ok s => (true, {| plugin := plugin h; secrets := s |})
        | Throw _ => (false, h)
        end
    end.

Definition deleteGoogleTokensFromStorage (h : Host) : Host :=
  if negb hasSecretStorage then h
  else
    match setSecret with
    | None => h
    | Some set =>
        match set GOOGLE_TOKENS_SECRET_KEY "" (secrets h) with
        | Ok s => {| plugin := plugin h; secrets := s |}
        | Throw _ => h
        end
    end.

Definition withPlugin (p : Plugin) (h : Host) : Host :=
  {| plugin := p; secrets := secrets h |}.

(** [this.settings.googleAccessToken = a], and so on for the three token
    fields. *)
Definition setTokenFields (a r : string) (e : Z) (p : Plugin) : Plugin :=
  let s := settings p in
  {| settings :=
       {| calendarSources := calendarSources s;
          defaultCalendar := defaultCalendar s;
          firstDay := firstDay s;
          initialView := initialView s;
          timeFormat24h := timeFormat24h s;
          clickToCreateEventFromMonthView :=
            clickToCreateEventFromMonthView s;
          slotMinTime := slotMinTime s;
          slotMaxTime := slotMaxTime s;
          googleClientId := googleClientId s;
          googleClientSecret := googleClientSecret s;
          googleRefreshToken := r;
          googleAccessToken := a;
          googleTokenExpiry := e |};
     dataFile := dataFile p |}.

(** [Plugin.prototype.saveData.call(this, data)]: the data file is written
    as given, past the override of [saveData]. *)
Definition pluginSaveData (data : JSValue) (p : Plugin) : Plugin :=
  {| settings := settings p; dataFile := data |}.

(** [await this.saveData(this.getSettingsForSave())] *)
Definition saveSettingsForSave (p : Plugin) : Plugin :=
  saveData (settingsObject (getSettingsForSave p)) p.

(** The callback [initGoogleAuth] hands to the service. *)
Definition tokensUpdated (newTokens : GoogleTokens) (h : Host)
  : Result unit * Host :=
  if negb (String.eqb (refreshToken newTokens) "")
     || negb (String.eqb (accessToken newTokens) "")
  then
    match saveGoogleTokensToStorage newTokens h with
    | (true, h1) => (Ok tt, withPlugin (saveSettingsForSave (plugin h1)) h1)
    | (false, h1) =>
        let p := setTokenFields (accessToken newTokens)
                                (refreshToken newTokens)
                                (expiresAt newTokens) (plugin h1) in
        (Ok tt, withPlugin (pluginSaveData (settingsObject (settings p)) p) h1)
    end
  else
    let h1 := deleteGoogleTokensFromStorage h in
    (Ok tt, withPlugin (saveSettingsForSave (plugin h1)) h1).

(** [initGoogleAuth]: the service it builds, and the plugin afterwards. *)
Definition initGoogleAuth (h : Host) : GoogleAuthService * Host :=
  let loaded := if hasSecretStorage then loadGoogleTokensFromStorage h
                else None in
  let s := settings (plugin h) in
  let service (t : option GoogleTokens) :=
    {| config := {| clientId := googleClientId s;
                    clientSecret := googleClientSecret s |};
       tokens := t |} in
  match loaded with
  | Some t => (service (Some t), h)
  | None =>
      if negb (String.eqb (googleRefreshToken s) "") then
        let t := {| accessToken := googleAccessToken s;
                    refreshToken := googleRefreshToken s;
                    expiresAt := googleTokenExpiry s |} in
        if hasSecretStorage then
          let (_, h1) := saveGoogleTokensToStorage t h in
          let p := setTokenFields "" "" 0 (plugin h1) in
          (service (Some t), withPlugin (saveSettingsForSave p) h1)
        else (service (Some t), h)
      else (service None, h)
  end.
End Storage.

Arguments plugin {S} _.
Arguments secrets {S} _.

End TokenStorage.

(* ===================================================================== *)
(** * Duplicate list items ([cleanupDuplicateDailyEvents.ts])              *)
(* ===================================================================== *)

Module Cleanup.

Section Content.
(** The regular expressions and [String.prototype.trim] are the runtime's:
    [line.match(/^(#{1,6})\s+(.+)$/)] as the length of the first group and
    the second group, and [/^\s*-\s+/.test(line)]. *)
Variable headingMatch : string -> option (nat * string).
Variable isListItem : string -> bool.
Variable trim : string -> string.

(** [title === heading], for the string [title] *)
Definition isHeading (title : string) (heading : JSValue) : bool :=
  match heading with
  | VStr h => String.eqb title h
  | _ => false
  end.

(** The [for] loop over the lines, from line [i] on: the list items of the
    section, each with its line number. *)
Fixpoint sectionLinesFrom (heading : JSValue) (lines : list string) (i : nat)
         (inSection : bool) (sectionLevel : nat)
         (sectionLines : list (nat * string)) : list (nat * string) :=
  match lines with
  | [] => sectionLines
  | line :: rest =>
      match headingMatch line with
      | Some (level, title) =>
          if isHeading (trim title) heading
          then sectionLinesFrom heading rest (S i) true level []
          else if inSection && (level <=? sectionLevel)%nat
               then sectionLines
               else sectionLinesFrom heading rest (S i) inSection
                                     sectionLevel sectionLines
      | None =>
          if inSection && isListItem line
          then sectionLinesFrom heading rest (S i) inSection sectionLevel
                                (sectionLines ++ [(i, line)])
          else sectionLinesFrom heading rest (S i) inSection sectionLevel
                                sectionLines
      end
  end.

(** [toRemove.includes(i)] *)
Definition includes (toRemove : list nat) (i : nat) : bool :=
  existsb (Nat.eqb i) toRemove.

(** [seen.has(normalized)]; the set is kept as the list of its elements. *)
Definition has (seen : list string) (normalized : string) : bool :=
  existsb (String.eqb normalized) seen.

(** The loop over [sectionLines]: the line numbers pushed on [toRemove]. *)
Fixpoint duplicates (sectionLines : list (nat * string)) (seen : list string)
  : list nat :=
  match sectionLines with
  | [] => []
  | (idx, text) :: rest =>
      let normalized := trim text in
      if has seen normalized
      then idx :: duplicates rest seen
      else duplicates rest (normalized :: seen)
  end.

(** [lines.filter((_, i) => !toRemove.includes(i))], from line [i] on *)
Fixpoint withoutLines (toRemove : list nat) (lines : list string) (i : nat)
  : list string :=
  match lines with
  | [] => []
  | line :: rest =>
      if includes toRemove i then withoutLines toRemove rest (S i)
      else line :: withoutLines toRemove rest (S i)
  end.

(** What the body of the loop over the files does with the content of one
    file: [None] when it leaves the file alone, else the content it hands
    to [modify] and the number of lines removed. *)
Definition cleanContent (heading : JSValue) (content : string)
  : option (string * nat) :=
  let lines := split nl content in
  let sectionLines := sectionLinesFrom heading lines O false O [] in
  if (length sectionLines <? 2)%nat then None
  else
    let toRemove := duplicates sectionLines [] in
    if (0 <? length toRemove)%nat
    then Some (join nl (withoutLines toRemove lines O), length toRemove)
    else None.
End Content.

Section Files.
Variable headingMatch : string -> option (nat * string).
Variable isListItem : string -> bool.
Variable trim : string -> string.

(** [app.vault]: [read(file)] and [modify(file, content)], by the path of
    the file; [Store] is the state of the vault. *)
Variable Store : Type.
Variable read : string -> Store -> Result string.
Variable modify : string -> string -> Store -> Result Store.

(** Of [obsidian-daily-notes-interface]: [getDailyNoteSettings().folder]
    and [Object.values(getAllDailyNotes())]. *)
Variable folder : option string.
Variable notes : list TFile.

Record Report : Type := {
  filesCleaned : nat;
  duplicatesRemoved : nat;
}.

(** [s.type === "dailynote"] *)
Definition isDailynote (s : list (string * JSValue)) : bool :=
  match getProp "type" s with
  | VStr ty => String.eqb ty "dailynote"
  | _ => false
  end.

(** [s.endsWith(suffix)] *)
Definition endsWith (suffix s : string) : bool :=
  startsWith (String.rev suffix) (String.rev s).

(** The test that guards the [continue] of the loop over the files,
    negated. *)
Definition inDailyFolder (folder : string) (file : TFile) : bool :=
  let folderPrefix := if endsWith "/" folder then folder
                      else folder +:+ "/" in
  startsWith folderPrefix (path file) || String.eqb (path file) folder.

(** The loop over the files for one heading.  A rejected [read] or [modify]
    rejects the whole call; what was written before stays written. *)
Fixpoint cleanFiles (heading : JSValue) (folder : string)
         (files : list TFile) (st : Store) (report : Report)
  : Result Report * Store :=
  match files with
  | [] => (Ok report, st)
  | file :: rest =>
      if negb (inDailyFolder folder file)
      then cleanFiles heading folder rest st report
      else
        match read (path file) st with
        | Throw e => (Throw e, st)
        | Ok content =>
            match cleanContent headingMatch isListItem trim heading content
            with
            | None => cleanFiles heading folder rest st report
            | Some (newContent, removed) =>
                match modify (path file) newContent st with
                | Throw e => (Throw e, st)
                | Ok st' =>
                    cleanFiles heading folder rest st'
                      {| filesCleaned := S (filesCleaned report);
                         duplicatesRemoved :=
                           (duplicatesRemoved report + removed)%nat |}
                end
            end
        end
  end.

(** The loop over the daily-note sources. *)
Fixpoint cleanSources (folder : string)
         (sources : list (list (string * JSValue))) (st : Store)
         (report : Report) : Result Report * Store :=
  match sources with
  | [] => (Ok report, st)
  | source :: rest =>
      match cleanFiles (getProp "heading" source) folder notes st report with
      | (Ok report', st') => cleanSources folder rest st' report'
      | (Throw e, st') => (Throw e, st')
      end
  end.

Definition nothingCleaned : Report :=
  {| filesCleaned := O; duplicatesRemoved := O |}.

(** The outcome, the vault afterwards, and the notices shown. *)
Definition cleanupDuplicateDailyNoteEvents
           (calendarSources : list (list (string * JSValue))) (st : Store)
  : Result Report * Store * list string :=
  let dailynoteSources := List.filter isDailynote calendarSources in
  if (length dailynoteSources =? 0)%nat then (Ok nothingCleaned, st, [])
  else
    match folder with
    | Some (String c f) =>
        (cleanSources (String c f) dailynoteSources st nothingCleaned, [])
    | _ =>
        (Ok nothingCleaned, st,
         ["Daily note 폴더 설정을 찾을 수 없습니다."])
    end.
End Files.

End Cleanup.

(* ===================================================================== *)
(** * Vocabulary of the statements                                         *)
(* ===================================================================== *)

Fixpoint noBackslash (s : string) : bool :=
  match s with
  | EmptyString => true
  | String c rest => negb (Ascii.eqb c backslash) && noBackslash rest
  end.

Fixpoint noSlash (s : string) : bool :=
  match s with
  | EmptyString => true
  | String c rest => negb (Ascii.eqb c slash) && noSlash rest
  end.

Fixpoint noDoubleSlash (s : string) : bool :=
  match s with
  | String c ((String d _) as rest) =>
      negb (Ascii.eqb c slash && Ascii.eqb d slash) && noDoubleSlash rest
  | _ => true
  end.

Definition noLeadingSlash (s : string) : bool :=
  match s with
  | String c _ => negb (Ascii.eqb c slash)
  | EmptyString => true
  end.

Fixpoint noTrailingSlash (s : string) : bool :=
  match s with
  | EmptyString => true
  | String c EmptyString => negb (Ascii.eqb c slash)
  | String _ rest => noTrailingSlash rest
  end.

(** A file name proper: no slash and no backslash in it. *)
Definition noSeparator (s : string) : bool := noBackslash s && noSlash s.

(** The path of a folder as Obsidian writes it: ["/"] for the root of the
    vault, else segments joined by single slashes, with no slash at either
    end. *)
Definition isFolderPath (p : string) : bool :=
  String.eqb p "/"
  || (negb (String.eqb p "") && noBackslash p && noDoubleSlash p
      && noLeadingSlash p && noTrailingSlash p).

(** The path of the file called [filename] directly inside [folder]. *)
Definition inFolder (folder filename : string) : string :=
  if String.eqb folder "/" then filename
  else folder +:+ "/" +:+ filename.

(** The file name the specification gives for an event: ["<date> <title>.md"]
    for a single event, ["(Every <days joined by commas>) <title>.md"] for a
    recurring one. *)
Inductive DerivedFilename (event : OFCEvent) : string -> Prop :=
| Derived_single date title :
    getProp "type" event = VUndefined \/ getProp "type" event = VStr "single" ->
    getProp "date" event = VStr date ->
    getProp "title" event = VStr title ->
    DerivedFilename event (date +:+ " " +:+ title +:+ ".md")
| Derived_recurring days title :
    getProp "type" event = VStr "recurring" ->
    getProp "daysOfWeek" event = VArr (map VStr days) ->
    getProp "title" event = VStr title ->
    DerivedFilename event
      ("(Every " +:+ join "," days +:+ ") " +:+ title +:+ ".md").

(** The files among the direct children of a folder. *)
Fixpoint directFiles (files : list TAbstractFile) : list TFile :=
  match files with
  | [] => []
  | AFile f :: rest => f :: directFiles rest
  | AFolder _ :: rest => directFiles rest
  end.

(** Where [getEvents] looks for the calendar's folder. *)
Definition resolveDirectory `{ObsidianInterface V} (self : FullNoteCalendar)
           (v : V) : option TAbstractFile :=
  if String.eqb (normalizeVaultPath (directory self)) ""
  then Some (AFolder (getRoot v))
  else getAbstractFileByPath v (normalizeVaultPath (directory self)).

(** [data] is an object with a [calendarSources] field. *)
Definition hasCalendarSources (data : JSValue) : Prop :=
  exists props, data = VObj props /\ hasProp "calendarSources" props = true.

(* ===================================================================== *)
(** * Data for the examples                                                *)
(* ===================================================================== *)

Definition isSpace (c : ascii) : bool :=
  Ascii.eqb c " "%char || Ascii.eqb c (ascii_of_nat 9)
  || Ascii.eqb c (ascii_of_nat 10) || Ascii.eqb c (ascii_of_nat 13).

Fixpoint trimStart (s : string) : string :=
  match s with
  | String c rest => if isSpace c then trimStart rest else s
  | EmptyString => EmptyString
  end.

Definition trim (s : string) : string :=
  String.rev (trimStart (String.rev (trimStart s))).

(** Stand-ins for the two libraries: the rrule text of the one rule the
    examples use, and the [parseYaml] of [__mocks__/obsidian.ts], which
    splits a line at its first colon. *)
Definition testLibraries : Libraries := {|
  rrulestr_toText v :=
    match v with
    | VStr "FREQ=DAILY" => Ok "every day"
    | _ => Throw "Error: Unknown RRULE property"
    end;
  parseYaml line :=
    match split ":" line with
    | k :: v =>
        if String.eqb k "" then None
        else Some [(trim k, VStr (trim (join ":" v)))]
    | [] => None
    end;
|}.

(** A stand-in for [validateEvent]: every object with a [date] passes. *)
Definition testSchema : EventSchema := {|
  validateEvent v :=
    match v with
    | VObj props => if hasProp "date" props then Some props else None
    | _ => None
    end;
|}.

Definition standupNote : MemFile := {|
  mfid := 1;
  mpath := "Events/2024-01-10 Standup.md";
  mcontent := "---" +:+ nl +:+ "title: Standup" +:+ nl
              +:+ "date: 2024-01-10" +:+ nl +:+ "---" +:+ nl;
  mmeta := Some {| frontmatter :=
                     VObj [("title", VStr "Standup");
                           ("date", VStr "2024-01-10")] |};
|}.

Definition retroNote : MemFile := {|
  mfid := 2;
  mpath := "Events/2024-01-12 Retro.md";
  mcontent := "---" +:+ nl +:+ "date: 2024-01-12" +:+ nl +:+ "---" +:+ nl;
  mmeta := Some {| frontmatter := VObj [("date", VStr "2024-01-12")] |};
|}.

Definition nestedNote : MemFile := {|
  mfid := 3;
  mpath := "Events/Archive/2023-12-01 Review.md";
  mcontent := "---" +:+ nl +:+ "date: 2023-12-01" +:+ nl +:+ "---" +:+ nl;
  mmeta := Some {| frontmatter := VObj [("date", VStr "2023-12-01")] |};
|}.

Definition exampleVault : MemVault := {|
  entries := [standupNote; retroNote; nestedNote];
  dirs := ["Events"; "Events/Archive"; "Daily"];
|}.

Definition exampleWorld : World MemVault :=
  {| vault := exampleVault; trace := [] |}.

Definition eventsCalendar : FullNoteCalendar :=
  {| color := "#1F3A8A"; directory := "Events" |}.

Definition standupLocation : EventPathLocation :=
  {| loc_path := "Events/2024-01-10 Standup.md"; loc_lineNumber := None |}.

Definition standup : OFCEvent :=
  [("title", VStr "Standup"); ("type", VStr "single");
   ("date", VStr "2024-01-10"); ("allDay", VBool true)].

Definition planning : OFCEvent :=
  [("title", VStr "Planning"); ("type", VStr "single");
   ("date", VStr "2024-01-11"); ("allDay", VBool true)].

(** A title with a backslash in it, and one with a slash. *)
Definition backslashTitle : OFCEvent :=
  [("title", VStr "a\b"); ("type", VStr "single");
   ("date", VStr "2024-01-11")].

Definition slashTitle : OFCEvent :=
  [("title", VStr "Design/Review"); ("type", VStr "single");
   ("date", VStr "2024-01-11")].

Definition missingLocation : EventPathLocation :=
  {| loc_path := "Events/2024-02-01 Missing.md"; loc_lineNumber := None |}.

Definition inlineLocation : EventPathLocation :=
  {| loc_path := "Events/2024-01-10 Standup.md"; loc_lineNumber := Some 4 |}.

Definition dailyNotes : EditableCalendar :=
  DailyNoteCalendar "#059669" "Events".

Definition planningLocation : EventLocation string :=
  {| file := "Events/2024-01-11 Planning.md"; lineNumber := None |}.

(** The note [createEvent] writes for [planning]. *)
Definition planningNote : MemFile := {|
  mfid := 4;
  mpath := "Events/2024-01-11 Planning.md";
  mcontent := newFrontmatter planning;
  mmeta := None;
|}.

Module GoogleExamples.
Import GoogleCalendar.

Definition gEvent (i : string) (s : option string) : GoogleEvent :=
  {| id := i; summary := Some ("Event " +:+ i); description := None;
     start := Some {| dateTime := None; date := Some "2024-01-10";
                      timeZone := None |};
     end_ := None; recurrence := None; status := s;
     extendedProperties := None |}.

Definition page1 : GoogleEventsListResponse :=
  {| items := Some [gEvent "a" (Some "confirmed");
                    gEvent "b" (Some "cancelled")];
     nextPageToken := Some "page-2";
     error := None |}.

Definition page2 : GoogleEventsListResponse :=
  {| items := Some [gEvent "c" None];
     nextPageToken := None;
     error := None |}.

Definition quotaExceeded : GoogleEventsListResponse :=
  {| items := None; nextPageToken := None;
     error := Some "Quota exceeded" |}.

(** A server with two pages, and one whose second page is an error. *)
Definition twoPages : Remote :=
  {| getValidAccessToken := Ok "token";
     timeMin := "2023-07-01T00:00:00.000Z";
     timeMax := "2024-07-01T00:00:00.000Z";
     requestUrl n req :=
       match req_pageToken req with
       | None => Ok page1
       | Some "page-2" => Ok page2
       | Some _ => Throw "Request failed, status 400"
       end |}.

Definition errorOnSecondPage : Remote :=
  {| getValidAccessToken := Ok "token";
     timeMin := "2023-07-01T00:00:00.000Z";
     timeMax := "2024-07-01T00:00:00.000Z";
     requestUrl n req :=
       match req_pageToken req with
       | None => Ok page1
       | Some _ => Ok quotaExceeded
       end |}.

Definition notAuthenticated : Remote :=
  {| getValidAccessToken :=
       Throw "Not authenticated. Please authorize Google Calendar first.";
     timeMin := ""; timeMax := "";
     requestUrl n req := Ok page2 |}.

(** A calendar holding the snapshot of an earlier revalidation. *)
Definition calendar : t :=
  {| color := "#EA580C"; calendarName := "Team";
     calendarId := "team@group.calendar.google.com";
     events := [gEvent "old" (Some "confirmed")] |}.
End GoogleExamples.

(** A stand-in for the URL syntax check of the examples. *)
Definition testUrlSyntax : CalendarSettings.UrlSyntax := {|
  CalendarSettings.validUrl s :=
    startsWith "https://" s || startsWith "http://" s;
|}.

Definition icalDescriptor : JSValue :=
  VObj [("type", VStr "ical"); ("color", VStr "#059669");
        ("url", VStr "https://example.org/team.ics");
        ("note", VStr "not part of the schema")].

Definition descriptorWithoutColor : JSValue :=
  VObj [("type", VStr "local"); ("directory", VStr "Events")].

Definition descriptorOfUnknownType : JSValue :=
  VObj [("type", VStr "icloud"); ("color", VStr "#059669")].

(** The form of a create modal once a title and a date have been entered. *)
Definition standupForm : EditEvent.FormState := {|
  EditEvent.title := "Standup";
  EditEvent.date := VStr "2024-01-10";
  EditEvent.endDate := VUndefined;
  EditEvent.startTime := "";
  EditEvent.endTime := "";
  EditEvent.isRecurring := false;
  EditEvent.endRecur := "";
  EditEvent.daysOfWeek := [];
  EditEvent.allDay := true;
  EditEvent.calendarIndex := 0;
  EditEvent.eventColor := "#1F3A8A";
  EditEvent.complete := VBool false;
  EditEvent.isTask := false;
|}.

(** The event [getEventData] builds from [standupForm]. *)
Definition standupData : OFCEvent :=
  [("title", VStr "Standup"); ("color", VStr "#1F3A8A");
   ("allDay", VBool true); ("type", VStr "single");
   ("date", VStr "2024-01-10"); ("endDate", VNull); ("completed", VNull)].

Definition modalCalendars : list CreateModal.CalendarEntry :=
  [ {| CreateModal.id := "local::Events"; CreateModal.name := "Events";
       CreateModal.type := "local" |} ].

(** Settings that differ in the three token fields only. *)
Definition settingsWithTokens : Main.FullCalendarSettings := {|
  Main.calendarSources := [icalDescriptor];
  Main.defaultCalendar := 0;
  Main.firstDay := 0;
  Main.initialView := ("timeGridWeek", "timeGrid3Days");
  Main.timeFormat24h := false;
  Main.clickToCreateEventFromMonthView := true;
  Main.slotMinTime := "00:00:00";
  Main.slotMaxTime := "24:00:00";
  Main.googleClientId := "client-id";
  Main.googleClientSecret := "client-secret";
  Main.googleRefreshToken := "1//refresh";
  Main.googleAccessToken := "ya29.access";
  Main.googleTokenExpiry := 1704880800000;
|}.

Definition settingsWithOtherTokens : Main.FullCalendarSettings := {|
  Main.calendarSources := [icalDescriptor];
  Main.defaultCalendar := 0;
  Main.firstDay := 0;
  Main.initialView := ("timeGridWeek", "timeGrid3Days");
  Main.timeFormat24h := false;
  Main.clickToCreateEventFromMonthView := true;
  Main.slotMinTime := "00:00:00";
  Main.slotMaxTime := "24:00:00";
  Main.googleClientId := "client-id";
  Main.googleClientSecret := "client-secret";
  Main.googleRefreshToken := "";
  Main.googleAccessToken := "ya29.other";
  Main.googleTokenExpiry := 0;
|}.

(** The rejection of [addEvent] when the note exists already. *)
Definition alreadyExists : Result unit :=
  Throw "Event at Events/2024-01-10 Standup.md already exists.".

(** An update that would give the standup note the name of the retro note. *)
Definition retro : OFCEvent :=
  [("title", VStr "Retro"); ("type", VStr "single");
   ("date", VStr "2024-01-12"); ("allDay", VBool true)].

(* ===================================================================== *)
(** * Vocabulary of the further properties                                 *)
(* ===================================================================== *)

Definition isSeparator (c : ascii) : bool :=
  Ascii.eqb c slash || Ascii.eqb c backslash.

(** Nothing but slashes and backslashes (the empty path included). *)
Fixpoint onlySeparators (s : string) : bool :=
  match s with
  | EmptyString => true
  | String c rest => isSeparator c && onlySeparators rest
  end.

(** A path in normal form: forward slashes only, none doubled, none in
    front. *)
Definition isNormal (p : string) : bool :=
  noBackslash p && noDoubleSlash p && noLeadingSlash p.

Definition archiveCalendar : FullNoteCalendar :=
  {| color := "#059669"; directory := "Events/Archive" |}.

(** The lines [newFrontmatter] writes between the two separators. *)
Definition frontmatterRows (fields : OFCEvent) : string :=
  join nl (map (fun kv => stringifyYamlLine kv.1 kv.2)
               (filter (fun kv => isUndefined kv.2 = false) fields)).

(** A note with a body, and a note without front matter. *)
Definition standupPage : string :=
  "---" +:+ nl +:+ "title: Standup" +:+ nl +:+ "date: 2024-01-10" +:+ nl
  +:+ "---" +:+ nl +:+ "Agenda --- and notes" +:+ nl.

Definition plainPage : string := "Agenda" +:+ nl.

(** A weekly event with an end of recurrence. *)
Definition weeklyReview : OFCEvent :=
  [("title", VStr "Review"); ("type", VStr "recurring");
   ("daysOfWeek", VArr [VStr "M"; VStr "W"]);
   ("startRecur", VStr "2024-01-01"); ("endRecur", VStr "2024-06-30");
   ("allDay", VBool true)].

(** A timed task. *)
Definition dentist : OFCEvent :=
  [("title", VStr "Dentist"); ("type", VStr "single");
   ("date", VStr "2024-02-01"); ("endDate", VNull);
   ("allDay", VBool false); ("startTime", VStr "09:00");
   ("endTime", VStr "10:00"); ("completed", VBool false)].

(** Colours for the examples: the accent colour, and a conversion that
    leaves its argument's text as it is. *)
Definition accent : string := "#808080".
Definition plainColor (v : JSValue) : string := toStr v.

(** For the examples: the two regular expressions on lines of ASCII
    text. *)
Fixpoint leadingHashes (s : string) : nat * string :=
  match s with
  | String "#" rest => let (n, t) := leadingHashes rest in (S n, t)
  | _ => (O, s)
  end.

Definition spaceHeadingMatch (line : string) : option (nat * string) :=
  let (n, rest) := leadingHashes line in
  match rest with
  | String c title =>
      if isSpace c && (1 <=? n)%nat && (n <=? 6)%nat
         && negb (String.eqb (trimStart title) "")
      then Some (n, trimStart title) else None
  | _ => None
  end.

Definition spaceIsListItem (line : string) : bool :=
  match trimStart line with
  | String "-" (String c _) => isSpace c
  | _ => false
  end.

(** A daily note whose Events section lists one item twice, with another
    item in between. *)
Definition dailyNote : string :=
  "# 2024-01-10" +:+ nl +:+ "## Events" +:+ nl +:+ "- Standup" +:+ nl
  +:+ "- Retro" +:+ nl +:+ "- Standup " +:+ nl +:+ "## Notes" +:+ nl
  +:+ "- Standup".

Definition dailyNoteCleaned : string :=
  "# 2024-01-10" +:+ nl +:+ "## Events" +:+ nl +:+ "- Standup" +:+ nl
  +:+ "- Retro" +:+ nl +:+ "## Notes" +:+ nl +:+ "- Standup".

(** A vault as the list of its notes, path and content. *)
Definition NoteStore : Type := list (string * string).

Fixpoint readNote (p : string) (st : NoteStore) : Result string :=
  match st with
  | [] => Throw "File not found"
  | (q, content) :: rest =>
      if String.eqb p q then Ok content else readNote p rest
  end.

Fixpoint writeNote (p content : string) (st : NoteStore) : option NoteStore :=
  match st with
  | [] => None
  | (q, old) :: rest =>
      if String.eqb p q then Some ((q, content) :: rest)
      else option_map (cons (q, old)) (writeNote p content rest)
  end.

Definition modifyNote (p content : string) (st : NoteStore)
  : Result NoteStore :=
  match writeNote p content st with
  | Some st' => Ok st'
  | None => Throw "File not found"
  end.

Definition dailyFile : TFile :=
  {| fid := 7; path := "Daily/2024-01-10.md"; name := "2024-01-10.md";
     basename := "2024-01-10"; parent_path := "Daily" |}.

Definition dailyStore : NoteStore :=
  [("Daily/2024-01-10.md", dailyNote); ("Inbox.md", dailyNote)].

Definition dailySources : list (list (string * JSValue)) :=
  [ [("type", VStr "local"); ("directory", VStr "Events")];
    [("type", VStr "dailynote"); ("heading", VStr "Events")] ].

(** The Google event that carries what a request body holds, under the id
    the API gave it: what the calendar is expected to serve for an event
    created from that body. *)
Definition stringOfBody (v : JSValue) : option string :=
  match v with VStr s => Some s | _ => None end.

Definition timeOfBody (v : JSValue) : option GoogleCalendar.GoogleTime :=
  match v with
  | VObj props =>
      Some {| GoogleCalendar.dateTime := stringOfBody (getProp "dateTime" props);
              GoogleCalendar.date := stringOfBody (getProp "date" props);
              GoogleCalendar.timeZone :=
                stringOfBody (getProp "timeZone" props) |}
  | _ => None
  end.

Definition privateOfBody (v : JSValue)
  : option (option (list (string * string))) :=
  match v with
  | VObj props =>
      Some match getProp "private" props with
           | VObj entries =>
               Some (flat_map (fun kv => match kv.2 with
                                         | VStr s => [(kv.1, s)]
                                         | _ => []
                                         end) entries)
           | _ => None
           end
  | _ => None
  end.

Definition servedEvent (id : string) (body : list (string * JSValue))
  : GoogleCalendar.GoogleEvent :=
  {| GoogleCalendar.id := id;
     GoogleCalendar.summary := stringOfBody (getProp "summary" body);
     GoogleCalendar.description := None;
     GoogleCalendar.start := timeOfBody (getProp "start" body);
     GoogleCalendar.end_ := timeOfBody (getProp "end" body);
     GoogleCalendar.recurrence := None;
     GoogleCalendar.status := Some "confirmed";
     GoogleCalendar.extendedProperties :=
       privateOfBody (getProp "extendedProperties" body) |}.

(** [gEvent.start?.date] or [gEvent.start?.dateTime] is truthy. *)
Definition hasStart (gEvent : GoogleCalendar.GoogleEvent) : bool :=
  GoogleCalendar.present
    (GoogleEvents.dateOf (GoogleCalendar.start gEvent))
  || GoogleCalendar.present
       (GoogleEvents.dateTimeOf (GoogleCalendar.start gEvent)).

(** For the examples: a runtime without dates (every date is invalid), a
    token, and an API that accepts every request. *)
Definition noDate (s : string) : unit := tt.
Definition noFields (d : unit) : option GoogleEvents.DateFields := None.
Definition invalidTime (d : unit) : Result string :=
  Throw "RangeError: Invalid time value".
Definition acceptRequest (r : GoogleEvents.WriteRequest)
  : Result GoogleEvents.WriteResponse :=
  Ok {| GoogleEvents.write_error := None; GoogleEvents.write_id := "g1" |}.

(** An all-day event with a colour, and the calendar it is written to. *)
Definition offsite : OFCEvent :=
  [("title", VStr "Offsite"); ("type", VStr "single");
   ("allDay", VBool true); ("date", VStr "2024-03-04");
   ("endDate", VNull); ("completed", VBool false);
   ("color", VStr "#059669")].

Definition teamCalendar : GoogleCalendar.t :=
  {| GoogleCalendar.color := "#1F3A8A";
     GoogleCalendar.calendarName := "Team";
     GoogleCalendar.calendarId := "team@example.com";
     GoogleCalendar.events := [] |}.

(** The three token fields of a data file. *)
Definition tokensInFile (data : JSValue) : JSValue * JSValue * JSValue :=
  match data with
  | VObj props =>
      (getProp "googleRefreshToken" props,
       getProp "googleAccessToken" props,
       getProp "googleTokenExpiry" props)
  | _ => (VUndefined, VUndefined, VUndefined)
  end.

Definition noTokensInFile (data : JSValue) : Prop :=
  tokensInFile data = (VStr "", VStr "", VNum 0).

(** The three token fields of the settings. *)
Definition tokensInSettings (s : Main.FullCalendarSettings)
  : string * string * Z :=
  (Main.googleRefreshToken s, Main.googleAccessToken s,
   Main.googleTokenExpiry s).

(** For the examples: a secret storage that keeps what it is given and one
    that refuses to store; tokens, their text, and a parser that knows that
    text. *)
Definition SecretList : Type := list (string * string).

Definition keepSecret (k v : string) (s : SecretList) : Result SecretList :=
  Ok ((k, v) :: s).

Definition refuseSecret (k v : string) (s : SecretList) : Result SecretList :=
  Throw "Error: storage unavailable".

Definition readSecret (k : string) (s : SecretList)
  : Result (option string) :=
  Ok (option_map snd (List.find (fun kv => String.eqb kv.1 k) s)).

Definition freshTokens : GoogleAuth.GoogleTokens :=
  {| GoogleAuth.accessToken := "ya29.fresh";
     GoogleAuth.refreshToken := "1//refresh";
     GoogleAuth.expiresAt := 1700003540000 |}.

Definition staleTokens : GoogleAuth.GoogleTokens :=
  {| GoogleAuth.accessToken := "ya29.stale";
     GoogleAuth.refreshToken := "1//refresh";
     GoogleAuth.expiresAt := 1700000000000 |}.

Definition tokensText (t : GoogleAuth.GoogleTokens) : string :=
  GoogleAuth.refreshToken t +:+ " " +:+ GoogleAuth.accessToken t.

Definition readTokensText (raw : string)
  : Result (option GoogleAuth.GoogleTokens) :=
  if String.eqb raw (tokensText freshTokens) then Ok (Some freshTokens)
  else if String.eqb raw (tokensText staleTokens) then Ok (Some staleTokens)
  else Throw "SyntaxError: Unexpected token".

Definition tokenEndpoint (body : list (string * string))
  : Result GoogleAuth.TokenResponse :=
  Ok {| GoogleAuth.error := None; GoogleAuth.error_description := None;
        GoogleAuth.access_token := "ya29.fresh";
        GoogleAuth.refresh_token := None;
        GoogleAuth.expires_in := 3600 |}.

Definition pluginWithTokens : Main.Plugin :=
  {| Main.settings := settingsWithTokens; Main.dataFile := VNull |}.

Definition hostWithTokens : TokenStorage.Host SecretList :=
  {| TokenStorage.plugin := pluginWithTokens; TokenStorage.secrets := [] |}.

Definition staleService : GoogleAuth.GoogleAuthService :=
  {| GoogleAuth.config := {| GoogleAuth.clientId := "client";
                             GoogleAuth.clientSecret := "secret" |};
     GoogleAuth.tokens := Some staleTokens |}.

(* ********************************************************************* *)
(** * Properties                                                           *)
(* ********************************************************************* *)

(* ===================================================================== *)
(** ** Vault paths                                                         *)
(* ===================================================================== *)

Lemma backslashesToSlashes_id s :
  noBackslash s = true -> backslashesToSlashes s = s.
Proof.
  induction s as [|c s IH]; simpl; [reflexivity|].
  intros [Hc Hs]%andb_prop.
  apply negb_true_iff in Hc. rewrite Hc, IH by exact Hs. reflexivity.
Qed.

Lemma collapseSlashes_id s :
  noDoubleSlash s = true -> collapseSlashes s = s.
Proof.
  induction s as [|c s IH]; [reflexivity|].
  destruct s as [|d s'].
  - intros _. simpl. destruct (Ascii.eqb c slash); reflexivity.
  - intros H.
    change (noDoubleSlash (String c (String d s')))
      with (negb (Ascii.eqb c slash && Ascii.eqb d slash)
            && noDoubleSlash (String d s')) in H.
    apply andb_prop in H as [Hcd Hs].
    specialize (IH Hs).
    change (collapseSlashes (String c (String d s')))
      with (if Ascii.eqb c slash
            then if Ascii.eqb d slash then collapseSlashes (String d s')
                 else String c (collapseSlashes (String d s'))
            else String c (collapseSlashes (String d s'))).
    rewrite IH.
    destruct (Ascii.eqb c slash), (Ascii.eqb d slash);
      simpl in Hcd; try discriminate; reflexivity.
Qed.

Lemma stripLeadingSlash_id s :
  noLeadingSlash s = true -> stripLeadingSlash s = s.
Proof.
  destruct s as [|c s]; simpl; [reflexivity|].
  intros Hc%negb_true_iff. rewrite Hc. reflexivity.
Qed.

Lemma normalizeVaultPath_id s :
  noBackslash s = true -> noDoubleSlash s = true -> noLeadingSlash s = true ->
  normalizeVaultPath s = s.
Proof.
  intros Hb Hd Hl. unfold normalizeVaultPath.
  rewrite backslashesToSlashes_id, collapseSlashes_id, stripLeadingSlash_id;
    auto.
Qed.

Lemma noBackslash_app a b :
  noBackslash (a +:+ b) = noBackslash a && noBackslash b.
Proof.
  induction a as [|c a IH]; simpl; [reflexivity|].
  rewrite IH, andb_assoc. reflexivity.
Qed.

Lemma noSlash_noDoubleSlash s : noSlash s = true -> noDoubleSlash s = true.
Proof.
  induction s as [|c s IH]; [reflexivity|].
  simpl. intros [Hc Hs]%andb_prop.
  destruct s as [|d s']; [reflexivity|].
  apply negb_true_iff in Hc. rewrite Hc. simpl. apply IH, Hs.
Qed.

Lemma noSlash_noLeadingSlash s : noSlash s = true -> noLeadingSlash s = true.
Proof.
  destruct s as [|c s]; simpl; [reflexivity|].
  intros [Hc _]%andb_prop. exact Hc.
Qed.

Lemma noDoubleSlash_cons_slash s :
  noSlash s = true -> noDoubleSlash (String slash s) = true.
Proof.
  intros Hs. destruct s as [|e s']; [reflexivity|].
  change (negb (Ascii.eqb slash slash && Ascii.eqb e slash)
          && noDoubleSlash (String e s') = true).
  pose proof (noSlash_noDoubleSlash _ Hs) as Hd.
  simpl in Hs. apply andb_prop in Hs as [He _].
  apply negb_true_iff in He. rewrite He, andb_false_r, Hd. reflexivity.
Qed.

(** Appending ["/" ++ name] to a folder path keeps single slashes single. *)
Lemma noDoubleSlash_join dir filename :
  dir <> "" ->
  noDoubleSlash dir = true -> noTrailingSlash dir = true ->
  noSlash filename = true ->
  noDoubleSlash (dir +:+ "/" +:+ filename) = true.
Proof.
  intros Hne Hd Ht Hf.
  induction dir as [|c dir IH]; [congruence|].
  destruct dir as [|d dir'].
  - simpl in Ht. apply negb_true_iff in Ht.
    change (noDoubleSlash (String c (String slash filename)) = true).
    change (negb (Ascii.eqb c slash && Ascii.eqb slash slash)
            && noDoubleSlash (String slash filename) = true).
    rewrite Ht. simpl.
    apply noDoubleSlash_cons_slash, Hf.
  - change (noDoubleSlash (String c (String d dir')))
      with (negb (Ascii.eqb c slash && Ascii.eqb d slash)
            && noDoubleSlash (String d dir')) in Hd.
    apply andb_prop in Hd as [Hcd Hd].
    change (negb (Ascii.eqb c slash && Ascii.eqb d slash)
            && noDoubleSlash (String d dir' +:+ "/" +:+ filename) = true).
    rewrite Hcd. simpl. apply IH; [discriminate|exact Hd|exact Ht].
Qed.

Lemma noLeadingSlash_app a b :
  a <> "" -> noLeadingSlash (a +:+ b) = noLeadingSlash a.
Proof. destruct a; [congruence|reflexivity]. Qed.

(** Joining a folder path of the vault with a file name proper is plain
    concatenation. *)
Lemma joinVaultPath_inFolder folder filename :
  isFolderPath folder = true -> noSeparator filename = true ->
  joinVaultPath folder filename = inFolder folder filename.
Proof.
  unfold isFolderPath, inFolder, noSeparator.
  intros Hp [Hfb Hfs]%andb_prop.
  destruct (String.eqb folder "/") eqn:Hroot.
  - apply String.eqb_eq in Hroot. subst folder. reflexivity.
  - simpl in Hp.
    repeat (apply andb_prop in Hp as [Hp ?]).
    apply negb_true_iff, String.eqb_neq in Hp.
    unfold joinVaultPath.
    rewrite (normalizeVaultPath_id folder) by assumption.
    destruct (String.eqb folder "") eqn:He;
      [apply String.eqb_eq in He; congruence|].
    apply normalizeVaultPath_id.
    + rewrite !noBackslash_app. simpl. rewrite Hfb.
      rewrite andb_true_r. assumption.
    + apply noDoubleSlash_join; assumption.
    + rewrite noLeadingSlash_app by assumption. assumption.
Qed.

(* ===================================================================== *)
(** * File names and new locations                                         *)
(* ===================================================================== *)

Lemma append_assoc (a b c : string) : (a +:+ b) +:+ c = a +:+ (b +:+ c).
Proof.
  induction a as [|x a IH]; [reflexivity|].
  change (String x ((a +:+ b) +:+ c) = String x (a +:+ (b +:+ c))).
  rewrite IH. reflexivity.
Qed.

Lemma arrayJoin_strings sep days :
  arrayJoin sep (map VStr days) = join sep days.
Proof.
  unfold arrayJoin. f_equal.
  induction days as [|d days IH]; simpl; [reflexivity|]. f_equal. exact IH.
Qed.

(** The code derives the file name the specification gives. *)
Lemma filenameForEvent_derived `{Libraries} event filename :
  DerivedFilename event filename -> filenameForEvent event = Ok filename.
Proof.
  intros [date title Hty Hdate Htitle | days title Hty Hdays Htitle];
    unfold filenameForEvent, basenameFromEvent.
  - rewrite Hdate, Htitle.
    destruct Hty as [-> | ->]; simpl; rewrite !append_assoc; reflexivity.
  - rewrite Hty, Hdays, Htitle. simpl.
    rewrite arrayJoin_strings, !append_assoc. reflexivity.
Qed.

(** Deriving the file name can fail only in the rrule library: for any
    other event (a recurring one carrying its array of days) it succeeds. *)
Lemma filenameForEvent_unless_rrule `{Libraries} event :
  getProp "type" event <> VStr "rrule" ->
  (getProp "type" event = VStr "recurring" ->
   exists days, getProp "daysOfWeek" event = VArr days) ->
  exists filename, filenameForEvent event = Ok filename.
Proof.
  intros Hrrule Hdays. unfold filenameForEvent, basenameFromEvent.
  destruct (getProp "type" event) as [ | | | |ty| | ];
    try (eexists; reflexivity).
  destruct (String.eqb_spec ty "single"); [eexists; reflexivity|].
  destruct (String.eqb_spec ty "recurring") as [->|].
  - destruct (Hdays eq_refl) as [days ->]. eexists. reflexivity.
  - destruct (String.eqb_spec ty "rrule") as [->|]; [congruence|].
    eexists. reflexivity.
Qed.

Section NewLocation.
Context `{Libraries} {V : Type} `{ObsidianInterface V}.

Lemma getNewLocation_found v location event f filename :
  loc_lineNumber location = None ->
  getFileByPath v (normalizeVaultPath (loc_path location)) = Some f ->
  filenameForEvent event = Ok filename ->
  getNewLocation v location event
  = Ok {| file := joinVaultPath (parent_path f) filename;
          lineNumber := None |}.
Proof.
  intros Hline Hfile Hname. unfold getNewLocation.
  rewrite Hline, Hfile, Hname. reflexivity.
Qed.

End NewLocation.



(* ===================================================================== *)
(** ** The in-memory vault satisfies the laws                              *)
(* ===================================================================== *)

Lemma find_path_after_rename (entries : list MemFile) id p e0 :
  List.find (fun e => Nat.eqb (mfid e) id) entries = Some e0 ->
  List.find (fun e => String.eqb (mpath e) p) entries = None ->
  exists e',
    List.find (fun e => String.eqb (mpath e) p)
      (map (fun e => if Nat.eqb (mfid e) id
                     then {| mfid := mfid e; mpath := p;
                             mcontent := mcontent e; mmeta := mmeta e |}
                     else e) entries) = Some e'
    /\ mfid e' = id.
Proof.
  induction entries as [|e entries IH]; simpl; [discriminate|].
  destruct (Nat.eqb (mfid e) id) eqn:Hid.
  - intros _ _. simpl. rewrite String.eqb_refl.
    eexists; split; [reflexivity|]. simpl. apply Nat.eqb_eq, Hid.
  - destruct (String.eqb (mpath e) p) eqn:Hp; [discriminate|].
    intros Hfound Hfree. apply IH; assumption.
Qed.

Lemma find_path_map (upd : MemFile -> MemFile) (entries : list MemFile) p :
  (forall e, mpath (upd e) = mpath e) ->
  List.find (fun e => String.eqb (mpath e) p) (map upd entries)
  = option_map upd (List.find (fun e => String.eqb (mpath e) p) entries).
Proof.
  intros Hupd. induction entries as [|e entries IH]; simpl; [reflexivity|].
  rewrite Hupd. destruct (String.eqb (mpath e) p); [reflexivity|exact IH].
Qed.

Lemma MemVault_laws : ObsidianLaws MemVault.
Proof.
  split.
  - intros v p f. simpl. unfold entryAt.
    destruct (List.find _ (entries v)) as [e|] eqn:Hfind; [|discriminate].
    intros [= <-]. apply find_some in Hfind as [_ Hp].
    apply String.eqb_eq in Hp. exact Hp.
  - intros v v' f p. simpl. unfold memRename, entryOf, entryAt.
    destruct (List.find _ (entries v)) as [e0|] eqn:Hid; [|discriminate].
    destruct (List.find (fun e => String.eqb (mpath e) p) (entries v))
      eqn:Hfree; [discriminate|].
    destruct (isDir p v); [discriminate|].
    intros [= <-]. simpl.
    destruct (find_path_after_rename _ _ _ _ Hid Hfree) as (e' & -> & He').
    exists (handle e'). split; [reflexivity|exact He'].
  - intros v v' f t p. simpl. unfold memRewrite, entryOf, entryAt.
    destruct (List.find _ (entries v)) as [e0|]; [|discriminate].
    destruct (t (mcontent e0)) as [page|]; [|discriminate].
    simpl. intros [= <-]. simpl.
    rewrite find_path_map.
    + destruct (List.find _ (entries v)) as [e|]; [|reflexivity].
      simpl. destruct (Nat.eqb (mfid e) (fid f)); reflexivity.
    + intros e. destruct (Nat.eqb (mfid e) (fid f)); reflexivity.
Qed.

(* ===================================================================== *)
(** ** FullNoteCalendar: what its methods do to the vault and the cache    *)
(* ===================================================================== *)

Section CalendarProperties.
Context `{Libraries} `{EventSchema} {V : Type} `{ObsidianInterface V}.


(** C3: [modifyEvent], [move] and [deleteEvent] reject when no file exists
    at the location's path; [move] and [deleteEvent] also when the
    location carries a line number; [move] also when the destination is
    not a [FullNoteCalendar].  In each of these cases the world is left as
    it was: no call is made on the vault and the callback is not invoked. *)
Theorem rejections_leave_world_untouched (w : World V) location event :
  (getFileByPath (vault w) (normalizeVaultPath (loc_path location)) = None ->
   exists msg, modifyEvent location event w = (Throw msg, w))
  /\ (forall toCalendar,
        loc_lineNumber location <> None
        \/ (forall dest, toCalendar <> NoteCalendar dest)
        \/ getFileByPath (vault w) (normalizeVaultPath (loc_path location))
           = None ->
        exists msg, move location toCalendar w = (Throw msg, w))
  /\ (loc_lineNumber location <> None
      \/ getFileByPath (vault w) (normalizeVaultPath (loc_path location))
         = None ->
      exists msg, deleteEvent location w = (Throw msg, w)).
Proof.
  repeat split.
  - intros Hnone. unfold modifyEvent, bind, ask, throw.
    rewrite Hnone. eexists. reflexivity.
  - intros toCalendar Hcase. unfold move, bind, ask, throw.
    destruct (loc_lineNumber location) as [n|]; [eexists; reflexivity|].
    destruct toCalendar as [dest|c h]; [|eexists; reflexivity].
    destruct Hcase as [Hline | [Hdest | Hnone]].
    + congruence.
    + exfalso. apply (Hdest dest). reflexivity.
    + rewrite Hnone. eexists. reflexivity.
  - intros Hcase. unfold deleteEvent, bind, ask, throw.
    destruct (loc_lineNumber location) as [n|]; [eexists; reflexivity|].
    destruct Hcase as [Hline | Hnone]; [congruence|].
    rewrite Hnone. eexists. reflexivity.
Qed.


Lemma getEventsLoop_direct v files events :
  getEventsLoop v files events
  = events ++ flat_map (getEventsInFile v) (directFiles files).
Proof.
  revert events. induction files as [|[f|d] files IH]; intros events; simpl.
  - rewrite app_nil_r. reflexivity.
  - rewrite IH, <- app_assoc. reflexivity.
  - apply IH.
Qed.

Lemma getEventsInFile_file v f event loc :
  In (event, loc) (getEventsInFile v f) -> file loc = f.
Proof.
  unfold getEventsInFile.
  destruct (validateEvent _) as [e|]; [|intros []].
  intros [[= _ <-]|[]]. reflexivity.
Qed.

Lemma directFiles_children files f :
  In f (directFiles files) <-> In (AFile f) files.
Proof.
  induction files as [|[g|d] files IH]; simpl.
  - tauto.
  - rewrite IH. split; intros [Heq|Hin]; auto; left; congruence.
  - rewrite IH. split; [auto|]. intros [Heq|Hin]; [discriminate|auto].
Qed.

(** C10: when the configured directory resolves to a folder, [getEvents]
    returns exactly the events parsed from the files that are direct
    children of that folder, in order, so that the file of every returned
    location is itself a child of the folder; when the directory does not
    resolve to a folder, [getEvents] rejects. *)
Theorem getEvents_direct_children (self : FullNoteCalendar) (v : V) :
  (forall d,
      resolveDirectory self v = Some (AFolder d) ->
      getEvents self v
      = Ok (flat_map (getEventsInFile v) (directFiles (children d)))
      /\ forall event loc events,
          getEvents self v = Ok events ->
          In (event, loc) events ->
          In (AFile (file loc)) (children d))
  /\ ((forall d, resolveDirectory self v <> Some (AFolder d)) ->
      exists msg, getEvents self v = Throw msg).
Proof.
  unfold resolveDirectory, getEvents. split.
  - intros d Hd.
    assert (Hget :
      match
        (if negb (String.eqb (normalizeVaultPath (directory self)) "")
         then getAbstractFileByPath v (normalizeVaultPath (directory self))
         else Some (AFolder (getRoot v)))
      with
      | None => Throw ("Cannot get folder " +:+ directory self)
      | Some (AFile _) => Throw "[object Object] is not a directory."
      | Some (AFolder d0) => Ok (getEventsLoop v (children d0) [])
      end = Ok (flat_map (getEventsInFile v) (directFiles (children d)))).
    { destruct (String.eqb (normalizeVaultPath (directory self)) "");
        cbn; [injection Hd as <- | rewrite Hd];
        rewrite getEventsLoop_direct; reflexivity. }
    split; [exact Hget|].
    intros event loc events Hev Hin. rewrite Hget in Hev.
    injection Hev as <-.
    apply in_flat_map in Hin as (f & Hf & Hin).
    apply getEventsInFile_file in Hin. subst f.
    apply directFiles_children, Hf.
  - intros Hnone.
    destruct (String.eqb (normalizeVaultPath (directory self)) ""); cbn.
    + exfalso. apply (Hnone (getRoot v)). reflexivity.
    + destruct (getAbstractFileByPath v _) as [[f|d]|].
      * eexists. reflexivity.
      * exfalso. apply (Hnone d). reflexivity.
      * eexists. reflexivity.
Qed.
End CalendarProperties.

(* ===================================================================== *)
(** ** FullNoteCalendar on the example vault                               *)
(* ===================================================================== *)


(** Renaming the note and rewriting it, in that order, after the cache has
    been told. *)
Example modifyEvent_standup_trace :
  trace (@modifyEvent testLibraries MemVault MemVaultIO
           standupLocation planning exampleWorld).2
  = [CallUpdateCache planningLocation;
     CallRename (handle standupNote) "Events/2024-01-11 Planning.md";
     CallRewrite (handle standupNote)].
Proof. reflexivity. Qed.

(** When the vault rejects the rename (here the target path is taken by
    another note) the callback has been invoked already, and nothing has been
    renamed or rewritten. *)
Example modifyEvent_rename_rejected :
  @modifyEvent testLibraries MemVault MemVaultIO
    standupLocation retro exampleWorld
  = (Throw "Destination file already exists!",
     {| vault := exampleVault;
        trace := [CallUpdateCache {| file := "Events/2024-01-12 Retro.md";
                                     lineNumber := None |};
                  CallRename (handle standupNote)
                             "Events/2024-01-12 Retro.md"] |}).
Proof. reflexivity. Qed.

Lemma rejections_leave_world_untouched_witness :
  (exists msg,
      @modifyEvent testLibraries MemVault MemVaultIO
        missingLocation planning exampleWorld = (Throw msg, exampleWorld))
  /\ (exists msg,
         @move MemVault MemVaultIO inlineLocation
           (NoteCalendar eventsCalendar) exampleWorld
         = (Throw msg, exampleWorld))
  /\ (exists msg,
         @move MemVault MemVaultIO standupLocation dailyNotes exampleWorld
         = (Throw msg, exampleWorld))
  /\ (exists msg,
         @deleteEvent MemVault MemVaultIO missingLocation exampleWorld
         = (Throw msg, exampleWorld)).
Proof.
  repeat split.
  - apply (proj1 (@rejections_leave_world_untouched
                    testLibraries MemVault MemVaultIO
                    exampleWorld missingLocation planning)).
    reflexivity.
  - apply (proj1 (proj2 (@rejections_leave_world_untouched
                           testLibraries MemVault MemVaultIO
                           exampleWorld inlineLocation planning))).
    left. discriminate.
  - apply (proj1 (proj2 (@rejections_leave_world_untouched
                           testLibraries MemVault MemVaultIO
                           exampleWorld standupLocation planning))).
    right. left. discriminate.
  - apply (proj2 (proj2 (@rejections_leave_world_untouched
                           testLibraries MemVault MemVaultIO
                           exampleWorld missingLocation planning))).
    right. reflexivity.
Defined.


Lemma getEvents_direct_children_witness :
  @getEvents testSchema MemVault MemVaultIO eventsCalendar exampleVault
  = Ok [ ([("title", VStr "Standup"); ("date", VStr "2024-01-10")],
          {| file := handle standupNote; lineNumber := None |});
         ([("date", VStr "2024-01-12"); ("title", VStr "2024-01-12 Retro")],
          {| file := handle retroNote; lineNumber := None |}) ]
  /\ exists msg,
      @getEvents testSchema MemVault MemVaultIO
        {| color := "#1F3A8A"; directory := "Events/2024-01-10 Standup.md" |}
        exampleVault = Throw msg.
Proof.
  split.
  - exact (proj1 (proj1 (@getEvents_direct_children
                           testSchema MemVault MemVaultIO
                           eventsCalendar exampleVault)
                        (folderNode 3 exampleVault "Events") eq_refl)).
  - apply (proj2 (@getEvents_direct_children
                    testSchema MemVault MemVaultIO
                    {| color := "#1F3A8A";
                       directory := "Events/2024-01-10 Standup.md" |}
                    exampleVault)).
    intros d. discriminate.
Defined.

(** The recursive traversal would also return the note in [Events/Archive];
    [getEvents] does not. *)
Example getEvents_skips_nested_note :
  In (handle nestedNote)
     (map (fun r => file r.2)
          (@getEventsInFolderRecursive testSchema MemVault MemVaultIO
             exampleVault (folderNode 3 exampleVault "Events")))
  /\ forall events,
      @getEvents testSchema MemVault MemVaultIO eventsCalendar exampleVault
      = Ok events ->
      ~ In (handle nestedNote) (map (fun r => file r.2) events).
Proof.
  split.
  - cbn. right. right. left. reflexivity.
  - intros events [= <-]. cbn. intros [Heq|[Heq|[]]]; discriminate.
Qed.

(* ===================================================================== *)
(** ** GoogleCalendar.revalidate                                           *)
(* ===================================================================== *)

Section Revalidate.
Import GoogleCalendar.
Variables (self : t) (net : Remote).

(** The loop, given enough fuel, ends the way the relation says. *)
Lemma fetchPages_of_Fetch token n pt pages r :
  Fetch self net token n pt pages r ->
  forall acc fuel,
    (List.length pages < fuel)%nat ->
    fetchPages fuel self net token n pt acc
    = Some (match r with
            | Ok _ => Ok (acc ++ flat_map keptItems pages)
            | Throw e => Throw e
            end).
Proof.
  induction 1 as [n pt e Hreq | n pt data message Hreq Herr
                 | n pt data Hreq Herr Hlast
                 | n pt data pages r Hreq Herr Hmore Hrest IH];
    intros acc [|fuel] Hfuel; try (simpl in Hfuel; lia); simpl.
  - rewrite Hreq. reflexivity.
  - rewrite Hreq, Herr. reflexivity.
  - rewrite Hreq, Herr, Hlast, app_nil_r. reflexivity.
  - rewrite Hreq, Herr, Hmore, IH by (simpl in Hfuel; lia).
    destruct r; [rewrite <- app_assoc|]; reflexivity.
Qed.

(** Whatever the loop returns is an ending the relation allows. *)
Lemma Fetch_of_fetchPages fuel token :
  forall n pt acc r,
    fetchPages fuel self net token n pt acc = Some r ->
    exists pages,
      (List.length pages <= fuel)%nat
      /\ Fetch self net token n pt pages (rbind r (fun _ => Ok tt))
      /\ forall all, r = Ok all -> all = acc ++ flat_map keptItems pages.
Proof.
  induction fuel as [|fuel IH]; intros n pt acc r; simpl; [discriminate|].
  destruct (requestUrl net n (pageRequest self net token pt))
    as [data|e] eqn:Hreq.
  - destruct (error data) as [message|] eqn:Herr.
    + intros [= <-]. exists []. repeat split; [simpl; lia| |discriminate].
      eapply Fetch_error; eassumption.
    + destruct (present (nextPageToken data)) eqn:Hmore.
      * intros Hrest. apply IH in Hrest as (pages & Hlen & Hfetch & Hall).
        exists (data :: pages). repeat split; [simpl; lia| |].
        -- eapply Fetch_more; eassumption.
        -- intros all Hr. rewrite (Hall all Hr), <- app_assoc. reflexivity.
      * intros [= <-]. exists [data]. repeat split; [simpl; lia| |].
        -- eapply Fetch_last; eassumption.
        -- intros all [= <-]. simpl. rewrite app_nil_r. reflexivity.
  - intros [= <-]. exists []. repeat split; [simpl; lia| |discriminate].
    eapply Fetch_throws; eassumption.
Qed.

Lemma keptItems_not_cancelled pages :
  Forall (fun e => status e <> Some "cancelled") (flat_map keptItems pages).
Proof.
  apply List.Forall_forall. intros e Hin.
  apply in_flat_map in Hin as (data & _ & Hin).
  unfold keptItems in Hin. destruct (items data) as [its|]; [|destruct Hin].
  apply filter_In in Hin as [_ Hkeep]. unfold notCancelled in Hkeep.
  intros Hst. rewrite Hst in Hkeep. discriminate.
Qed.

(** C1: a call of [revalidate] that does not succeed (the token cannot be
    had, a request throws, a page carries an error, or the paging never
    ends) leaves the calendar, and with it the cached snapshot, exactly
    as it was; a call whose every page is served without error replaces
    the snapshot by the events of those pages that are not cancelled.
    Each outcome is reached once the number of pages is within the
    bound. *)
Theorem revalidate_keeps_or_replaces_snapshot :
  (forall fuel,
      (revalidate fuel net self).1 <> Some (Ok tt) ->
      (revalidate fuel net self).2 = self)
  /\ (forall e fuel,
         getValidAccessToken net = Throw e ->
         revalidate fuel net self = (Some (Throw e), self))
  /\ (forall token pages e fuel,
         getValidAccessToken net = Ok token ->
         Fetch self net token O None pages (Throw e) ->
         (List.length pages < fuel)%nat ->
         revalidate fuel net self = (Some (Throw e), self))
  /\ (forall token pages fuel,
         getValidAccessToken net = Ok token ->
         Fetch self net token O None pages (Ok tt) ->
         (List.length pages < fuel)%nat ->
         revalidate fuel net self
         = (Some (Ok tt), setEvents self (flat_map keptItems pages)))
  /\ (forall fuel,
         (revalidate fuel net self).1 = Some (Ok tt) ->
         Forall (fun e => status e <> Some "cancelled")
                (events (revalidate fuel net self).2)
         /\ exists token pages,
             getValidAccessToken net = Ok token
             /\ Fetch self net token O None pages (Ok tt)
             /\ events (revalidate fuel net self).2
                = flat_map keptItems pages).
Proof.
  split; [|split; [|split; [|split]]].
  - intros fuel. unfold revalidate.
    destruct (getValidAccessToken net) as [token|e]; [|reflexivity].
    destruct (fetchPages fuel self net token O None [])
      as [[all|e]|]; simpl; congruence.
  - intros e fuel Htoken. unfold revalidate. rewrite Htoken. reflexivity.
  - intros token pages e fuel Htoken Hfetch Hfuel. unfold revalidate.
    rewrite Htoken, (fetchPages_of_Fetch _ _ _ _ _ Hfetch) by exact Hfuel.
    reflexivity.
  - intros token pages fuel Htoken Hfetch Hfuel. unfold revalidate.
    rewrite Htoken, (fetchPages_of_Fetch _ _ _ _ _ Hfetch) by exact Hfuel.
    reflexivity.
  - intros fuel. unfold revalidate.
    destruct (getValidAccessToken net) as [token|e]; [|discriminate].
    destruct (fetchPages fuel self net token O None [])
      as [[all|e]|] eqn:Hloop; try discriminate.
    intros _. simpl.
    apply Fetch_of_fetchPages in Hloop as (pages & _ & Hfetch & Hall).
    rewrite (Hall all eq_refl). split.
    + apply keptItems_not_cancelled.
    + exists token, pages. repeat split. exact Hfetch.
Qed.
End Revalidate.

Lemma twoPages_served :
  GoogleCalendar.Fetch GoogleExamples.calendar GoogleExamples.twoPages "token"
    O None [GoogleExamples.page1; GoogleExamples.page2] (Ok tt).
Proof.
  eapply GoogleCalendar.Fetch_more; try reflexivity.
  eapply GoogleCalendar.Fetch_last; reflexivity.
Qed.

Lemma errorOnSecondPage_served :
  GoogleCalendar.Fetch GoogleExamples.calendar
    GoogleExamples.errorOnSecondPage "token"
    O None [GoogleExamples.page1]
    (Throw "Google Calendar API error: Quota exceeded").
Proof.
  eapply GoogleCalendar.Fetch_more; try reflexivity.
  eapply GoogleCalendar.Fetch_error; reflexivity.
Qed.

Lemma revalidate_keeps_or_replaces_snapshot_witness :
  GoogleCalendar.revalidate 5 GoogleExamples.notAuthenticated
    GoogleExamples.calendar
  = (Some (Throw "Not authenticated. Please authorize Google Calendar first."),
     GoogleExamples.calendar)
  /\ GoogleCalendar.revalidate 5 GoogleExamples.errorOnSecondPage
       GoogleExamples.calendar
     = (Some (Throw "Google Calendar API error: Quota exceeded"),
        GoogleExamples.calendar)
  /\ GoogleCalendar.revalidate 5 GoogleExamples.twoPages
       GoogleExamples.calendar
     = (Some (Ok tt),
        GoogleCalendar.setEvents GoogleExamples.calendar
          [GoogleExamples.gEvent "a" (Some "confirmed");
           GoogleExamples.gEvent "c" None]).
Proof.
  split; [|split].
  - apply (proj1 (proj2 (revalidate_keeps_or_replaces_snapshot
                           GoogleExamples.calendar
                           GoogleExamples.notAuthenticated))).
    reflexivity.
  - apply (proj1 (proj2 (proj2 (revalidate_keeps_or_replaces_snapshot
                                  GoogleExamples.calendar
                                  GoogleExamples.errorOnSecondPage)))
             "token" [GoogleExamples.page1]).
    + reflexivity.
    + exact errorOnSecondPage_served.
    + simpl. lia.
  - apply (proj1 (proj2 (proj2 (proj2 (revalidate_keeps_or_replaces_snapshot
                                         GoogleExamples.calendar
                                         GoogleExamples.twoPages))))
             "token" [GoogleExamples.page1; GoogleExamples.page2]).
    + reflexivity.
    + exact twoPages_served.
    + simpl. lia.
Defined.

(* ===================================================================== *)
(** ** Descriptor validation                                               *)
(* ===================================================================== *)

Section Descriptors.
Import CalendarSettings.
Context `{UrlSyntax}.

Lemma Forall_fields (P : string * JSValue -> Prop) kv rest :
  Forall P (kv :: rest) -> P kv /\ Forall P rest.
Proof. intros HF. inversion HF; subst. split; assumption. Qed.

Lemma parse_conforming obj d c :
  Conforms obj d c ->
  safeParseCalendarInfo obj = Some (variantFields d ++ [("color", VStr c)]).
Proof.
  intros (props & -> & Hfields & Hurls & Hcolor).
  unfold safeParseCalendarInfo, parseCalendarInfo, parseDiscriminatedUnion,
    parseObject.
  destruct d; simpl in Hfields, Hurls;
    repeat (apply Forall_fields in Hfields as [? Hfields]);
    repeat match goal with
           | Hu : Forall _ (_ :: _) |- _ =>
               apply List.Forall_cons_iff in Hu as [? Hu]
           end;
    cbn [fst snd] in *;
    repeat first
      [ match goal with
        | Hg : getProp _ props = _ |- _ => rewrite Hg
        | Hv : validUrl _ = true |- _ => rewrite Hv
        end
      | progress cbn ];
    reflexivity.
Qed.

Ltac parse_step props :=
  repeat first
    [ match goal with
      | Hg : getProp _ props = _ |- _ => rewrite Hg
      | Hv : validUrl _ = _ |- _ => rewrite Hv
      end
    | progress cbn ].

Ltac string_field props k :=
  let v := fresh "v" in
  destruct (getProp k props) as [ | | | |v| | ] eqn:?;
  [parse_step props; discriminate ..
  |
  |parse_step props; discriminate
  |parse_step props; discriminate].

Ltac url_field props k :=
  string_field props k;
  match goal with
  | Hg : getProp k props = VStr ?u |- _ =>
      destruct (validUrl u) eqn:?; [|parse_step props; discriminate]
  end.

Ltac conforms_with d c props :=
  parse_step props; intros [= <-]; exists d, c; split;
  [ exists props; repeat split;
    [ repeat constructor; assumption
    | repeat constructor; assumption
    | assumption ]
  | reflexivity ].

Lemma conforming_of_parse obj info :
  safeParseCalendarInfo obj = Some info ->
  exists d c,
    Conforms obj d c /\ info = variantFields d ++ [("color", VStr c)].
Proof.
  unfold safeParseCalendarInfo, parseCalendarInfo, parseDiscriminatedUnion,
    parseObject.
  destruct obj as [ | | | | | |props]; try (cbn; discriminate).
  destruct (getProp "type" props) as [ | | | |ty| | ] eqn:Hty;
    try (cbn; discriminate).
  destruct (String.eqb_spec "local" ty) as [<-|Hlocal].
  { string_field props "directory". string_field props "color".
    conforms_with (Local v) v0 props. }
  destruct (String.eqb_spec "dailynote" ty) as [<-|Hdaily].
  { string_field props "heading". string_field props "color".
    conforms_with (DailyNote v) v0 props. }
  destruct (String.eqb_spec "ical" ty) as [<-|Hical].
  { url_field props "url". string_field props "color".
    conforms_with (ICal v) v0 props. }
  destruct (String.eqb_spec "caldav" ty) as [<-|Hcaldav].
  { string_field props "name". url_field props "url".
    url_field props "homeUrl". string_field props "username".
    string_field props "password". string_field props "color".
    conforms_with (CalDAV v v0 v1 v2 v3) v4 props. }
  destruct (String.eqb_spec "gcal" ty) as [<-|Hgcal].
  { string_field props "calendarId". string_field props "name".
    string_field props "color".
    conforms_with (GCal v v0) v1 props. }
  cbn -[String.eqb].
  change (String.eqb "type" "type") with true. cbn -[String.eqb].
  apply String.eqb_neq in Hlocal, Hdaily, Hical, Hcaldav, Hgcal.
  rewrite Hlocal, Hdaily, Hical, Hcaldav, Hgcal. cbn. discriminate.
Qed.

(** C5: [safeParseCalendarInfo] is total.  It returns the variant's own
    fields together with the colour exactly when the input conforms to one
    of the five descriptor schemas and carries a string colour, and it
    returns [null] for every other input. *)
Theorem safeParseCalendarInfo_total obj :
  (forall info,
      safeParseCalendarInfo obj = Some info <->
      exists d c,
        Conforms obj d c
        /\ info = variantFields d ++ [("color", VStr c)])
  /\ (safeParseCalendarInfo obj = None <->
      ~ exists d c, Conforms obj d c).
Proof.
  split.
  - intros info. split.
    + apply conforming_of_parse.
    + intros (d & c & Hconf & ->). apply parse_conforming, Hconf.
  - split.
    + intros Hnone (d & c & Hconf).
      rewrite (parse_conforming _ _ _ Hconf) in Hnone. discriminate.
    + intros Hnot. destruct (safeParseCalendarInfo obj) as [info|] eqn:Hp;
        [|reflexivity].
      exfalso. apply Hnot.
      destruct (conforming_of_parse _ _ Hp) as (d & c & Hconf & _).
      exists d, c. exact Hconf.
Qed.
End Descriptors.

Example safeParseCalendarInfo_examples :
  @CalendarSettings.safeParseCalendarInfo testUrlSyntax icalDescriptor
  = Some [("type", VStr "ical"); ("url", VStr "https://example.org/team.ics");
          ("color", VStr "#059669")]
  /\ @CalendarSettings.safeParseCalendarInfo testUrlSyntax
       descriptorWithoutColor = None
  /\ @CalendarSettings.safeParseCalendarInfo testUrlSyntax
       descriptorOfUnknownType = None
  /\ @CalendarSettings.safeParseCalendarInfo testUrlSyntax (VStr "ical") = None.
Proof. repeat split. Qed.

(* ===================================================================== *)
(** ** The plugin: notifications and saved data                            *)
(* ===================================================================== *)

(** C7: while the plugin is loaded, a metadata change is passed to
    [cache.fileUpdated] with the changed file, the rename of a file to
    [cache.deleteEventsAtPath] with the old path, the deletion of a file to
    [cache.deleteEventsAtPath] with the file's path, each exactly once;
    renames and deletions of folders cause no call on the cache, and once
    the plugin is unloaded nothing does. *)
Theorem notifications_reach_one_entry_point (n : Main.Notification) :
  Main.deliver Main.onload n
  = match n with
    | Main.MetadataChanged file => [Main.FileUpdated file]
    | Main.VaultRename (AFile _) oldPath => [Main.DeleteEventsAtPath oldPath]
    | Main.VaultDelete (AFile file) => [Main.DeleteEventsAtPath (path file)]
    | Main.VaultRename (AFolder _) _ | Main.VaultDelete (AFolder _) => []
    end
  /\ Main.deliver Main.onunload n = [].
Proof.
  split; [|reflexivity].
  destruct n as [file | [file|d] oldPath | [file|d]]; reflexivity.
Qed.

Lemma getProp_saved_tokens self :
  exists props,
    Main.settingsObject (Main.getSettingsForSave self) = VObj props
    /\ getProp "googleRefreshToken" props = VStr ""
    /\ getProp "googleAccessToken" props = VStr ""
    /\ getProp "googleTokenExpiry" props = VNum 0.
Proof. eexists. split; [reflexivity|]. repeat split. Qed.

Lemma getSettingsForSave_sameButTokens a b :
  Main.sameButTokens (Main.settings a) (Main.settings b) ->
  Main.getSettingsForSave a = Main.getSettingsForSave b.
Proof.
  unfold Main.sameButTokens, Main.getSettingsForSave.
  intros (-> & -> & -> & -> & -> & -> & -> & -> & -> & ->). reflexivity.
Qed.

(** C8: for two plugins whose settings differ at most in the three token
    fields, [saveData], called with any object that has a [calendarSources]
    field, writes the same data; what it writes has empty refresh and access
    tokens and a token expiry of [0]. *)
Theorem saveData_never_persists_tokens (a b : Main.Plugin) (data data' : JSValue) :
  Main.sameButTokens (Main.settings a) (Main.settings b) ->
  hasCalendarSources data ->
  hasCalendarSources data' ->
  Main.dataFile (Main.saveData data a) = Main.dataFile (Main.saveData data' b)
  /\ exists props,
      Main.dataFile (Main.saveData data a) = VObj props
      /\ getProp "googleRefreshToken" props = VStr ""
      /\ getProp "googleAccessToken" props = VStr ""
      /\ getProp "googleTokenExpiry" props = VNum 0.
Proof.
  intros Hsame (props & -> & Hsrc) (props' & -> & Hsrc').
  unfold Main.saveData. cbn [Main.dataFile truthy Main.typeofObject
                             Main.inOperator andb].
  rewrite Hsrc, Hsrc'. split.
  - rewrite (getSettingsForSave_sameButTokens _ _ Hsame). reflexivity.
  - apply getProp_saved_tokens.
Qed.

Lemma saveData_never_persists_tokens_witness :
  Main.dataFile
    (Main.saveData (Main.settingsObject settingsWithTokens)
       {| Main.settings := settingsWithTokens; Main.dataFile := VNull |})
  = Main.dataFile
      (Main.saveData (Main.settingsObject settingsWithOtherTokens)
         {| Main.settings := settingsWithOtherTokens;
            Main.dataFile := VNull |}).
Proof.
  refine (proj1 (saveData_never_persists_tokens
                   {| Main.settings := settingsWithTokens;
                      Main.dataFile := VNull |}
                   {| Main.settings := settingsWithOtherTokens;
                      Main.dataFile := VNull |}
                   (Main.settingsObject settingsWithTokens)
                   (Main.settingsObject settingsWithOtherTokens) _ _ _)).
  - repeat split.
  - eexists. split; reflexivity.
  - eexists. split; reflexivity.
Defined.

(** Data without a [calendarSources] field is written as it is given: the
    guarantee is that of the settings object only. *)
Example saveData_other_data :
  Main.dataFile
    (Main.saveData (VObj [("googleRefreshToken", VStr "1//refresh")])
       {| Main.settings := settingsWithTokens; Main.dataFile := VNull |})
  = VObj [("googleRefreshToken", VStr "1//refresh")].
Proof. reflexivity. Qed.

(* ===================================================================== *)
(** ** The create modal: guards, latch, and submissions                    *)
(* ===================================================================== *)

Section Saving.
Import EditEvent.

Lemma getEventData_title s : getProp "title" (getEventData s) = VStr (title s).
Proof.
  unfold getEventData. destruct (allDay s), (isRecurring s); reflexivity.
Qed.

(** In create mode [performSave] does not call [submit] while the title or
    the date is empty. *)
Lemma performSave_needs_title_and_date s m :
  title s = "" \/ truthy (date s) = false ->
  performSave true s None m = m.
Proof.
  intros Hempty. unfold performSave, submitArguments.
  rewrite getEventData_title. cbn [andb truthy].
  destruct Hempty as [-> | ->]; [reflexivity|].
  destruct (negb (negb (String.eqb (title s) ""))); reflexivity.
Qed.

(** In create mode, once the latch is set, [performSave] does not call
    [submit]. *)
Lemma performSave_latched s overrides m :
  hasCreatedRef m = true -> performSave true s overrides m = m.
Proof.
  intros Hlatch. unfold performSave, submitArguments. rewrite Hlatch.
  cbn [andb].
  destruct (negb (truthy _)); [reflexivity|].
  destruct (negb (truthy _)); reflexivity.
Qed.

(** The latch is never reset, and nothing is submitted after it is set. *)
Lemma run_latched turns m :
  hasCreatedRef m = true ->
  hasCreatedRef (run true turns m) = true
  /\ submitCalls (run true turns m) = submitCalls m.
Proof.
  revert m. induction turns as [|t turns IH]; intros m Hlatch; [auto|].
  unfold run in *. simpl.
  assert (Hstep : hasCreatedRef (step true m t) = true
                  /\ submitCalls (step true m t) = submitCalls m).
  { destruct t as [s o| |outcome]; simpl.
    - rewrite performSave_latched by exact Hlatch. auto.
    - destruct (pending m); auto.
    - destruct (pending m); [auto|]. destruct outcome; auto. }
  destruct Hstep as [Hl Hc]. destruct (IH _ Hl) as [Hl' Hc'].
  split; congruence.
Qed.

Lemma oneAtATime_after_save s o rest :
  oneAtATime (Save s o :: rest) ->
  oneAtATime rest
  /\ (rest = []
      \/ exists t rest',
          rest = t :: rest'
          /\ (t = MarkCreated \/ exists u, t = SubmitSettles (Ok u))).
Proof.
  destruct rest as [|[s' o'| |[u|e]] rest']; simpl; try tauto.
  - intros Hrest. split; [exact Hrest|]. right. eauto.
  - intros Hrest. split; [exact Hrest|]. right. eauto 6.
Qed.

(** When every save has settled, or marked the event created, before the
    next one starts, [submit] is called at most once. *)
Lemma oneAtATime_submits_once turns m :
  hasCreatedRef m = false -> pending m = O -> submitCalls m = [] ->
  oneAtATime turns ->
  (List.length (submitCalls (run true turns m)) <= 1)%nat.
Proof.
  revert m. induction turns as [|t turns IH]; intros m Hl Hp Hc Hseq.
  - simpl. rewrite Hc. simpl. lia.
  - destruct t as [s o| |outcome].
    + apply oneAtATime_after_save in Hseq as [Hrest Hnext].
      unfold run in *. simpl. unfold performSave.
      destruct (submitArguments true s o m) as [call|];
        [|apply IH; assumption].
      destruct Hnext as [-> | (t & rest' & -> & Ht)].
      * simpl. rewrite Hc. simpl. lia.
      * simpl.
        match goal with
        | |- context [fold_left _ rest' ?m1] =>
            assert (Hm1 : hasCreatedRef m1 = true
                          /\ submitCalls m1 = [call])
        end.
        { destruct Ht as [-> | (u & ->)]; simpl; rewrite Hc; auto. }
        destruct Hm1 as [Hl1 Hc1].
        destruct (run_latched rest' _ Hl1) as [_ Hsame].
        unfold run in Hsame. rewrite Hsame, Hc1. simpl. lia.
    + unfold run in *. simpl. rewrite Hp. apply IH; assumption.
    + unfold run in *. simpl. rewrite Hp. apply IH; assumption.
Qed.
End Saving.

(** C6, on the code: in a create modal whose form holds a title and a date,
    one triggered save is followed by a second call of [submit] (and of
    [cache.addEvent]) when the first [addEvent] rejects, because [submit]
    closes the modal, and the closing modal saves, before [performSave] has
    set the latch; and two saves that overlap (the second starts while the
    first [addEvent] is still pending) each call [submit]. *)
Theorem createModal_submits_twice :
  CreateModal.addEventCalls
    (CreateModal.run modalCalendars
       [CreateModal.SaveTriggered standupForm None;
        CreateModal.AddEventSettles alreadyExists]
       (CreateModal.opened standupForm))
  = [("local::Events", standupData); ("local::Events", standupData)]
  /\ EditEvent.submitCalls
       (CreateModal.modal
          (CreateModal.run modalCalendars
             [CreateModal.SaveTriggered standupForm None;
              CreateModal.AddEventSettles alreadyExists]
             (CreateModal.opened standupForm)))
     = [(standupData, 0); (standupData, 0)]
  /\ CreateModal.addEventCalls
       (CreateModal.run modalCalendars
          [CreateModal.SaveTriggered standupForm None;
           CreateModal.CloseClicked]
          (CreateModal.opened standupForm))
     = [("local::Events", standupData); ("local::Events", standupData)]
  /\ EditEvent.submitCalls
       (EditEvent.run true
          [EditEvent.Save standupForm None; EditEvent.Save standupForm None]
          EditEvent.initial)
     = [(standupData, 0); (standupData, 0)].
Proof. repeat split. Qed.

(** After the second rejection the latch is set: the modal submits twice,
    shows two notices, and then stops. *)
Example createModal_stops_after_two :
  CreateModal.addEventCalls
    (CreateModal.run modalCalendars
       [CreateModal.SaveTriggered standupForm None;
        CreateModal.AddEventSettles alreadyExists;
        CreateModal.AddEventSettles alreadyExists;
        CreateModal.SaveTriggered standupForm None]
       (CreateModal.opened standupForm))
  = [("local::Events", standupData); ("local::Events", standupData)]
  /\ List.length
       (CreateModal.notices
          (CreateModal.run modalCalendars
             [CreateModal.SaveTriggered standupForm None;
              CreateModal.AddEventSettles alreadyExists;
              CreateModal.AddEventSettles alreadyExists]
             (CreateModal.opened standupForm))) = 2%nat.
Proof. repeat split. Qed.

(** When [addEvent] succeeds, [markCreated] sets the latch before the modal
    closes, and there is one submission. *)
Example createModal_success_submits_once :
  CreateModal.addEventCalls
    (CreateModal.run modalCalendars
       [CreateModal.SaveTriggered standupForm None;
        CreateModal.AddEventSettles (Ok tt);
        CreateModal.CloseClicked;
        CreateModal.SaveTriggered standupForm None]
       (CreateModal.opened standupForm))
  = [("local::Events", standupData)].
Proof. reflexivity. Qed.

(* ********************************************************************* *)
(** * Further properties                                                   *)
(* ********************************************************************* *)

(* ===================================================================== *)
(** ** Normal forms of vault paths                                         *)
(* ===================================================================== *)

Lemma noBackslash_backslashesToSlashes s :
  noBackslash (backslashesToSlashes s) = true.
Proof.
  induction s as [|c s IH]; [reflexivity|].
  change (negb (Ascii.eqb (if Ascii.eqb c backslash then slash else c)
                          backslash)
          && noBackslash (backslashesToSlashes s) = true).
  rewrite IH, andb_true_r.
  destruct (Ascii.eqb c backslash) eqn:Hc; [reflexivity|].
  rewrite Hc. reflexivity.
Qed.

(** The collapsed string begins with the character the string begins with. *)
Lemma collapseSlashes_head c s :
  exists r, collapseSlashes (String c s) = String c r.
Proof.
  revert c. induction s as [|d s IH]; intros c.
  - simpl. destruct (Ascii.eqb c slash); eauto.
  - change (collapseSlashes (String c (String d s)))
      with (if Ascii.eqb c slash
            then if Ascii.eqb d slash then collapseSlashes (String d s)
                 else String c (collapseSlashes (String d s))
            else String c (collapseSlashes (String d s))).
    destruct (Ascii.eqb c slash) eqn:Hc; [|eauto].
    destruct (Ascii.eqb d slash) eqn:Hd; [|eauto].
    apply Ascii.eqb_eq in Hc, Hd. subst. apply IH.
Qed.

Lemma collapseSlashes_cons c d s :
  collapseSlashes (String c (String d s))
  = if Ascii.eqb c slash && Ascii.eqb d slash
    then collapseSlashes (String d s)
    else String c (collapseSlashes (String d s)).
Proof.
  change (collapseSlashes (String c (String d s)))
    with (if Ascii.eqb c slash
          then if Ascii.eqb d slash then collapseSlashes (String d s)
               else String c (collapseSlashes (String d s))
          else String c (collapseSlashes (String d s))).
  destruct (Ascii.eqb c slash), (Ascii.eqb d slash); reflexivity.
Qed.

Lemma collapseSlashes_single c : collapseSlashes (String c "") = String c "".
Proof. simpl. destruct (Ascii.eqb c slash); reflexivity. Qed.

Lemma noDoubleSlash_cons c d s :
  noDoubleSlash (String c (String d s))
  = negb (Ascii.eqb c slash && Ascii.eqb d slash)
    && noDoubleSlash (String d s).
Proof. reflexivity. Qed.

Lemma noDoubleSlash_collapseSlashes s : noDoubleSlash (collapseSlashes s) = true.
Proof.
  induction s as [|c s IH]; [reflexivity|].
  destruct s as [|d s]; [rewrite collapseSlashes_single; reflexivity|].
  rewrite collapseSlashes_cons.
  destruct (Ascii.eqb c slash && Ascii.eqb d slash) eqn:Hcd; [exact IH|].
  destruct (collapseSlashes_head d s) as [r Hr].
  assert (Hd : noDoubleSlash (String d r) = true) by (rewrite <- Hr; exact IH).
  rewrite Hr, noDoubleSlash_cons, Hcd, Hd. reflexivity.
Qed.

Lemma noBackslash_collapseSlashes s :
  noBackslash s = true -> noBackslash (collapseSlashes s) = true.
Proof.
  induction s as [|c s IH]; [reflexivity|].
  intros H. simpl in H. apply andb_prop in H as [Hc Hs].
  destruct s as [|d s]; [rewrite collapseSlashes_single; simpl; rewrite Hc; reflexivity|].
  rewrite collapseSlashes_cons.
  destruct (Ascii.eqb c slash && Ascii.eqb d slash); [apply IH, Hs|].
  change (negb (Ascii.eqb c backslash)
          && noBackslash (collapseSlashes (String d s)) = true).
  rewrite Hc, IH by exact Hs. reflexivity.
Qed.

Lemma stripLeadingSlash_normal s :
  noBackslash s = true -> noDoubleSlash s = true ->
  isNormal (stripLeadingSlash s) = true.
Proof.
  unfold isNormal. intros Hb Hd.
  destruct s as [|c s]; [reflexivity|]. simpl.
  destruct (Ascii.eqb c slash) eqn:Hc.
  - simpl in Hb. apply andb_prop in Hb as [_ Hb]. rewrite Hb.
    destruct s as [|d s]; [reflexivity|].
    rewrite noDoubleSlash_cons, Hc in Hd.
    apply andb_prop in Hd as [Hcd Hd]. rewrite Hd. exact Hcd.
  - rewrite Hb, Hd. simpl. rewrite Hc. reflexivity.
Qed.

Lemma normalizeVaultPath_isNormal (p : string) :
  isNormal (normalizeVaultPath p) = true.
Proof.
  unfold normalizeVaultPath. apply stripLeadingSlash_normal.
  - apply noBackslash_collapseSlashes, noBackslash_backslashesToSlashes.
  - apply noDoubleSlash_collapseSlashes.
Qed.

(** X1: whatever the input, [normalizeVaultPath] yields a path with forward
    slashes only, no doubled slash and no leading slash. *)
Theorem normalizeVaultPath_normal (p : string) :
  noBackslash (normalizeVaultPath p) = true
  /\ noDoubleSlash (normalizeVaultPath p) = true
  /\ noLeadingSlash (normalizeVaultPath p) = true.
Proof.
  pose proof (normalizeVaultPath_isNormal p) as Hn. unfold isNormal in Hn.
  apply andb_prop in Hn as [Hn Hl]. apply andb_prop in Hn as [Hb Hd].
  split; [exact Hb|]. split; [exact Hd|exact Hl].
Qed.

(** X2: [normalizeVaultPath] is idempotent: a path it returned is returned
    unchanged. *)
Theorem normalizeVaultPath_idempotent (p : string) :
  normalizeVaultPath (normalizeVaultPath p) = normalizeVaultPath p.
Proof.
  pose proof (normalizeVaultPath_isNormal p) as Hn. unfold isNormal in Hn.
  apply andb_prop in Hn as [Hn Hl]. apply andb_prop in Hn as [Hb Hd].
  apply normalizeVaultPath_id; assumption.
Qed.

Lemma append_cons c (a b : string) : String c a +:+ b = String c (a +:+ b).
Proof. reflexivity. Qed.

Lemma append_nil_l (b : string) : "" +:+ b = b.
Proof. reflexivity. Qed.

Lemma backslashesToSlashes_app a b :
  backslashesToSlashes (a +:+ b)
  = backslashesToSlashes a +:+ backslashesToSlashes b.
Proof.
  induction a as [|c a IH]; [reflexivity|].
  rewrite append_cons. simpl. rewrite IH. reflexivity.
Qed.

(** Collapsing the front of a string first changes nothing. *)
Lemma collapseSlashes_app_l x y :
  collapseSlashes (collapseSlashes x +:+ y) = collapseSlashes (x +:+ y).
Proof.
  induction x as [|c x IH]; [reflexivity|].
  destruct x as [|d x].
  - rewrite collapseSlashes_single. reflexivity.
  - rewrite collapseSlashes_cons, !append_cons, (collapseSlashes_cons c d).
    destruct (Ascii.eqb c slash && Ascii.eqb d slash) eqn:Hcd.
    + rewrite <- append_cons. exact IH.
    + destruct (collapseSlashes_head d x) as [r Hr].
      rewrite <- (append_cons d x y), <- IH, Hr.
      rewrite !append_cons, collapseSlashes_cons, Hcd. reflexivity.
Qed.

Lemma stripLeadingSlash_collapse_app u y :
  noDoubleSlash u = true ->
  stripLeadingSlash (collapseSlashes (stripLeadingSlash u +:+ y))
  = stripLeadingSlash (collapseSlashes (u +:+ y)).
Proof.
  intros Hu. destruct u as [|c u]; [reflexivity|].
  simpl stripLeadingSlash at 2.
  destruct (Ascii.eqb c slash) eqn:Hc; [|reflexivity].
  apply Ascii.eqb_eq in Hc. subst c.
  destruct u as [|d u].
  - rewrite append_nil_l, append_cons, append_nil_l.
    destruct y as [|e y]; [reflexivity|].
    rewrite collapseSlashes_cons.
    change (Ascii.eqb slash slash) with true. cbn [andb].
    destruct (Ascii.eqb e slash) eqn:He; [reflexivity|].
    destruct (collapseSlashes_head e y) as [r Hr]. rewrite Hr.
    simpl. rewrite He. change (Ascii.eqb slash slash) with true. reflexivity.
  - rewrite noDoubleSlash_cons in Hu.
    change (Ascii.eqb slash slash) with true in Hu. cbn [andb] in Hu.
    apply andb_prop in Hu as [Hd _]. apply negb_true_iff in Hd.
    rewrite !append_cons, (collapseSlashes_cons slash d), Hd, andb_false_r.
    rewrite <- append_cons.
    destruct (collapseSlashes_head d (u +:+ y)) as [r Hr].
    rewrite append_cons, Hr. simpl. rewrite Hd.
    change (Ascii.eqb slash slash) with true. reflexivity.
Qed.

(** Normalising the front of a path first changes nothing. *)
Lemma normalizeVaultPath_app_l a b :
  normalizeVaultPath (normalizeVaultPath a +:+ b) = normalizeVaultPath (a +:+ b).
Proof.
  pose proof (normalizeVaultPath_isNormal a) as Hn. unfold isNormal in Hn.
  apply andb_prop in Hn as [Hn _]. apply andb_prop in Hn as [Hb _].
  unfold normalizeVaultPath at 1 3.
  rewrite !backslashesToSlashes_app, (backslashesToSlashes_id _ Hb).
  unfold normalizeVaultPath.
  rewrite stripLeadingSlash_collapse_app
    by apply noDoubleSlash_collapseSlashes.
  rewrite collapseSlashes_app_l. reflexivity.
Qed.

Lemma isSeparator_slash c :
  Ascii.eqb (if Ascii.eqb c backslash then slash else c) slash = isSeparator c.
Proof.
  unfold isSeparator. destruct (Ascii.eqb c backslash) eqn:Hb.
  - rewrite orb_true_r. reflexivity.
  - rewrite orb_false_r. reflexivity.
Qed.

Lemma collapse_onlySeparators d :
  onlySeparators d = true ->
  collapseSlashes (backslashesToSlashes d) = ""
  \/ collapseSlashes (backslashesToSlashes d) = "/".
Proof.
  induction d as [|c d IH]; [left; reflexivity|].
  intros H. simpl in H. apply andb_prop in H as [Hc Hd].
  destruct d as [|e d].
  - right. simpl. rewrite isSeparator_slash, Hc.
    rewrite <- isSeparator_slash in Hc. apply Ascii.eqb_eq in Hc.
    rewrite Hc. reflexivity.
  - change (backslashesToSlashes (String c (String e d)))
      with (String (if Ascii.eqb c backslash then slash else c)
                   (String (if Ascii.eqb e backslash then slash else e)
                           (backslashesToSlashes d))).
    rewrite collapseSlashes_cons, !isSeparator_slash, Hc.
    pose proof Hd as He. simpl in He. apply andb_prop in He as [He _].
    rewrite He. apply IH, Hd.
Qed.

Lemma collapse_short_onlySeparators d :
  collapseSlashes (backslashesToSlashes d) = ""
  \/ collapseSlashes (backslashesToSlashes d) = "/" ->
  onlySeparators d = true.
Proof.
  induction d as [|c d IH]; [reflexivity|].
  destruct d as [|e d].
  - change (backslashesToSlashes (String c ""))
      with (String (if Ascii.eqb c backslash then slash else c) "").
    rewrite collapseSlashes_single. intros [H|H]; [discriminate|].
    injection H as H. simpl. rewrite <- isSeparator_slash, H. reflexivity.
  - change (backslashesToSlashes (String c (String e d)))
      with (String (if Ascii.eqb c backslash then slash else c)
                   (String (if Ascii.eqb e backslash then slash else e)
                           (backslashesToSlashes d))).
    rewrite collapseSlashes_cons, !isSeparator_slash.
    change (onlySeparators (String c (String e d)))
      with (isSeparator c && onlySeparators (String e d)).
    destruct (isSeparator c && isSeparator e) eqn:Hce.
    + intros H. apply andb_prop in Hce as [-> _]. apply IH, H.
    + destruct (collapseSlashes_head
                  (if Ascii.eqb e backslash then slash else e)
                  (backslashesToSlashes d)) as [r Hr].
      rewrite Hr. intros [H|H]; discriminate.
Qed.

Lemma normalizeVaultPath_empty d :
  normalizeVaultPath d = "" <-> onlySeparators d = true.
Proof.
  unfold normalizeVaultPath. split.
  - intros H. apply collapse_short_onlySeparators.
    destruct (collapseSlashes (backslashesToSlashes d)) as [|c r];
      [left; reflexivity|].
    simpl in H. destruct (Ascii.eqb c slash) eqn:Hc; [|discriminate].
    apply Ascii.eqb_eq in Hc. subst. right. reflexivity.
  - intros H. destruct (collapse_onlySeparators d H) as [-> | ->]; reflexivity.
Qed.

Lemma joinVaultPath_nonroot (directory filename : string) :
  onlySeparators directory = false ->
  joinVaultPath directory filename
  = normalizeVaultPath (directory +:+ "/" +:+ filename).
Proof.
  intros H. unfold joinVaultPath.
  destruct (String.eqb_spec (normalizeVaultPath directory) "") as [He|_].
  - apply normalizeVaultPath_empty in He. congruence.
  - apply normalizeVaultPath_app_l.
Qed.

(** X3: when the directory consists of separators only (the empty path,
    ["/"], ...), [joinVaultPath] returns the file name as it is given; for
    any other directory it returns the normal form of
    [directory + "/" + filename]. *)
Theorem joinVaultPath_root_or_normal (directory filename : string) :
  (onlySeparators directory = true ->
   joinVaultPath directory filename = filename)
  /\ (onlySeparators directory = false ->
      joinVaultPath directory filename
      = normalizeVaultPath (directory +:+ "/" +:+ filename)
      /\ isNormal (joinVaultPath directory filename) = true).
Proof.
  split.
  - intros H. unfold joinVaultPath.
    apply normalizeVaultPath_empty in H. rewrite H. reflexivity.
  - intros H. split; [apply joinVaultPath_nonroot, H|].
    rewrite (joinVaultPath_nonroot _ _ H).
    apply normalizeVaultPath_isNormal.
Qed.

Lemma joinVaultPath_root_or_normal_witness :
  joinVaultPath "\/" "a\b.md" = "a\b.md"
  /\ joinVaultPath "\Events\" "a\b.md" = normalizeVaultPath "\Events\/a\b.md".
Proof.
  split.
  - apply (proj1 (joinVaultPath_root_or_normal "\/" "a\b.md")). reflexivity.
  - apply (proj2 (joinVaultPath_root_or_normal "\Events\" "a\b.md")).
    reflexivity.
Defined.

Lemma collapseSlashes_double x z :
  collapseSlashes (x +:+ "/" +:+ "/" +:+ z)
  = collapseSlashes (x +:+ "/" +:+ z).
Proof.
  induction x as [|c x IH].
  - change (collapseSlashes (String slash (String slash z))
            = collapseSlashes (String slash z)).
    rewrite collapseSlashes_cons. reflexivity.
  - destruct x as [|d x].
    + change (collapseSlashes (String c (String slash (String slash z)))
              = collapseSlashes (String c (String slash z))).
      rewrite (collapseSlashes_cons c slash (String slash z)).
      rewrite (collapseSlashes_cons c slash z).
      rewrite (collapseSlashes_cons slash slash z).
      change (Ascii.eqb slash slash) with true. cbn [andb].
      reflexivity.
    + rewrite !(append_cons c), !(append_cons d), !(collapseSlashes_cons c d).
      rewrite <- !(append_cons d), IH. reflexivity.
Qed.

Lemma onlySeparators_app a b :
  onlySeparators (a +:+ b) = onlySeparators a && onlySeparators b.
Proof.
  induction a as [|c a IH]; [reflexivity|].
  rewrite append_cons. simpl. rewrite IH, andb_assoc. reflexivity.
Qed.



(* ===================================================================== *)
(** ** FullNoteCalendar: reading, checking before writing, moving          *)
(* ===================================================================== *)

Lemma getProp_setProp_same k v props : getProp k (setProp k v props) = v.
Proof.
  induction props as [|[k' v'] props IH]; simpl.
  - rewrite String.eqb_refl. reflexivity.
  - destruct (String.eqb k k') eqn:Hk; simpl; rewrite Hk; [reflexivity|exact IH].
Qed.

Lemma getProp_setProp_other k k' v props :
  k' <> k -> getProp k' (setProp k v props) = getProp k' props.
Proof.
  intros Hne. induction props as [|[k0 v0] props IH]; simpl.
  - apply String.eqb_neq in Hne. rewrite Hne. reflexivity.
  - destruct (String.eqb k k0) eqn:Hk; simpl.
    + apply String.eqb_eq in Hk. subst k0.
      apply String.eqb_neq in Hne. rewrite Hne. reflexivity.
    + rewrite IH. reflexivity.
Qed.

Section CalendarFurther.
Context `{Libraries} `{EventSchema} {V : Type} `{ObsidianInterface V}.

(** X5: [getEventsInFile] returns at most one event.  Its location is the
    file itself, without a line number; its title is the one in the front
    matter or, when that is missing or empty, the file's basename; every
    other field is as [validateEvent] returned it. *)
Theorem getEventsInFile_titled (v : V) (f : TFile) event loc :
  In (event, loc) (getEventsInFile v f) ->
  getEventsInFile v f = [(event, loc)]
  /\ file loc = f /\ lineNumber loc = None
  /\ exists validated,
      validateEvent (match getMetadata v f with
                     | Some metadata => frontmatter metadata
                     | None => VUndefined
                     end) = Some validated
      /\ getProp "title" event
         = (if truthy (getProp "title" validated)
            then getProp "title" validated
            else VStr (basename f))
      /\ forall k, k <> "title" -> getProp k event = getProp k validated.
Proof.
  unfold getEventsInFile.
  destruct (validateEvent _) as [validated|]; [|intros []].
  intros [[= <- <-]|[]]. repeat split.
  exists validated. split; [reflexivity|].
  destruct (truthy (getProp "title" validated)); simpl.
  - split; [reflexivity|]. reflexivity.
  - split; [apply getProp_setProp_same|].
    intros k Hk. apply getProp_setProp_other, Hk.
Qed.

(** X6: when [getNewLocation] throws (the location has a line number, no
    file is at the path, or no file name can be derived from the event),
    [modifyEvent] rejects before it has invoked the callback or called the
    vault. *)
Theorem modifyEvent_rejects_untouched (w : World V) location event msg :
  getNewLocation (vault w) location event = Throw msg ->
  exists msg', modifyEvent location event w = (Throw msg', w).
Proof.
  intros Hnew. unfold modifyEvent, bind, ask, lift, throw.
  destruct (getFileByPath (vault w) (normalizeVaultPath (loc_path location)));
    [|eexists; reflexivity].
  cbn. rewrite Hnew. eexists. reflexivity.
Qed.

(** X7: for a whole-file location whose path resolves to a file, [move] into
    a note calendar tells the cache the path made of the destination
    directory and the file's own name, and then asks the vault for that
    rename, also when the path is the one the file has already.  On a vault
    satisfying [ObsidianLaws] a successful move leaves the file at the path
    the cache was given; a rejected rename leaves the vault as it was. *)
Theorem move_keeps_name (laws : ObsidianLaws V) (w : World V)
        location dest f :
  loc_lineNumber location = None ->
  getFileByPath (vault w) (normalizeVaultPath (loc_path location)) = Some f ->
  let newPath := joinVaultPath (directory dest) (name f) in
  let r := move location (NoteCalendar dest) w in
  trace r.2
  = trace w ++ [CallUpdateCache {| file := newPath; lineNumber := None |};
                CallRename f newPath]
  /\ (r.1 = Ok tt ->
      exists f', getFileByPath (vault r.2) newPath = Some f'
                 /\ fid f' = fid f)
  /\ (r.1 <> Ok tt -> vault r.2 = vault w).
Proof.
  intros Hline Hfile. cbv zeta.
  unfold move, bind, ask, updateCacheWithLocation, call.
  rewrite Hline, Hfile. cbn.
  destruct (rename f _ (vault w)) as [v1|msg] eqn:Hrn; cbn;
    rewrite <- app_assoc; cbn.
  - split; [reflexivity|]. split; [|congruence].
    intros _. apply (rename_resolves _ _ _ _ Hrn).
  - split; [reflexivity|]. split; [discriminate|reflexivity].
Qed.
End CalendarFurther.

Lemma getEventsInFile_titled_witness :
  getProp "title"
    [("date", VStr "2024-01-12"); ("title", VStr "2024-01-12 Retro")]
  = VStr (basename (handle retroNote)).
Proof.
  destruct (@getEventsInFile_titled testSchema MemVault MemVaultIO
              exampleVault (handle retroNote)
              [("date", VStr "2024-01-12"); ("title", VStr "2024-01-12 Retro")]
              {| file := handle retroNote; lineNumber := None |})
    as (_ & _ & _ & validated & Hval & Htitle & _).
  - left. reflexivity.
  - injection Hval as <-. exact Htitle.
Defined.

Lemma modifyEvent_rejects_untouched_witness :
  exists msg,
    @modifyEvent testLibraries MemVault MemVaultIO
      inlineLocation planning exampleWorld = (Throw msg, exampleWorld).
Proof.
  apply (@modifyEvent_rejects_untouched testLibraries MemVault MemVaultIO
           exampleWorld inlineLocation planning
           "Note calendar cannot handle inline events.").
  reflexivity.
Defined.

Lemma move_keeps_name_witness :
  exists f',
    @getFileByPath MemVault MemVaultIO
      (vault (@move MemVault MemVaultIO standupLocation
                (NoteCalendar archiveCalendar) exampleWorld).2)
      "Events/Archive/2024-01-10 Standup.md" = Some f'
    /\ fid f' = 1%nat.
Proof.
  refine (proj1 (proj2 (@move_keeps_name MemVault MemVaultIO MemVault_laws
                          exampleWorld standupLocation archiveCalendar
                          (handle standupNote) _ _)) _);
    reflexivity.
Defined.

(** Moving a note into the calendar it is in asks the vault to rename the
    file onto itself, which the in-memory vault rejects; the cache has been
    told by then. *)
Example move_within_calendar :
  @move MemVault MemVaultIO standupLocation (NoteCalendar eventsCalendar)
    exampleWorld
  = (Throw "Destination file already exists!",
     {| vault := exampleVault;
        trace := [CallUpdateCache
                    {| file := "Events/2024-01-10 Standup.md";
                       lineNumber := None |};
                  CallRename (handle standupNote)
                             "Events/2024-01-10 Standup.md"] |}).
Proof. reflexivity. Qed.

(* ===================================================================== *)
(** ** Front matter: splitting, replacing, reading back                    *)
(* ===================================================================== *)

Lemma rev_app_append s1 s2 s3 :
  String.rev_app s1 s2 +:+ s3 = String.rev_app s1 (s2 +:+ s3).
Proof.
  revert s2. induction s1 as [|c s1 IH]; intros s2; [reflexivity|].
  simpl. rewrite IH. reflexivity.
Qed.

Lemma rev_cons_append c cur s :
  String.rev (String c cur) +:+ s = String.rev cur +:+ String c s.
Proof. unfold String.rev. simpl. rewrite !rev_app_append. reflexivity. Qed.

Lemma append_nil_r (s : string) : s +:+ "" = s.
Proof.
  induction s as [|c s IH]; [reflexivity|].
  rewrite append_cons, IH. reflexivity.
Qed.

Lemma length_append (a b : string) :
  String.length (a +:+ b) = (String.length a + String.length b)%nat.
Proof.
  induction a as [|c a IH]; [reflexivity|].
  rewrite append_cons. simpl. rewrite IH. reflexivity.
Qed.

Lemma startsWith_append sep s : startsWith sep (sep +:+ s) = true.
Proof.
  induction sep as [|c sep IH]; [reflexivity|].
  rewrite append_cons. simpl. rewrite Ascii.eqb_refl. exact IH.
Qed.

Lemma startsWith_inv sep s :
  startsWith sep s = true -> exists rest, s = sep +:+ rest.
Proof.
  revert s. induction sep as [|c sep IH]; intros s; [exists s; reflexivity|].
  destruct s as [|d s]; simpl; [discriminate|].
  intros [Hc Hs]%andb_prop. apply Ascii.eqb_eq in Hc. subst d.
  destruct (IH _ Hs) as [rest ->]. exists rest. reflexivity.
Qed.

(** Only the first [length sep] characters matter. *)
Lemma startsWith_long sep u r :
  (String.length sep <= String.length u)%nat ->
  startsWith sep (u +:+ r) = startsWith sep u.
Proof.
  revert u. induction sep as [|c sep IH]; intros u Hlen; [reflexivity|].
  destruct u as [|d u]; [simpl in Hlen; lia|].
  rewrite append_cons. simpl. rewrite IH by (simpl in Hlen; lia). reflexivity.
Qed.

Lemma contains_startsWith sep s :
  startsWith sep s = true -> contains sep s = true.
Proof. intros Hs. destruct s; simpl; rewrite Hs; reflexivity. Qed.

Lemma contains_append_r sep x y : contains sep (x +:+ sep +:+ y) = true.
Proof.
  induction x as [|c x IH].
  - rewrite append_nil_l. apply contains_startsWith, startsWith_append.
  - rewrite append_cons. simpl. rewrite IH. apply orb_true_r.
Qed.

(** The characters of a separator that has been recognised are passed
    over. *)
Lemma splitGo_skip sep pre s cur :
  splitGo sep (pre +:+ s) (String.length pre) cur = splitGo sep s O cur.
Proof.
  induction pre as [|c pre IH]; [destruct s; reflexivity|].
  rewrite append_cons. simpl. exact IH.
Qed.

Lemma splitGo_separator sep b cur :
  sep <> "" ->
  splitGo sep (sep +:+ b) O cur = String.rev cur :: splitGo sep b O "".
Proof.
  intros Hne. destruct sep as [|c sep]; [congruence|].
  rewrite append_cons.
  change (splitGo (String c sep) (String c (sep +:+ b)) O cur)
    with (if startsWith (String c sep) (String c (sep +:+ b))
          then String.rev cur
               :: splitGo (String c sep) (sep +:+ b)
                    (Nat.pred (String.length (String c sep))) ""
          else splitGo (String c sep) (sep +:+ b) O (String c cur)).
  rewrite <- append_cons, startsWith_append.
  simpl Nat.pred. rewrite splitGo_skip. reflexivity.
Qed.

Lemma splitGo_other sep c s cur :
  startsWith sep (String c s) = false ->
  splitGo sep (String c s) O cur = splitGo sep s O (String c cur).
Proof.
  intros Hno.
  change (splitGo sep (String c s) O cur)
    with (if startsWith sep (String c s)
          then String.rev cur
               :: splitGo sep s (Nat.pred (String.length sep)) ""
          else splitGo sep s O (String c cur)).
  rewrite Hno. reflexivity.
Qed.

Lemma splitGo_nonempty sep s cur :
  sep <> "" -> exists x l, splitGo sep s O cur = x :: l.
Proof.
  intros Hne. destruct s as [|c s]; [simpl; eauto|].
  destruct (startsWith sep (String c s)) eqn:Hs.
  - destruct (startsWith_inv _ _ Hs) as [rest ->].
    rewrite splitGo_separator by exact Hne. eauto.
  - rewrite splitGo_other by exact Hs.
    revert c cur Hs. induction s as [|d s IH]; intros c cur Hs; [simpl; eauto|].
    destruct (startsWith sep (String d s)) eqn:Hd.
    + destruct (startsWith_inv _ _ Hd) as [rest ->].
      rewrite splitGo_separator by exact Hne. eauto.
    + rewrite splitGo_other by exact Hd. apply (IH d), Hd.
Qed.

Lemma join_cons sep x y l :
  join sep (x :: y :: l) = x +:+ sep +:+ join sep (y :: l).
Proof. reflexivity. Qed.

(** Joining the pieces of a split with the separator gives the string back. *)
Lemma join_splitGo sep n :
  sep <> "" ->
  forall s cur,
    (String.length s <= n)%nat ->
    join sep (splitGo sep s O cur) = String.rev cur +:+ s.
Proof.
  intros Hne. induction n as [|n IH]; intros s cur Hlen.
  - destruct s; [|simpl in Hlen; lia]. simpl. rewrite append_nil_r. reflexivity.
  - destruct s as [|c s]; [simpl; rewrite append_nil_r; reflexivity|].
    destruct (startsWith sep (String c s)) eqn:Hs.
    + destruct (startsWith_inv _ _ Hs) as [rest Hrest]. rewrite Hrest.
      rewrite splitGo_separator by exact Hne.
      destruct (splitGo_nonempty sep rest "" Hne) as (x & l & Hx).
      assert (Hr : (String.length rest <= n)%nat).
      { apply (f_equal String.length) in Hrest.
        rewrite length_append in Hrest. simpl in Hrest, Hlen.
        destruct sep; [congruence|]. simpl in Hrest. lia. }
      pose proof (IH rest "" Hr) as Hj. rewrite Hx in Hj |- *.
      rewrite join_cons, Hj. reflexivity.
    + rewrite splitGo_other by exact Hs.
      rewrite IH by (simpl in Hlen; lia). apply rev_cons_append.
Qed.

Lemma join_split sep s : sep <> "" -> join sep (split sep s) = s.
Proof.
  intros Hne. unfold split.
  rewrite (join_splitGo sep (String.length s) Hne) by lia. reflexivity.
Qed.

(** Up to the first separator: when [sep] does not occur in [a] followed by
    all of [sep] but its last character, the first piece is [a]. *)
Lemma splitGo_until sep pre l a b :
  sep = pre +:+ String l "" ->
  contains sep (a +:+ pre) = false ->
  forall cur,
    splitGo sep (a +:+ sep +:+ b) O cur
    = (String.rev cur +:+ a) :: splitGo sep b O "".
Proof.
  intros Hsep. assert (Hne : sep <> "").
  { rewrite Hsep. destruct pre; discriminate. }
  induction a as [|c a IH]; intros Hno cur.
  - rewrite append_nil_l, append_nil_r. apply splitGo_separator, Hne.
  - rewrite append_cons in Hno. simpl in Hno.
    apply orb_false_iff in Hno as [Hstart Hrest].
    rewrite append_cons, splitGo_other.
    + rewrite IH by exact Hrest. rewrite rev_cons_append. reflexivity.
    + rewrite <- Hstart, <- append_cons, <- append_cons.
      rewrite Hsep at 2. rewrite append_assoc, <- append_assoc.
      apply startsWith_long.
      rewrite Hsep, !length_append. simpl. lia.
Qed.

Lemma replaceFrontmatter_split page fm :
  contains "---" (fm +:+ "--") = false ->
  split "---" (replaceFrontmatter page fm)
  = "" :: (nl +:+ fm) :: split "---" (extractPageContents page).
Proof.
  intros Hno. unfold replaceFrontmatter, split.
  rewrite (splitGo_separator "---") by discriminate.
  f_equal. rewrite <- append_assoc.
  rewrite (splitGo_until "---" "--" "-"%char); [reflexivity|reflexivity|].
  rewrite append_assoc. change (nl +:+ fm +:+ "--")
    with (String (ascii_of_nat 10) (fm +:+ "--")).
  simpl. exact Hno.
Qed.

Lemma replaceFrontmatter_hasFrontmatter page fm :
  hasFrontmatter (replaceFrontmatter page fm) = true.
Proof.
  unfold hasFrontmatter, replaceFrontmatter, FRONTMATTER_SEPARATOR.
  rewrite startsWith_append.
  change (slice 3 ("---" +:+ nl +:+ fm +:+ "---"
                   +:+ extractPageContents page))
    with (nl +:+ fm +:+ "---" +:+ extractPageContents page).
  rewrite <- append_assoc. apply contains_append_r.
Qed.

Lemma replaceFrontmatter_parts page fm :
  contains "---" (fm +:+ "--") = false ->
  extractFrontmatter (replaceFrontmatter page fm) = Some (nl +:+ fm)
  /\ extractPageContents (replaceFrontmatter page fm)
     = extractPageContents page.
Proof.
  intros Hno. unfold extractFrontmatter, extractPageContents at 1.
  rewrite replaceFrontmatter_hasFrontmatter. unfold FRONTMATTER_SEPARATOR.
  rewrite (replaceFrontmatter_split _ _ Hno). split; [reflexivity|].
  simpl drop. apply join_split. discriminate.
Qed.



Lemma newFrontmatter_rows fields :
  newFrontmatter fields
  = "---" +:+ nl +:+ frontmatterRows fields +:+ nl +:+ "---" +:+ nl.
Proof. reflexivity. Qed.

Lemma newFrontmatter_replace fields body :
  newFrontmatter fields +:+ body
  = replaceFrontmatter (nl +:+ body) (frontmatterRows fields +:+ nl).
Proof.
  rewrite newFrontmatter_rows. unfold replaceFrontmatter.
  assert (Hbody : extractPageContents (nl +:+ body) = nl +:+ body)
    by reflexivity.
  rewrite Hbody, !append_assoc. reflexivity.
Qed.

(** X9: a note made of [newFrontmatter(event)] and a body has front matter;
    when the written lines contain no run of three dashes, the front matter
    read back is those lines and the body read back is the body. *)
Theorem newFrontmatter_read_back (fields : OFCEvent) (body : string) :
  hasFrontmatter (newFrontmatter fields +:+ body) = true
  /\ (contains "---" (frontmatterRows fields +:+ nl +:+ "--") = false ->
      extractFrontmatter (newFrontmatter fields +:+ body)
      = Some (nl +:+ frontmatterRows fields +:+ nl)
      /\ extractPageContents (newFrontmatter fields +:+ body) = nl +:+ body).
Proof.
  split.
  - rewrite newFrontmatter_rows.
    unfold hasFrontmatter, FRONTMATTER_SEPARATOR.
    rewrite !append_assoc, startsWith_append.
    change (slice 3 ("---" +:+ nl +:+ frontmatterRows fields +:+ nl
                     +:+ "---" +:+ nl +:+ body))
      with (nl +:+ frontmatterRows fields +:+ nl +:+ "---" +:+ nl +:+ body).
    rewrite <- (append_assoc (frontmatterRows fields)), <- append_assoc.
    apply contains_append_r.
  - intros Hno. rewrite newFrontmatter_replace.
    rewrite <- append_assoc in Hno.
    destruct (replaceFrontmatter_parts (nl +:+ body) _ Hno)
      as (Hfm & Hbody).
    rewrite Hfm, Hbody. split; reflexivity.
Qed.

Lemma newFrontmatter_read_back_witness :
  extractPageContents (newFrontmatter planning +:+ plainPage)
  = nl +:+ plainPage.
Proof.
  apply (proj2 (newFrontmatter_read_back planning plainPage)).
  reflexivity.
Defined.

(** A title with three dashes in it cuts the front matter short. *)
Example newFrontmatter_dashes_in_title :
  extractFrontmatter
    (newFrontmatter [("title", VStr "a---b"); ("date", VStr "2024-01-11")])
  = Some (nl +:+ "title: a").
Proof. reflexivity. Qed.

Section FrontmatterFurther.
Context `{Libraries}.

(** X10: on a page without front matter [modifyFrontmatterString] puts the
    front matter [newFrontmatter] would write for the same fields in front
    of the page, which it leaves as it is. *)
Theorem modifyFrontmatterString_adds (page : string) (fields : OFCEvent) :
  hasFrontmatter page = false ->
  modifyFrontmatterString page fields = Ok (newFrontmatter fields +:+ page).
Proof.
  intros Hno. unfold modifyFrontmatterString, extractFrontmatter.
  rewrite Hno. rewrite newFrontmatter_replace. reflexivity.
Qed.

(** X11: on a page with front matter [modifyFrontmatterString], when it
    returns, returns the page with its front matter replaced; when the new
    front matter contains no run of three dashes, the body read back from
    the new page is the body of the old one. *)
Theorem modifyFrontmatterString_keeps_body (page page' : string)
        (fields : OFCEvent) :
  hasFrontmatter page = true ->
  modifyFrontmatterString page fields = Ok page' ->
  exists fm,
    page' = replaceFrontmatter page fm
    /\ (contains "---" (fm +:+ "--") = false ->
        extractPageContents page' = extractPageContents page
        /\ extractFrontmatter page' = Some (nl +:+ fm)).
Proof.
  intros Hhas. unfold modifyFrontmatterString, extractFrontmatter.
  rewrite Hhas.
  destruct (modifyRows _ fields [] []) as [[rows linesAdded]|msg];
    [|discriminate].
  cbn. intros [= <-]. eexists. split; [reflexivity|].
  intros Hno.
  destruct (replaceFrontmatter_parts page _ Hno) as (Hfm & Hbody).
  split; assumption.
Qed.
End FrontmatterFurther.

Lemma modifyFrontmatterString_adds_witness :
  @modifyFrontmatterString testLibraries plainPage planning
  = Ok (newFrontmatter planning +:+ plainPage).
Proof. apply modifyFrontmatterString_adds. reflexivity. Defined.

Lemma modifyFrontmatterString_keeps_body_witness :
  exists fm,
    "---" +:+ nl +:+ "title: Planning" +:+ nl +:+ "date: 2024-01-11" +:+ nl
    +:+ "type: single" +:+ nl +:+ "allDay: true" +:+ nl +:+ "---" +:+ nl
    +:+ "Agenda --- and notes" +:+ nl
    = replaceFrontmatter standupPage fm.
Proof.
  destruct (@modifyFrontmatterString_keeps_body testLibraries standupPage
              ("---" +:+ nl +:+ "title: Planning" +:+ nl
               +:+ "date: 2024-01-11" +:+ nl +:+ "type: single" +:+ nl
               +:+ "allDay: true" +:+ nl +:+ "---" +:+ nl
               +:+ "Agenda --- and notes" +:+ nl)
              planning eq_refl eq_refl) as (fm & Hfm & _).
  exists fm. exact Hfm.
Defined.

(* ===================================================================== *)
(** ** The event form                                                      *)
(* ===================================================================== *)

Section Form.
Import EditEvent.

Lemma includes_In days code : includes days code = true <-> In code days.
Proof.
  unfold includes. rewrite existsb_exists. split.
  - intros (c & Hin & Heq). apply String.eqb_eq in Heq. subst. exact Hin.
  - intros Hin. exists code. split; [exact Hin|apply String.eqb_refl].
Qed.

(** X12: clicking a day in [DaySelect] toggles it: the day is in the list
    handed on exactly when it was not in the list before, every other day
    stays in or out as it was, and a list without repetitions stays so. *)
Theorem dayClicked_toggles (days : list string) (code : string) :
  (In code (dayClicked days code) <-> ~ In code days)
  /\ (forall c, c <> code -> (In c (dayClicked days code) <-> In c days))
  /\ (List.NoDup days -> List.NoDup (dayClicked days code)).
Proof.
  unfold dayClicked. destruct (includes days code) eqn:Hinc.
  - apply includes_In in Hinc. split; [|split].
    + rewrite List.filter_In, String.eqb_refl. simpl. split.
      * intros [_ Hf]. discriminate.
      * intros Hn. contradiction.
    + intros c Hne. rewrite List.filter_In.
      apply String.eqb_neq in Hne. rewrite Hne. simpl. tauto.
    + intros Hnd. apply List.NoDup_filter, Hnd.
  - assert (Hn : ~ In code days).
    { intros Hin. apply includes_In in Hin. congruence. }
    split; [|split].
    + simpl. tauto.
    + intros c Hne. simpl. split; [intros [Heq|Hin]|tauto].
      * congruence.
      * exact Hin.
    + intros Hnd. constructor; assumption.
Qed.

Lemma dayClicked_toggles_witness :
  List.NoDup (dayClicked ["M"; "W"] "M").
Proof.
  apply (proj2 (proj2 (dayClicked_toggles ["M"; "W"] "M"))).
  repeat constructor; simpl; intuition discriminate.
Defined.

(** X13: a save with the override [{ color: c }], as the colour inputs
    trigger it, submits the picked colour whatever colour the render's
    state holds; every other field and the calendar index are those of the
    form. *)
Theorem colour_pick_submits_picked (isCreate : bool) (s : FormState)
        (c : string) (m : Modal) (data : OFCEvent) (index : Z) :
  submitArguments isCreate s (Some [("color", VStr c)]) m
  = Some (data, index) ->
  getProp "color" data = VStr c
  /\ (forall k, k <> "color" -> getProp k data = getProp k (getEventData s))
  /\ index = calendarIndex s.
Proof.
  unfold submitArguments.
  change (spread (getEventData s) [("color", VStr c)])
    with (setProp "color" (VStr c) (getEventData s)).
  destruct (_ && _); [discriminate|].
  destruct (_ && _); [discriminate|].
  destruct (_ && _); [discriminate|].
  intros [= <- <-]. split; [|split].
  - apply getProp_setProp_same.
  - intros k Hne. apply getProp_setProp_other, Hne.
  - reflexivity.
Qed.

Lemma colour_pick_submits_picked_witness :
  getProp "color"
    (setProp "color" (VStr "#059669") (getEventData standupForm))
  = VStr "#059669".
Proof.
  apply (colour_pick_submits_picked true standupForm "#059669" initial
           (setProp "color" (VStr "#059669") (getEventData standupForm)) 0).
  reflexivity.
Defined.

Section FormFilename.
Context `{Libraries}.

(** X14: the event the form builds always has a file name, which
    [filenameForEvent] computes without consulting the rrule library: the
    date (or nothing) and the title for a form that is not recurring, the
    chosen days joined by commas and the title for a recurring one. *)
Theorem filenameForEvent_getEventData (s : FormState) :
  filenameForEvent (getEventData s)
  = Ok (if isRecurring s
        then "(Every " +:+ join "," (daysOfWeek s) +:+ ") " +:+ title s
             +:+ ".md"
        else toStr (or_ (date s) (VStr "")) +:+ " " +:+ title s +:+ ".md").
Proof.
  unfold filenameForEvent, basenameFromEvent, getEventData.
  destruct (allDay s), (isRecurring s); cbn;
    rewrite ?arrayJoin_strings, ?append_assoc; reflexivity.
Qed.
End FormFilename.

Section InitialForm.
Variable defaultEventColor : string.
Variable toHexForColorInput : JSValue -> string.

Lemma initialState_inv initialEvent index s :
  initialState defaultEventColor toHexForColorInput initialEvent index
  = Some s ->
  let e := match initialEvent with Some e => e | None => [] end in
  date s = initialDate initialEvent
  /\ endDate s = (if hasType e "single" then getProp "endDate" e
                  else VUndefined)
  /\ isRecurring s = hasType e "recurring"
  /\ endRecur s = ""
  /\ stringOrEmpty (getProp "title" e) = Some (title s)
  /\ stringOrEmpty (getProp "startTime" e) = Some (startTime s)
  /\ stringOrEmpty (getProp "endTime" e) = Some (endTime s)
  /\ boolOrFalse (getProp "allDay" e) = Some (allDay s)
  /\ isTask s = hasType e "single" && notNullish (getProp "completed" e)
  /\ complete s = (if isTask s then getProp "completed" e else VBool false)
  /\ calendarIndex s = index.
Proof.
  unfold initialState. cbv zeta.
  set (e := match initialEvent with Some e => e | None => [] end).
  destruct (stringOrEmpty (getProp "title" e)) as [t|]; [|discriminate].
  destruct (stringOrEmpty (getProp "startTime" e)) as [st|]; [|discriminate].
  destruct (stringOrEmpty (getProp "endTime" e)) as [et|]; [|discriminate].
  destruct (boolOrFalse (getProp "allDay" e)) as [ad|]; [|discriminate].
  destruct (stringsOrEmpty _) as [ds|]; [|discriminate].
  intros [= <-]. cbn [date endDate isRecurring endRecur title startTime
                      endTime allDay isTask complete calendarIndex].
  repeat split; reflexivity.
Qed.

(** X15: a save from the form as first rendered never carries an end of
    recurrence, and never an rrule event: whatever event the modal was
    opened on, the submitted event has no [endRecur], no [rrule], and the
    type [recurring] if the event had it and [single] otherwise. *)
Theorem first_render_drops_endRecur (initialEvent : option OFCEvent)
        (index : Z) (s : FormState) :
  initialState defaultEventColor toHexForColorInput initialEvent index
  = Some s ->
  getProp "endRecur" (getEventData s) = VUndefined
  /\ getProp "rrule" (getEventData s) = VUndefined
  /\ getProp "type" (getEventData s)
     = VStr (if hasType (match initialEvent with Some e => e | None => [] end)
                        "recurring"
             then "recurring" else "single").
Proof.
  intros Hs. apply initialState_inv in Hs.
  destruct Hs as (_ & _ & Hrec & Hend & _). cbv zeta in Hrec.
  unfold getEventData. rewrite Hend, <- Hrec.
  destruct (allDay s), (isRecurring s); cbn; repeat split; reflexivity.
Qed.

(** X16: opened on a single event, the form as first rendered submits a
    single event with the event's title, date, end date, all-day flag and
    completion: the date reads as the empty string and the end date and the
    completion as [null] when the event has none; a timed event also keeps
    its start and end time. *)
Theorem first_render_keeps_single (e : OFCEvent) (index : Z)
        (s : FormState) :
  hasType e "single" = true ->
  initialState defaultEventColor toHexForColorInput (Some e) index = Some s ->
  let data := getEventData s in
  getProp "type" data = VStr "single"
  /\ stringOrEmpty (getProp "title" e) = Some (title s)
  /\ getProp "title" data = VStr (title s)
  /\ getProp "date" data = or_ (getProp "date" e) (VStr "")
  /\ getProp "endDate" data = or_ (getProp "endDate" e) VNull
  /\ boolOrFalse (getProp "allDay" e) = Some (allDay s)
  /\ getProp "allDay" data = VBool (allDay s)
  /\ getProp "completed" data
     = (if notNullish (getProp "completed" e) then getProp "completed" e
        else VNull)
  /\ (allDay s = false ->
      stringOrEmpty (getProp "startTime" e) = Some (startTime s)
      /\ getProp "startTime" data = VStr (startTime s)
      /\ stringOrEmpty (getProp "endTime" e) = Some (endTime s)
      /\ getProp "endTime" data = VStr (endTime s)).
Proof.
  intros Hsingle Hs. apply initialState_inv in Hs. cbv zeta in Hs.
  destruct Hs as (Hdate & HendDate & Hrec & _ & Htitle & Hstart & Hend
                  & Hall & Htask & Hcomplete & _).
  assert (Hnotrec : hasType e "recurring" = false).
  { unfold hasType in *. destruct (getProp "type" e); try discriminate.
    apply String.eqb_eq in Hsingle. subst. reflexivity. }
  rewrite Hsingle in HendDate. rewrite Hnotrec in Hrec.
  unfold initialDate in Hdate. rewrite Hsingle in Hdate.
  cbv zeta. unfold getEventData. rewrite Hrec.
  rewrite Hdate, HendDate, Hcomplete, Htask.
  assert (Hcompleted :
            (if hasType e "single" && notNullish (getProp "completed" e)
             then if hasType e "single" && notNullish (getProp "completed" e)
                  then getProp "completed" e else VBool false
             else VNull)
            = (if notNullish (getProp "completed" e)
               then getProp "completed" e else VNull)).
  { rewrite Hsingle. cbn [andb]. destruct (notNullish _); reflexivity. }
  assert (HstartTime : or_ (VStr (startTime s)) (VStr "")
                       = VStr (startTime s)).
  { unfold or_. cbn. destruct (String.eqb_spec (startTime s) "") as [->|];
      reflexivity. }
  destruct (allDay s) eqn:Hallday; cbn;
    rewrite ?HstartTime;
    repeat match goal with |- _ /\ _ => split end;
    try assumption; try reflexivity; try discriminate.
  all: intros _; repeat match goal with |- _ /\ _ => split end;
    try assumption; reflexivity.
Qed.
End InitialForm.

Lemma first_render_drops_endRecur_witness :
  getProp "endRecur"
    (getEventData
       {| title := "Review"; date := VStr "2024-01-01";
          endDate := VUndefined; startTime := ""; endTime := "";
          isRecurring := true; endRecur := ""; daysOfWeek := ["M"; "W"];
          allDay := true; calendarIndex := 0; eventColor := accent;
          complete := VBool false; isTask := false |})
  = VUndefined.
Proof.
  apply (first_render_drops_endRecur accent plainColor (Some weeklyReview) 0).
  reflexivity.
Defined.

Lemma first_render_keeps_single_witness :
  getProp "date"
    (getEventData
       {| title := "Dentist"; date := VStr "2024-02-01";
          endDate := VNull; startTime := "09:00"; endTime := "10:00";
          isRecurring := false; endRecur := ""; daysOfWeek := [];
          allDay := false; calendarIndex := 0; eventColor := accent;
          complete := VBool false; isTask := true |})
  = VStr "2024-02-01".
Proof.
  apply (first_render_keeps_single accent plainColor dentist 0); reflexivity.
Defined.

(** The weekly review has an end of recurrence; the event its unchanged
    form submits has none. *)
Example weeklyReview_loses_endRecur :
  getProp "endRecur" weeklyReview = VStr "2024-06-30"
  /\ option_map (fun s => getProp "endRecur" (getEventData s))
       (EditEvent.initialState accent plainColor (Some weeklyReview) 0)
     = Some VUndefined.
Proof. split; reflexivity. Qed.
End Form.

(* ===================================================================== *)
(** ** Duplicate list items                                                *)
(* ===================================================================== *)

(** *** Splitting and joining lines *)

Lemma contains_char_cons c d s :
  contains (String c "") (String d s)
  = Ascii.eqb c d || contains (String c "") s.
Proof.
  simpl. destruct (Ascii.eqb c d); [destruct s|]; reflexivity.
Qed.

Lemma contains_char_app c a b :
  contains (String c "") (a +:+ b)
  = contains (String c "") a || contains (String c "") b.
Proof.
  induction a as [|d a IH].
  - rewrite append_nil_l. destruct b; reflexivity.
  - rewrite append_cons, !contains_char_cons, IH, orb_assoc. reflexivity.
Qed.

Lemma contains_char_rev_app c a b :
  contains (String c "") (String.rev_app a b)
  = contains (String c "") a || contains (String c "") b.
Proof.
  revert b. induction a as [|d a IH]; intros b; simpl String.rev_app.
  - destruct b; reflexivity.
  - rewrite IH, !contains_char_cons.
    destruct (Ascii.eqb c d), (contains (String c "") a); reflexivity.
Qed.

Lemma contains_char_rev c a :
  contains (String c "") (String.rev a) = contains (String c "") a.
Proof.
  unfold String.rev. rewrite contains_char_rev_app.
  simpl. rewrite orb_false_r. reflexivity.
Qed.

(** The pieces of a split at a character do not contain it. *)
Lemma splitGo_char_free c s :
  forall cur,
    contains (String c "") cur = false ->
    Forall (fun piece => contains (String c "") piece = false)
           (splitGo (String c "") s O cur).
Proof.
  induction s as [|d s IH]; intros cur Hcur.
  - simpl. constructor; [|constructor]. rewrite contains_char_rev. exact Hcur.
  - destruct (Ascii.eqb c d) eqn:Hcd.
    + apply Ascii.eqb_eq in Hcd. subst d.
      change (String c s) with (String c "" +:+ s).
      rewrite <- (append_nil_l (String c "" +:+ s)).
      rewrite (splitGo_until (String c "") "" c "" s eq_refl eq_refl).
      rewrite append_nil_r.
      constructor; [rewrite contains_char_rev; exact Hcur|].
      apply IH. reflexivity.
    + rewrite splitGo_other.
      * apply IH. rewrite contains_char_cons, Hcd. exact Hcur.
      * simpl. rewrite Hcd. reflexivity.
Qed.

Lemma split_char_free c s :
  Forall (fun piece => contains (String c "") piece = false)
         (split (String c "") s).
Proof. apply splitGo_char_free. reflexivity. Qed.

Lemma splitGo_last sep a :
  sep <> "" -> contains sep a = false ->
  forall cur, splitGo sep a O cur = [String.rev cur +:+ a].
Proof.
  intros Hne. induction a as [|c a IH]; intros Hno cur.
  - simpl. rewrite append_nil_r. reflexivity.
  - simpl in Hno. apply orb_false_iff in Hno as [Hstart Hrest].
    rewrite splitGo_other by exact Hstart.
    rewrite IH by exact Hrest. rewrite rev_cons_append. reflexivity.
Qed.

(** Joining lines with a character and splitting at it gives the lines
    back. *)
Lemma split_join_char c (ls : list string) :
  ls <> [] ->
  Forall (fun piece => contains (String c "") piece = false) ls ->
  split (String c "") (join (String c "") ls) = ls.
Proof.
  intros Hne Hfree. unfold split.
  induction ls as [|l ls IH]; [contradiction|].
  inversion Hfree as [|? ? Hl Hls]; subst.
  destruct ls as [|l' ls].
  - simpl join. rewrite splitGo_last by (discriminate || exact Hl).
    reflexivity.
  - change (join (String c "") (l :: l' :: ls))
      with (l +:+ String c "" +:+ join (String c "") (l' :: ls)).
    rewrite (splitGo_until (String c "") "" c l _ eq_refl).
    + rewrite IH by (discriminate || exact Hls). reflexivity.
    + rewrite append_nil_r. exact Hl.
Qed.

(** *** The section scan and the repeated items *)

Section CleanupContent.
Import Cleanup.
Variable headingMatch : string -> option (nat * string).
Variable isListItem : string -> bool.
Variable trim : string -> string.

Lemma includes_In_nat toRemove i : includes toRemove i = true <-> In i toRemove.
Proof.
  unfold includes. rewrite existsb_exists. split.
  - intros (k & Hin & Heq). apply Nat.eqb_eq in Heq. subst. exact Hin.
  - intros Hin. exists i. split; [exact Hin|apply Nat.eqb_refl].
Qed.

Lemma includes_not_In toRemove i :
  includes toRemove i = false <-> ~ In i toRemove.
Proof.
  rewrite <- includes_In_nat. destruct (includes toRemove i); split;
    congruence.
Qed.

Lemma duplicates_subset sl :
  forall seen i, In i (duplicates trim sl seen) -> In i (map fst sl).
Proof.
  induction sl as [|[k t] rest IH]; intros seen i; simpl; [tauto|].
  destruct (has seen (trim t)); simpl.
  - intros [->|Hin]; [left; reflexivity|right; eapply IH, Hin].
  - intros Hin. right. eapply IH, Hin.
Qed.

Lemma ascending_head_not_In k (rest : list (nat * string)) :
  Forall (lt k) (map fst rest) ->
  forall j, In j (map fst rest) -> j <> k.
Proof.
  intros Hall j Hin. rewrite List.Forall_forall in Hall.
  specialize (Hall j Hin). lia.
Qed.

(** Every line number on [toRemove] is that of an item of the section whose
    trimmed text is in [seen] or is that of an earlier item of the section
    that is not on [toRemove]. *)
Lemma duplicates_repeat sl :
  StronglySorted lt (map fst sl) ->
  forall seen i,
    In i (duplicates trim sl seen) ->
    exists t,
      In (i, t) sl
      /\ (has seen (trim t) = true
          \/ exists j t', In (j, t') sl /\ (j < i)%nat
                          /\ ~ In j (duplicates trim sl seen)
                          /\ trim t' = trim t).
Proof.
  induction sl as [|[k t0] rest IH]; intros Hsorted seen i; simpl;
    [tauto|].
  simpl in Hsorted. apply StronglySorted_inv in Hsorted as [Hrest Hk].
  assert (Hfresh : forall seen', ~ In k (duplicates trim rest seen')).
  { intros seen' Hin. apply duplicates_subset in Hin.
    exact (ascending_head_not_In k rest Hk k Hin eq_refl). }
  destruct (has seen (trim t0)) eqn:Hseen; simpl.
  - intros [<-|Hin].
    + exists t0. split; [left; reflexivity|left; exact Hseen].
    + destruct (IH Hrest seen i Hin) as (t & Ht & Hwhy).
      exists t. split; [right; exact Ht|].
      destruct Hwhy as [Hs|(j & t' & Hj & Hlt & Hnot & Heq)];
        [left; exact Hs|right].
      exists j, t'. split; [right; exact Hj|]. split; [exact Hlt|].
      split; [|exact Heq].
      intros [Hjk|Hin']; [|exact (Hnot Hin')].
      apply (ascending_head_not_In k rest Hk j); [|congruence].
      apply (in_map fst) in Hj. exact Hj.
  - intros Hin.
    destruct (IH Hrest (trim t0 :: seen) i Hin) as (t & Ht & Hwhy).
    exists t. split; [right; exact Ht|].
    assert (Hki : (k < i)%nat).
    { rewrite List.Forall_forall in Hk. apply Hk.
      apply (in_map fst) in Ht. exact Ht. }
    destruct Hwhy as [Hs|(j & t' & Hj & Hlt & Hnot & Heq)].
    + unfold has in Hs. simpl in Hs. apply orb_true_iff in Hs as [Hs|Hs].
      * right. exists k, t0. split; [left; reflexivity|].
        split; [exact Hki|]. split; [apply Hfresh|].
        apply String.eqb_eq in Hs. congruence.
      * left. exact Hs.
    + right. exists j, t'. split; [right; exact Hj|].
      split; [exact Hlt|]. split; [exact Hnot|exact Heq].
Qed.

(** Only the texts of the items matter for how many are repeated. *)
Lemma duplicates_texts sl :
  forall sl2 seen,
    map snd sl = map snd sl2 ->
    length (duplicates trim sl seen) = length (duplicates trim sl2 seen).
Proof.
  induction sl as [|[k t] rest IH]; intros [|[k2 t2] rest2] seen Heq;
    try discriminate; [reflexivity|].
  simpl in Heq. injection Heq as <- Hrest. simpl.
  destruct (has seen (trim t)); simpl; [f_equal|]; apply IH, Hrest.
Qed.

(** Among the items that are kept none is repeated. *)
Lemma duplicates_kept sl :
  StronglySorted lt (map fst sl) ->
  forall seen,
    duplicates trim
      (List.filter (fun p => negb (includes (duplicates trim sl seen) p.1))
                   sl) seen
    = [].
Proof.
  induction sl as [|[k t] rest IH]; intros Hsorted seen; [reflexivity|].
  simpl in Hsorted. apply StronglySorted_inv in Hsorted as [Hrest Hk].
  assert (Hfresh : forall seen', includes (duplicates trim rest seen') k
                                 = false).
  { intros seen'. apply includes_not_In. intros Hin.
    apply duplicates_subset in Hin.
    exact (ascending_head_not_In k rest Hk k Hin eq_refl). }
  cbn [duplicates]. destruct (has seen (trim t)) eqn:Hseen.
  - cbn [List.filter fst]. unfold includes at 1. cbn [existsb].
    rewrite Nat.eqb_refl. cbn [orb negb].
    rewrite (List.filter_ext_in
               (fun p => negb (includes (k :: duplicates trim rest seen) p.1))
               (fun p => negb (includes (duplicates trim rest seen) p.1))).
    + apply IH, Hrest.
    + intros [j t'] Hin. cbn [fst]. unfold includes. cbn [existsb].
      assert (Hjk : j <> k).
      { apply (ascending_head_not_In k rest Hk).
        apply (in_map fst) in Hin. exact Hin. }
      apply Nat.eqb_neq in Hjk. rewrite Hjk. reflexivity.
  - cbn [List.filter fst]. rewrite Hfresh. cbn [negb duplicates].
    rewrite Hseen. apply IH, Hrest.
Qed.

Lemma StronglySorted_snoc (l : list nat) (x : nat) :
  StronglySorted lt l -> Forall (fun y => (y < x)%nat) l ->
  StronglySorted lt (l ++ [x]).
Proof.
  induction l as [|y l IH]; intros Hs Hall; simpl.
  - constructor; constructor.
  - apply StronglySorted_inv in Hs as [Hs Hy].
    inversion Hall as [|? ? Hyx Hall']; subst.
    constructor; [apply IH; assumption|].
    apply Forall_app. split; [exact Hy|]. constructor; [exact Hyx|constructor].
Qed.

(** The items the scan returns carry increasing line numbers; each is an
    item it was given, or a line from [i] on that is a list item and not a
    heading. *)
Lemma sectionLinesFrom_items heading lines :
  forall i inSection sectionLevel acc,
    StronglySorted lt (map fst acc) ->
    Forall (fun p => (p.1 < i)%nat) acc ->
    let res := sectionLinesFrom headingMatch isListItem trim heading lines i
                                inSection sectionLevel acc in
    StronglySorted lt (map fst res)
    /\ forall k t, In (k, t) res ->
         In (k, t) acc
         \/ ((i <= k)%nat /\ nth_error lines (k - i) = Some t
             /\ headingMatch t = None /\ isListItem t = true).
Proof.
  induction lines as [|line rest IH]; intros i b lv acc Hsorted Hbelow;
    cbn [sectionLinesFrom]; cbv zeta.
  - split; [exact Hsorted|]. intros k t Hin. left. exact Hin.
  - assert (Hnext : forall acc', StronglySorted lt (map fst acc') ->
              Forall (fun p => (p.1 < S i)%nat) acc' ->
              (forall k t, In (k, t) acc' ->
                 In (k, t) acc
                 \/ (k = i /\ t = line /\ headingMatch line = None
                     /\ isListItem line = true)) ->
              forall b' lv',
              let res := sectionLinesFrom headingMatch isListItem trim heading
                                          rest (S i) b' lv' acc' in
              StronglySorted lt (map fst res)
              /\ forall k t, In (k, t) res ->
                   In (k, t) acc
                   \/ ((i <= k)%nat
                       /\ nth_error (line :: rest) (k - i) = Some t
                       /\ headingMatch t = None /\ isListItem t = true)).
    { intros acc' Hs' Hb' Hacc' b' lv'. cbv zeta.
      destruct (IH (S i) b' lv' acc' Hs' Hb') as [Hres Hitems].
      split; [exact Hres|]. intros k t Hin.
      destruct (Hitems k t Hin) as [Hin'|(Hle & Hnth & Hh & Hl)].
      - destruct (Hacc' k t Hin') as [Hold|(-> & -> & Hh & Hl)];
          [left; exact Hold|right].
        rewrite Nat.sub_diag. repeat split; [lia|exact Hh|exact Hl].
      - right. split; [lia|].
        replace (k - i)%nat with (S (k - S i)) by lia.
        repeat split; assumption. }
    assert (Hbelow' : Forall (fun p => (p.1 < S i)%nat) acc).
    { eapply List.Forall_impl; [|exact Hbelow]. intros p Hp. simpl in Hp. lia. }
    destruct (headingMatch line) as [[level title]|] eqn:Hmatch.
    + destruct (isHeading (trim title) heading).
      * apply Hnext; [constructor|constructor|].
        intros k t [].
      * destruct (b && (level <=? lv)%nat).
        -- split; [exact Hsorted|]. intros k t Hin. left. exact Hin.
        -- apply Hnext; [exact Hsorted|exact Hbelow'|].
           intros k t Hin. left. exact Hin.
    + destruct (b && isListItem line) eqn:Hitem.
      * apply andb_true_iff in Hitem as [_ Hitem].
        apply Hnext.
        -- rewrite map_app. apply StronglySorted_snoc; [exact Hsorted|].
           rewrite List.Forall_forall in Hbelow |- *.
           intros y Hy. apply in_map_iff in Hy as (p & <- & Hp).
           exact (Hbelow p Hp).
        -- apply Forall_app. split; [exact Hbelow'|].
           constructor; [simpl; lia|constructor].
        -- intros k t Hin. apply in_app_or in Hin as [Hin|[Heq|[]]];
             [left; exact Hin|right].
           injection Heq as <- <-. repeat split; assumption.
      * apply Hnext; [exact Hsorted|exact Hbelow'|].
        intros k t Hin. left. exact Hin.
Qed.

(** Taking out lines that are not headings takes their items out of the
    section and changes nothing else in it. *)
Lemma sectionLinesFrom_withoutLines heading toRemove lines :
  forall i i' inSection sectionLevel acc acc',
    (forall k line, nth_error lines k = Some line ->
                    includes toRemove (i + k) = true ->
                    headingMatch line = None) ->
    map snd acc'
    = map snd (List.filter (fun p => negb (includes toRemove p.1)) acc) ->
    map snd (sectionLinesFrom headingMatch isListItem trim heading
               (withoutLines toRemove lines i) i' inSection sectionLevel acc')
    = map snd (List.filter (fun p => negb (includes toRemove p.1))
                 (sectionLinesFrom headingMatch isListItem trim heading
                    lines i inSection sectionLevel acc)).
Proof.
  induction lines as [|line rest IH]; intros i i' b lv acc acc' Hplain Hacc.
  - exact Hacc.
  - assert (Hrest : forall k l, nth_error rest k = Some l ->
                      includes toRemove (S i + k) = true ->
                      headingMatch l = None).
    { intros k l Hnth Hinc. apply (Hplain (S k) l Hnth).
      replace (i + S k)%nat with (S i + k)%nat by lia. exact Hinc. }
    cbn [withoutLines sectionLinesFrom].
    destruct (includes toRemove i) eqn:Hinc.
    + rewrite (Hplain O line eq_refl)
        by (rewrite Nat.add_0_r; exact Hinc).
      destruct (b && isListItem line).
      * apply IH; [exact Hrest|].
        rewrite List.filter_app. cbn [List.filter fst]. rewrite Hinc.
        cbn [negb]. rewrite app_nil_r. exact Hacc.
      * apply IH; assumption.
    + cbn [sectionLinesFrom].
      destruct (headingMatch line) as [[level title]|].
      * destruct (isHeading (trim title) heading).
        -- apply IH; [exact Hrest|reflexivity].
        -- destruct (b && (level <=? lv)%nat); [exact Hacc|].
           apply IH; assumption.
      * destruct (b && isListItem line).
        -- apply IH; [exact Hrest|].
           rewrite List.filter_app. cbn [List.filter fst]. rewrite Hinc.
           cbn [negb]. rewrite !map_app, Hacc. reflexivity.
        -- apply IH; assumption.
Qed.

Lemma withoutLines_In toRemove lines :
  forall i k line,
    nth_error lines k = Some line -> ~ In (i + k)%nat toRemove ->
    In line (withoutLines toRemove lines i).
Proof.
  induction lines as [|l rest IH]; intros i [|k] line Hnth Hnot;
    try discriminate; cbn [withoutLines].
  - injection Hnth as ->. rewrite Nat.add_0_r in Hnot.
    apply includes_not_In in Hnot. rewrite Hnot. left. reflexivity.
  - assert (Hin : In line (withoutLines toRemove rest (S i))).
    { apply (IH (S i) k line Hnth).
      replace (S i + k)%nat with (i + S k)%nat by lia. exact Hnot. }
    destruct (includes toRemove i); [exact Hin|right; exact Hin].
Qed.

Lemma withoutLines_Forall (P : string -> Prop) toRemove lines :
  Forall P lines -> forall i, Forall P (withoutLines toRemove lines i).
Proof.
  induction 1 as [|l rest Hl Hrest IH]; intros i; cbn [withoutLines];
    [constructor|].
  destruct (includes toRemove i); [apply IH|constructor; [exact Hl|apply IH]].
Qed.

(** The number of lines that go is the length of [toRemove], when it lists
    line numbers of the text in increasing order. *)
Lemma withoutLines_length toRemove :
  StronglySorted lt toRemove ->
  forall lines i,
    Forall (fun k => (i <= k < i + length lines)%nat) toRemove ->
    (length (withoutLines toRemove lines i) + length toRemove)%nat
    = length lines.
Proof.
  intros Hsorted lines. revert toRemove Hsorted.
  induction lines as [|l rest IH]; intros toRemove Hsorted i Hrange.
  - destruct toRemove as [|k ?]; [reflexivity|].
    inversion Hrange as [|? ? Hk _]; subst. simpl in Hk. lia.
  - cbn [withoutLines]. destruct (includes toRemove i) eqn:Hinc.
    + destruct toRemove as [|k toRemove']; [discriminate|].
      apply StronglySorted_inv in Hsorted as [Hsorted' Hk].
      inversion Hrange as [|? ? Hki Hrange']; subst.
      assert (k = i) as ->.
      { apply includes_In_nat in Hinc. destruct Hinc as [->|Hin];
          [reflexivity|].
        rewrite List.Forall_forall in Hk. specialize (Hk i Hin). lia. }
      assert (Hext : forall ls j, (i < j)%nat ->
                withoutLines (i :: toRemove') ls j
                = withoutLines toRemove' ls j).
      { induction ls as [|x ls IHls]; intros j Hj; [reflexivity|].
        cbn [withoutLines]. unfold includes at 1. cbn [existsb].
        assert (Hji : (j =? i)%nat = false) by (apply Nat.eqb_neq; lia).
        rewrite Hji. cbn [orb]. fold (includes toRemove' j).
        rewrite IHls by lia. reflexivity. }
      rewrite Hext by lia. cbn [length].
      rewrite <- (IH toRemove' Hsorted' (S i)); [lia|].
      rewrite List.Forall_forall in Hk, Hrange' |- *.
      intros j Hj. specialize (Hk j Hj). specialize (Hrange' j Hj).
      cbn [length] in Hrange'. lia.
    + cbn [length]. rewrite <- (IH toRemove Hsorted (S i)); [lia|].
      rewrite List.Forall_forall in Hrange |- *.
      intros j Hj. specialize (Hrange j Hj). cbn [length] in Hrange.
      assert (j <> i).
      { intros ->. apply includes_not_In in Hinc. contradiction. }
      lia.
Qed.

Lemma duplicates_sorted sl :
  StronglySorted lt (map fst sl) ->
  forall seen, StronglySorted lt (duplicates trim sl seen).
Proof.
  induction sl as [|[k t] rest IH]; intros Hsorted seen; [constructor|].
  simpl in Hsorted. apply StronglySorted_inv in Hsorted as [Hrest Hk].
  cbn [duplicates]. destruct (has seen (trim t)); [|apply IH, Hrest].
  constructor; [apply IH, Hrest|].
  rewrite List.Forall_forall in Hk |- *. intros j Hj.
  apply Hk. eapply duplicates_subset, Hj.
Qed.

(** What [cleanContent] rests on: the items of the section of a text, and
    the line numbers it removes. *)
Lemma cleanContent_inv heading content content' n :
  cleanContent headingMatch isListItem trim heading content
  = Some (content', n) ->
  let lines := split nl content in
  let sl := sectionLinesFrom headingMatch isListItem trim heading lines O
                             false O [] in
  let toRemove := duplicates trim sl [] in
  content' = join nl (withoutLines toRemove lines O)
  /\ n = length toRemove /\ (0 < n)%nat.
Proof.
  unfold cleanContent. cbv zeta.
  destruct (length _ <? 2)%nat; [discriminate|].
  destruct (0 <? length _)%nat eqn:Hpos; [|discriminate].
  intros [= <- <-]. apply Nat.ltb_lt in Hpos. repeat split. exact Hpos.
Qed.

Lemma section_items heading content :
  let lines := split nl content in
  let sl := sectionLinesFrom headingMatch isListItem trim heading lines O
                             false O [] in
  StronglySorted lt (map fst sl)
  /\ forall k t, In (k, t) sl ->
       nth_error lines k = Some t /\ headingMatch t = None
       /\ isListItem t = true.
Proof.
  cbv zeta.
  destruct (sectionLinesFrom_items heading (split nl content) O false O []
              (SSorted_nil lt) (List.Forall_nil _)) as [Hsorted Hitems].
  split; [exact Hsorted|]. intros k t Hin.
  destruct (Hitems k t Hin) as [[]|(_ & Hnth & Hh & Hl)].
  rewrite Nat.sub_0_r in Hnth. repeat split; assumption.
Qed.

(** The lines of the text [cleanContent] writes. *)
Lemma cleanContent_lines heading content content' n :
  cleanContent headingMatch isListItem trim heading content
  = Some (content', n) ->
  let lines := split nl content in
  let sl := sectionLinesFrom headingMatch isListItem trim heading lines O
                             false O [] in
  let toRemove := duplicates trim sl [] in
  split nl content' = withoutLines toRemove lines O
  /\ n = length toRemove /\ (0 < n)%nat
  /\ StronglySorted lt (map fst sl)
  /\ forall i, In i toRemove ->
       exists line,
         nth_error lines i = Some line
         /\ headingMatch line = None /\ isListItem line = true
         /\ exists j kept,
              (j < i)%nat /\ ~ In j toRemove
              /\ nth_error lines j = Some kept
              /\ trim kept = trim line.
Proof.
  intros Hclean. apply cleanContent_inv in Hclean. cbv zeta in Hclean.
  destruct Hclean as (-> & -> & Hpos).
  destruct (section_items heading content) as [Hsorted Hitems].
  cbv zeta in Hsorted, Hitems |- *.
  set (lines := split nl content) in *.
  set (sl := sectionLinesFrom headingMatch isListItem trim heading lines O
                              false O []) in *.
  set (toRemove := duplicates trim sl []) in *.
  assert (Hwhy : forall i, In i toRemove ->
            exists line,
              nth_error lines i = Some line
              /\ headingMatch line = None /\ isListItem line = true
              /\ exists j kept,
                   (j < i)%nat /\ ~ In j toRemove
                   /\ nth_error lines j = Some kept
                   /\ trim kept = trim line).
  { intros i Hi.
    destruct (duplicates_repeat sl Hsorted [] i Hi)
      as (t & Ht & [Hs|(j & t' & Hj & Hlt & Hnot & Heq)]);
      [discriminate|].
    destruct (Hitems i t Ht) as (Hnth & Hh & Hl).
    destruct (Hitems j t' Hj) as (Hnth' & _ & _).
    exists t. repeat split; try assumption.
    exists j, t'. repeat split; assumption. }
  split; [|repeat split; assumption].
  apply split_join_char.
  - destruct toRemove as [|i rest] eqn:Hrem; [simpl in Hpos; lia|].
    destruct (Hwhy i (or_introl eq_refl))
      as (_ & _ & _ & _ & j & kept & _ & Hnot & Hnth & _).
    intros Hnil.
    pose proof (withoutLines_In (i :: rest) lines O j kept Hnth Hnot)
      as Hin.
    rewrite Hnil in Hin. exact Hin.
  - apply withoutLines_Forall. apply split_char_free.
Qed.

(** X17: when the cleanup rewrites a text, every line it takes out is a
    list item (not a heading) that repeats, up to [trim], an earlier line
    that stays; the new text is the old one without those lines, in the
    same order, and the number reported is the number of lines that went. *)
Theorem cleanContent_removes_repeats (heading : JSValue)
        (content content' : string) (n : nat) :
  cleanContent headingMatch isListItem trim heading content
  = Some (content', n) ->
  exists toRemove,
    split nl content' = withoutLines toRemove (split nl content) O
    /\ (length (split nl content') + n)%nat = length (split nl content)
    /\ (0 < n)%nat
    /\ forall i, In i toRemove ->
         exists line,
           nth_error (split nl content) i = Some line
           /\ headingMatch line = None /\ isListItem line = true
           /\ exists j kept,
                (j < i)%nat /\ ~ In j toRemove
                /\ nth_error (split nl content) j = Some kept
                /\ trim kept = trim line.
Proof.
  intros Hclean. apply cleanContent_lines in Hclean. cbv zeta in Hclean.
  destruct Hclean as (Hsplit & -> & Hpos & Hsorted & Hwhy).
  eexists. split; [exact Hsplit|]. rewrite Hsplit.
  split; [|split; [exact Hpos|exact Hwhy]].
  apply withoutLines_length.
  - apply duplicates_sorted, Hsorted.
  - rewrite List.Forall_forall. intros i Hi.
    destruct (Hwhy i Hi) as (line & Hnth & _).
    assert (Hlt : (i < length (split nl content))%nat).
    { apply nth_error_Some. congruence. }
    lia.
Qed.

(** Run on its own result, [cleanContent] leaves the text alone. *)
Lemma cleanContent_again (heading : JSValue) (content content' : string)
      (n : nat) :
  cleanContent headingMatch isListItem trim heading content
  = Some (content', n) ->
  cleanContent headingMatch isListItem trim heading content' = None.
Proof.
  intros Hclean. apply cleanContent_lines in Hclean. cbv zeta in Hclean.
  destruct Hclean as (Hsplit & _ & _ & Hsorted & Hwhy).
  unfold cleanContent. cbv zeta. rewrite Hsplit.
  set (lines := split nl content) in *.
  set (sl := sectionLinesFrom headingMatch isListItem trim heading lines O
                              false O []) in *.
  set (toRemove := duplicates trim sl []) in *.
  assert (Htexts :
            map snd (sectionLinesFrom headingMatch isListItem trim heading
                       (withoutLines toRemove lines O) O false O [])
            = map snd (List.filter
                         (fun p => negb (includes toRemove p.1)) sl)).
  { apply sectionLinesFrom_withoutLines; [|reflexivity].
    intros k line Hnth Hinc. apply includes_In_nat in Hinc.
    destruct (Hwhy k Hinc) as (line' & Hnth' & Hh & _).
    simpl in Hnth'. congruence. }
  apply duplicates_texts with (seen := []) in Htexts.
  unfold toRemove at 2 in Htexts.
  rewrite (duplicates_kept sl Hsorted []) in Htexts.
  rewrite Htexts. destruct (length _ <? 2)%nat; reflexivity.
Qed.

Lemma has_cons seen x y :
  has (x :: seen) y = String.eqb y x || has seen y.
Proof. reflexivity. Qed.

Lemma duplicates_nil_seen sl :
  forall seen seen',
    (forall x, has seen x = true -> has seen' x = true) ->
    duplicates trim sl seen' = [] -> duplicates trim sl seen = [].
Proof.
  induction sl as [|[k t] rest IH]; intros seen seen' Hsub; [reflexivity|].
  cbn [duplicates].
  destruct (has seen' (trim t)) eqn:Hs'; [discriminate|].
  destruct (has seen (trim t)) eqn:Hs.
  - rewrite (Hsub _ Hs) in Hs'. discriminate.
  - apply IH. intros x. rewrite !has_cons.
    destruct (String.eqb x (trim t)); [reflexivity|]. apply Hsub.
Qed.

Lemma duplicates_nil_filter (keep : nat * string -> bool) sl :
  forall seen,
    duplicates trim sl seen = [] ->
    duplicates trim (List.filter keep sl) seen = [].
Proof.
  induction sl as [|[k t] rest IH]; intros seen; [reflexivity|].
  cbn [duplicates List.filter].
  destruct (has seen (trim t)) eqn:Hs; [discriminate|].
  intros Hnil. destruct (keep (k, t)).
  - cbn [duplicates]. rewrite Hs. apply IH, Hnil.
  - apply IH. apply (duplicates_nil_seen rest seen (trim t :: seen));
      [|exact Hnil].
    intros x Hx. rewrite has_cons, Hx. apply orb_true_r.
Qed.

(** A text that needs no cleaning under one heading still needs none after
    it was cleaned under another. *)
Lemma cleanContent_None_stable heading heading' content content' n :
  cleanContent headingMatch isListItem trim heading content = None ->
  cleanContent headingMatch isListItem trim heading' content
  = Some (content', n) ->
  cleanContent headingMatch isListItem trim heading content' = None.
Proof.
  intros Hnone Hclean.
  apply cleanContent_lines in Hclean. cbv zeta in Hclean.
  destruct Hclean as (Hsplit & _ & _ & _ & Hwhy).
  unfold cleanContent in *. cbv zeta in *. rewrite Hsplit.
  set (lines := split nl content) in *.
  set (toRemove := duplicates trim _ []) in Hwhy |- *.
  set (sl := sectionLinesFrom headingMatch isListItem trim heading lines O
                              false O []) in *.
  assert (Htexts :
            map snd (sectionLinesFrom headingMatch isListItem trim heading
                       (withoutLines toRemove lines O) O false O [])
            = map snd (List.filter
                         (fun p => negb (includes toRemove p.1)) sl)).
  { apply sectionLinesFrom_withoutLines; [|reflexivity].
    intros k line Hnth Hinc. apply includes_In_nat in Hinc.
    destruct (Hwhy k Hinc) as (line' & Hnth' & Hh & _).
    simpl in Hnth'. congruence. }
  set (sl' := sectionLinesFrom headingMatch isListItem trim heading
                (withoutLines toRemove lines O) O false O []) in *.
  destruct (length sl' <? 2)%nat eqn:Hshort'; [reflexivity|].
  assert (Hlen : (length sl' <= length sl)%nat).
  { rewrite <- (length_map snd sl'), Htexts, length_map.
    apply List.filter_length_le. }
  destruct (length sl <? 2)%nat eqn:Hshort.
  - apply Nat.ltb_lt in Hshort. apply Nat.ltb_ge in Hshort'. lia.
  - destruct (0 <? length (duplicates trim sl []))%nat eqn:Hdup;
      [discriminate|].
    apply Nat.ltb_ge in Hdup.
    assert (Hnil : duplicates trim sl [] = []).
    { destruct (duplicates trim sl []); [reflexivity|simpl in Hdup; lia]. }
    rewrite (duplicates_texts sl' _ [] Htexts).
    rewrite (duplicates_nil_filter _ sl [] Hnil). reflexivity.
Qed.

(** X18: the text the cleanup writes needs no further cleaning: run on its
    own result, [cleanContent] leaves the text alone; and a text that
    needed no cleaning under another heading needs none after it was
    cleaned under this one. *)
Theorem cleanContent_settles (heading : JSValue) (content content' : string)
        (n : nat) :
  cleanContent headingMatch isListItem trim heading content
  = Some (content', n) ->
  cleanContent headingMatch isListItem trim heading content' = None
  /\ forall other,
       cleanContent headingMatch isListItem trim other content = None ->
       cleanContent headingMatch isListItem trim other content' = None.
Proof.
  intros Hclean. split.
  - eapply cleanContent_again, Hclean.
  - intros other Hnone. eapply cleanContent_None_stable; eassumption.
Qed.
End CleanupContent.

(** *** The run over the daily notes *)

Section CleanupFiles.
Import Cleanup.
Variable headingMatch : string -> option (nat * string).
Variable isListItem : string -> bool.
Variable trim : string -> string.
Variable Store : Type.
Variable read : string -> Store -> Result string.
Variable modify : string -> string -> Store -> Result Store.
Variable folder : option string.
Variable notes : list TFile.

(** What is written to a note is what is read from it afterwards, and
    writing a note leaves every other note as it is. *)
Hypothesis read_after_modify :
  forall p content st st',
    modify p content st = Ok st' ->
    forall q, read q st' = if String.eqb q p then Ok content else read q st.

(** A property of texts that cleaning under [heading] keeps. *)
Definition keptByCleaning (heading : JSValue) (Q : string -> Prop) : Prop :=
  forall content content' n,
    Q content ->
    cleanContent headingMatch isListItem trim heading content
    = Some (content', n) ->
    Q content'.

Lemma cleanFiles_keeps heading dir Q :
  keptByCleaning heading Q ->
  forall files st report report' st' q,
    cleanFiles headingMatch isListItem trim Store read modify heading dir
               files st report = (Ok report', st') ->
    (exists content, read q st = Ok content /\ Q content) ->
    exists content, read q st' = Ok content /\ Q content.
Proof.
  intros Hkept. induction files as [|file rest IH];
    intros st report report' st' q Hrun Hq; cbn [cleanFiles] in Hrun.
  - injection Hrun as _ <-. exact Hq.
  - destruct (negb (inDailyFolder dir file)); [eapply IH; eassumption|].
    destruct (read (path file) st) as [content|] eqn:Hread;
      [|discriminate].
    destruct (cleanContent _ _ _ heading content) as [[content' n]|]
      eqn:Hclean; [|eapply IH; eassumption].
    destruct (modify (path file) content' st) as [st2|] eqn:Hmod;
      [|discriminate].
    eapply IH; [exact Hrun|].
    rewrite (read_after_modify _ _ _ _ Hmod q).
    destruct (String.eqb_spec q (path file)) as [->|]; [|exact Hq].
    destruct Hq as (c & Hc & HQ). rewrite Hread in Hc.
    injection Hc as <-. exists content'. split; [reflexivity|].
    eapply Hkept; eassumption.
Qed.

Definition settled (heading : JSValue) (content : string) : Prop :=
  cleanContent headingMatch isListItem trim heading content = None.

(** After the loop over the files, every file of the list in the folder
    can be read and needs no cleaning under the heading. *)
Lemma cleanFiles_settles heading dir :
  forall files st report report' st',
    cleanFiles headingMatch isListItem trim Store read modify heading dir
               files st report = (Ok report', st') ->
    forall file, In file files -> inDailyFolder dir file = true ->
      exists content,
        read (path file) st' = Ok content /\ settled heading content.
Proof.
  assert (Hself : keptByCleaning heading (settled heading)).
  { intros content content' n Hs Hc. unfold settled in Hs. congruence. }
  induction files as [|file rest IH];
    intros st report report' st' Hrun f Hin Hdir; [destruct Hin|].
  cbn [cleanFiles] in Hrun.
  destruct (inDailyFolder dir file) eqn:Hfile; cbn [negb] in Hrun.
  - destruct (read (path file) st) as [content|] eqn:Hread;
      [|discriminate].
    destruct (cleanContent _ _ _ heading content) as [[content' n]|]
      eqn:Hclean.
    + destruct (modify (path file) content' st) as [st2|] eqn:Hmod;
        [|discriminate].
      destruct Hin as [<-|Hin]; [|eapply IH; eassumption].
      eapply (cleanFiles_keeps heading dir _ Hself); [exact Hrun|].
      exists content'. split.
      * rewrite (read_after_modify _ _ _ _ Hmod), String.eqb_refl.
        reflexivity.
      * eapply cleanContent_again, Hclean.
    + destruct Hin as [<-|Hin]; [|eapply IH; eassumption].
      eapply (cleanFiles_keeps heading dir _ Hself); [exact Hrun|].
      exists content. split; assumption.
  - destruct Hin as [<-|Hin]; [congruence|]. eapply IH; eassumption.
Qed.

Lemma cleanSources_settles dir :
  forall sources st report report' st',
    cleanSources headingMatch isListItem trim Store read modify notes dir
                 sources st report = (Ok report', st') ->
    forall source file,
      In source sources -> In file notes -> inDailyFolder dir file = true ->
      exists content,
        read (path file) st' = Ok content
        /\ settled (getProp "heading" source) content.
Proof.
  assert (Hcross : forall h h', keptByCleaning h' (settled h)).
  { intros h h' content content' n Hs Hc.
    eapply cleanContent_None_stable; eassumption. }
  assert (Hkeeps : forall h sources st report report' st' q,
            cleanSources headingMatch isListItem trim Store read modify notes
                         dir sources st report = (Ok report', st') ->
            (exists content, read q st = Ok content /\ settled h content) ->
            exists content, read q st' = Ok content /\ settled h content).
  { intros h. induction sources as [|source rest IH];
      intros st report report' st' q Hrun Hq; cbn [cleanSources] in Hrun.
    - injection Hrun as _ <-. exact Hq.
    - destruct (cleanFiles _ _ _ _ _ _ _ dir notes st report)
        as [[report1|] st1] eqn:Hfiles; [|discriminate].
      eapply IH; [exact Hrun|].
      eapply cleanFiles_keeps; [apply Hcross|exact Hfiles|exact Hq]. }
  induction sources as [|source rest IH];
    intros st report report' st' Hrun s file Hs Hfile Hdir;
    [destruct Hs|].
  cbn [cleanSources] in Hrun.
  destruct (cleanFiles _ _ _ _ _ _ _ dir notes st report)
    as [[report1|] st1] eqn:Hfiles; [|discriminate].
  destruct Hs as [<-|Hs]; [|eapply IH; eassumption].
  eapply Hkeeps; [exact Hrun|].
  eapply cleanFiles_settles; eassumption.
Qed.

Lemma cleanFiles_nothing heading dir :
  forall files st report,
    (forall file, In file files -> inDailyFolder dir file = true ->
       exists content,
         read (path file) st = Ok content /\ settled heading content) ->
    cleanFiles headingMatch isListItem trim Store read modify heading dir
               files st report = (Ok report, st).
Proof.
  induction files as [|file rest IH]; intros st report Hall; [reflexivity|].
  cbn [cleanFiles].
  destruct (inDailyFolder dir file) eqn:Hfile; cbn [negb].
  - destruct (Hall file (or_introl eq_refl) Hfile) as (content & -> & Hs).
    unfold settled in Hs. rewrite Hs.
    apply IH. intros f Hf. apply Hall. right. exact Hf.
  - apply IH. intros f Hf. apply Hall. right. exact Hf.
Qed.

Lemma cleanSources_nothing dir :
  forall sources st report,
    (forall source file,
       In source sources -> In file notes -> inDailyFolder dir file = true ->
       exists content,
         read (path file) st = Ok content
         /\ settled (getProp "heading" source) content) ->
    cleanSources headingMatch isListItem trim Store read modify notes dir
                 sources st report = (Ok report, st).
Proof.
  induction sources as [|source rest IH]; intros st report Hall;
    [reflexivity|].
  cbn [cleanSources]. rewrite cleanFiles_nothing.
  - apply IH. intros s f Hs. apply Hall. right. exact Hs.
  - intros f Hf. apply Hall; [left; reflexivity|exact Hf].
Qed.

(** X19: after a run of the cleanup that went through, a second run finds
    nothing to do: it reports no file cleaned and no duplicate removed, and
    leaves the vault as the first run left it. *)
Theorem cleanup_settles (calendarSources : list (list (string * JSValue)))
        (st st' : Store) (report : Report) (notices : list string) :
  cleanupDuplicateDailyNoteEvents headingMatch isListItem trim Store read
    modify folder notes calendarSources st
  = (Ok report, st', notices) ->
  cleanupDuplicateDailyNoteEvents headingMatch isListItem trim Store read
    modify folder notes calendarSources st'
  = (Ok nothingCleaned, st', notices).
Proof.
  unfold cleanupDuplicateDailyNoteEvents. cbv zeta.
  destruct (length _ =? 0)%nat; [intros [= _ <- <-]; reflexivity|].
  destruct folder as [[|c dir]|]; try (intros [= _ <- <-]; reflexivity).
  destruct (cleanSources _ _ _ _ _ _ _ (String c dir) _ st nothingCleaned)
    as [r s1] eqn:Hrun.
  intros [= -> -> <-].
  rewrite cleanSources_nothing; [reflexivity|].
  intros source file Hs Hf Hdir.
  eapply cleanSources_settles; eassumption.
Qed.
End CleanupFiles.

Lemma readNote_writeNote p content st st' :
  writeNote p content st = Some st' ->
  forall q, readNote q st' = if String.eqb q p then Ok content
                             else readNote q st.
Proof.
  revert st'. induction st as [|[r old] rest IH]; intros st' Hw q;
    [discriminate|].
  cbn [writeNote] in Hw. destruct (String.eqb_spec p r) as [->|Hpr].
  - injection Hw as <-. cbn [readNote].
    destruct (String.eqb q r); reflexivity.
  - destruct (writeNote p content rest) as [rest'|] eqn:Hrest;
      [|discriminate].
    injection Hw as <-. cbn [readNote].
    destruct (String.eqb_spec q r) as [->|Hqr].
    + apply String.eqb_neq in Hpr. rewrite String.eqb_sym in Hpr.
      rewrite Hpr. reflexivity.
    + apply (IH rest' eq_refl).
Qed.

Lemma readNote_modifyNote p content st st' :
  modifyNote p content st = Ok st' ->
  forall q, readNote q st' = if String.eqb q p then Ok content
                             else readNote q st.
Proof.
  unfold modifyNote. destruct (writeNote p content st) as [s|] eqn:Hw;
    [|discriminate].
  intros [= <-]. apply readNote_writeNote, Hw.
Qed.

Lemma cleanContent_removes_repeats_witness :
  exists toRemove,
    split nl dailyNoteCleaned = Cleanup.withoutLines toRemove
                                  (split nl dailyNote) O.
Proof.
  destruct (cleanContent_removes_repeats spaceHeadingMatch spaceIsListItem
              trim (VStr "Events") dailyNote dailyNoteCleaned 1 eq_refl)
    as (toRemove & Hsplit & _).
  exists toRemove. exact Hsplit.
Defined.

Lemma cleanContent_settles_witness :
  Cleanup.cleanContent spaceHeadingMatch spaceIsListItem trim
    (VStr "Events") dailyNoteCleaned = None.
Proof.
  apply (proj1 (cleanContent_settles spaceHeadingMatch spaceIsListItem trim
                  (VStr "Events") dailyNote dailyNoteCleaned 1 eq_refl)).
Defined.

Lemma cleanup_settles_witness :
  Cleanup.cleanupDuplicateDailyNoteEvents spaceHeadingMatch spaceIsListItem
    trim NoteStore readNote modifyNote (Some "Daily") [dailyFile]
    dailySources
    [("Daily/2024-01-10.md", dailyNoteCleaned); ("Inbox.md", dailyNote)]
  = (Ok Cleanup.nothingCleaned,
     [("Daily/2024-01-10.md", dailyNoteCleaned); ("Inbox.md", dailyNote)],
     []).
Proof.
  apply (cleanup_settles spaceHeadingMatch spaceIsListItem trim
           NoteStore readNote modifyNote (Some "Daily") [dailyFile]
           readNote_modifyNote dailySources dailyStore _
           {| Cleanup.filesCleaned := 1; Cleanup.duplicatesRemoved := 1 |}).
  reflexivity.
Defined.

(** The repeated item is removed although another item stands between it
    and its first occurrence; the same item under another heading, and the
    note outside the folder, stay. *)
Example cleanup_dailyStore :
  Cleanup.cleanupDuplicateDailyNoteEvents spaceHeadingMatch spaceIsListItem
    trim NoteStore readNote modifyNote (Some "Daily") [dailyFile]
    dailySources dailyStore
  = (Ok {| Cleanup.filesCleaned := 1; Cleanup.duplicatesRemoved := 1 |},
     [("Daily/2024-01-10.md", dailyNoteCleaned); ("Inbox.md", dailyNote)],
     []).
Proof. reflexivity. Qed.

(* ===================================================================== *)
(** ** Google events                                                       *)
(* ===================================================================== *)

Section GoogleEventProperties.
Import GoogleCalendar GoogleEvents.
Variable Date : Type.
Variable newDate : string -> Date.
Variable fields : Date -> option DateFields.
Variable toISOString : Date -> Result string.
Variable plusOneHour : Date -> Date.
Variable localTimeZone : string.
Variable validAccessToken : Result string.
Variable sendRequest : WriteRequest -> Result WriteResponse.
Variable encodeURIComponent : string -> string.

Lemma nonEmpty_present s :
  nonEmpty s = (if present s then s else None).
Proof.
  destruct s as [x|]; [|reflexivity]. simpl.
  destruct (String.eqb x ""); reflexivity.
Qed.

Lemma nonEmpty_Some s x : nonEmpty s = Some x -> s = Some x /\ x <> "".
Proof.
  destruct s as [y|]; [|discriminate]. simpl.
  destruct (String.eqb_spec y ""); [discriminate|].
  intros [= <-]. split; [reflexivity|assumption].
Qed.

Lemma getProp_app_l k (a b : list (string * JSValue)) :
  hasProp k a = true -> getProp k (a ++ b) = getProp k a.
Proof.
  induction a as [|[k' v] a IH]; simpl; [discriminate|].
  destruct (String.eqb k k'); [reflexivity|]. exact IH.
Qed.

Lemma nonEmpty_value x : x <> "" -> nonEmpty (Some x) = Some x.
Proof.
  intros Hx. simpl. apply String.eqb_neq in Hx. rewrite Hx. reflexivity.
Qed.

Lemma present_value x : x <> "" -> present (Some x) = true.
Proof.
  intros Hx. simpl. apply String.eqb_neq in Hx. rewrite Hx. reflexivity.
Qed.

Lemma present_nonEmpty s : present s = match nonEmpty s with
                                       | Some _ => true
                                       | None => false
                                       end.
Proof.
  destruct s as [x|]; [|reflexivity]. simpl.
  destruct (String.eqb x ""); reflexivity.
Qed.

(** A Google event converts exactly when it has a start date or a start
    date-time; the event it converts to is a single event under the Google
    id, with a title and no completion. *)
Lemma googleEventToOFC_single gEvent :
  match googleEventToOFC Date newDate fields gEvent with
  | Some event =>
      hasStart gEvent = true
      /\ getProp "id" event = VStr (id gEvent)
      /\ getProp "type" event = VStr "single"
      /\ getProp "completed" event = VNull
      /\ truthy (getProp "title" event) = true
      /\ getProp "allDay" event = VBool (present (dateOf (start gEvent)))
  | None => hasStart gEvent = false
  end.
Proof.
  unfold googleEventToOFC, hasStart.
  assert (Htitle : truthy (VStr match nonEmpty (summary gEvent) with
                                | Some s => s
                                | None => "(No title)"
                                end) = true).
  { destruct (nonEmpty (summary gEvent)) as [s|] eqn:Hs; [|reflexivity].
    apply nonEmpty_Some in Hs as [_ Hs]. simpl.
    apply String.eqb_neq in Hs. rewrite Hs. reflexivity. }
  rewrite !(present_nonEmpty (dateOf _)), !(present_nonEmpty (dateTimeOf _)).
  destruct (negb (present (summary gEvent)) && negb _) eqn:Hfirst.
  - apply andb_true_iff in Hfirst as [_ Hstart].
    destruct (start gEvent); [discriminate|]. reflexivity.
  - cbv zeta.
    destruct (nonEmpty (dateOf (start gEvent))) as [d|].
    + rewrite !getProp_app_l by reflexivity.
      repeat split; try reflexivity. exact Htitle.
    + destruct (nonEmpty (dateTimeOf (start gEvent))) as [dt|];
        [|reflexivity].
      rewrite !getProp_app_l by reflexivity.
      repeat split; try reflexivity. exact Htitle.
Qed.

(** X20: [getEvents] lists, in order, one event for each stored Google
    event that has a start date or a start date-time, and nothing for the
    others; every listed event is a single event without completion, with a
    title, and without a location.  A recurrence rule of the Google event
    plays no part. *)
Theorem getEvents_single_events (self : t) :
  map (fun r => getProp "id" r.1) (getEvents Date newDate fields self)
  = map (fun gEvent => VStr (id gEvent)) (List.filter hasStart (events self))
  /\ Forall (fun r => r.2 = None
                      /\ getProp "type" r.1 = VStr "single"
                      /\ getProp "completed" r.1 = VNull
                      /\ truthy (getProp "title" r.1) = true)
            (getEvents Date newDate fields self).
Proof.
  unfold getEvents. induction (events self) as [|gEvent rest [IHids IHall]];
    [split; [reflexivity|constructor]|].
  cbn [flat_map List.filter].
  pose proof (googleEventToOFC_single gEvent) as Hone.
  destruct (googleEventToOFC Date newDate fields gEvent) as [event|].
  - destruct Hone as (-> & Hid & Hty & Hc & Ht & _). split.
    + cbn [app map fst]. rewrite Hid, IHids. reflexivity.
    + constructor; [|exact IHall]. repeat split; assumption.
  - rewrite Hone. split; assumption.
Qed.


(** X22: updating an event that is not a single event patches the title
    only: with a token at hand, [updateGoogleEvent] sends one PATCH request
    for the event whose body holds the summary and nothing else. *)
Theorem update_patches_summary_only (self : t) (googleEventId token : string)
        (event : OFCEvent) :
  isSingle event = false ->
  validAccessToken = Ok token ->
  (updateGoogleEvent Date newDate toISOString plusOneHour localTimeZone
     validAccessToken sendRequest encodeURIComponent self googleEventId
     event).2
  = [ {| url := GOOGLE_CALENDAR_API_BASE +:+ "/"
                +:+ encodeURIComponent (calendarId self) +:+ "/events/"
                +:+ encodeURIComponent googleEventId;
         method := "PATCH";
         headers := [("Authorization", "Bearer " +:+ token);
                     ("Content-Type", "application/json")];
         body := Some [("summary", getProp "title" event)] |} ].
Proof.
  intros Hsingle Htoken. unfold updateGoogleEvent, ofcToGoogleEvent.
  rewrite Htoken, Hsingle. cbn [negb].
  destruct (sendRequest _) as [data|]; [|reflexivity].
  destruct (write_error data); reflexivity.
Qed.

End GoogleEventProperties.


Lemma update_patches_summary_only_witness :
  (GoogleEvents.updateGoogleEvent unit noDate invalidTime (fun d => d) "UTC"
     (Ok "token") acceptRequest (fun s => s) teamCalendar "g1"
     weeklyReview).2
  = [ {| GoogleEvents.url :=
           "https://www.googleapis.com/calendar/v3/calendars/team@example.com/events/g1";
         GoogleEvents.method := "PATCH";
         GoogleEvents.headers := [("Authorization", "Bearer token");
                                  ("Content-Type", "application/json")];
         GoogleEvents.body := Some [("summary", VStr "Review")] |} ].
Proof.
  apply (update_patches_summary_only unit noDate invalidTime (fun d => d)
           "UTC" (Ok "token") acceptRequest (fun s => s) teamCalendar "g1"
           "token" weeklyReview); reflexivity.
Defined.


(** A timed event without a start time cannot be written: the date-time
    is not a valid one and [toISOString] throws, before any request. *)
Example createGoogleEvent_without_time :
  GoogleEvents.createGoogleEvent unit noDate invalidTime (fun d => d) "UTC"
    (Ok "token") acceptRequest (fun s => s) teamCalendar dentist
  = (Throw "RangeError: Invalid time value", []).
Proof. reflexivity. Qed.

(* ===================================================================== *)
(** ** Google authorisation and the tokens                                 *)
(* ===================================================================== *)

Section AuthProperties.
Import GoogleAuth.
Variable P : Type.
Variable onTokensUpdated : GoogleTokens -> P -> Result unit * P.
Variable requestToken : list (string * string) -> Result TokenResponse.
Variable now later : Z.

Lemma notifyOwner_self t (w : World P) :
  self (notifyOwner P onTokensUpdated t w).2 = self w
  /\ requests (notifyOwner P onTokensUpdated t w).2 = requests w
  /\ notices (notifyOwner P onTokensUpdated t w).2 = notices w
  /\ owner (notifyOwner P onTokensUpdated t w).2
     = (onTokensUpdated t (owner w)).2
  /\ (notifyOwner P onTokensUpdated t w).1 = (onTokensUpdated t (owner w)).1.
Proof.
  unfold notifyOwner. destruct (onTokensUpdated t (owner w)) as [r p].
  repeat split.
Qed.

(** What a refresh does: nothing without a stored refresh token; else one
    request to the token endpoint, and on an answer without error new
    tokens under the same refresh token, handed to the owner. *)
Lemma refreshAccessToken_outcomes (w : World P) :
  let r := (refreshAccessToken P onTokensUpdated requestToken later w).1 in
  let w' := (refreshAccessToken P onTokensUpdated requestToken later w).2 in
  config (self w') = config (self w)
  /\ option_map refreshToken (tokens (self w'))
     = option_map refreshToken (tokens (self w))
  /\ (length (requests w') <= S (length (requests w)))%nat
  /\ (r = Ok tt -> exists t', tokens (self w') = Some t')
  /\ (forall e, r = Throw e ->
        tokens (self w') = tokens (self w)
        \/ exists t', tokens (self w') = Some t'
                      /\ (onTokensUpdated t' (owner w)).1 = Throw e).
Proof.
  cbv zeta. unfold refreshAccessToken.
  destruct (GoogleEvents.nonEmpty (option_map refreshToken (tokens (self w))))
    as [stored|] eqn:Hstored.
  - assert (Hold : option_map refreshToken (tokens (self w)) = Some stored).
    { destruct (tokens (self w)) as [t|]; [|discriminate]. simpl in *.
      destruct (String.eqb (refreshToken t) ""); [discriminate|].
      exact Hstored. }
    destruct (requestToken _) as [data|e0].
    + destruct (GoogleEvents.nonEmpty (error data)) as [err|].
      * cbn [fst snd sent self requests]. rewrite length_app. cbn [length].
        repeat split; try lia; try discriminate.
        intros e _. left. reflexivity.
      * match goal with
        | |- context [notifyOwner P onTokensUpdated ?t ?w0] =>
            destruct (notifyOwner_self t w0) as (Hs & Hr & _ & _ & Hres);
            rewrite Hs, Hr, Hres
        end.
        cbn [withTokens sent self requests updateTokens config tokens owner
             option_map refreshToken].
        rewrite length_app. cbn [length].
        repeat split; try lia.
        -- symmetry. exact Hold.
        -- intros _. eexists. reflexivity.
        -- intros e He. right. eexists. split; [reflexivity|exact He].
    + cbn [fst snd sent self requests]. rewrite length_app. cbn [length].
      repeat split; try lia; try discriminate.
      intros e _. left. reflexivity.
  - cbn [fst snd]. repeat split; try lia; try discriminate.
    intros e _. left. reflexivity.
Qed.

(** X24: [getValidAccessToken] never changes the configuration or the
    refresh token and sends at most one request.  While the stored token
    has not expired it returns that token and does nothing else; whenever
    it resolves, it returns the access token the service then holds; when
    it rejects, the stored tokens are as before unless it is the owner's
    callback that rejected. *)
Theorem getValidAccessToken_outcomes (w : World P) :
  let r := (getValidAccessToken P onTokensUpdated requestToken now later
              w).1 in
  let w' := (getValidAccessToken P onTokensUpdated requestToken now later
               w).2 in
  config (self w') = config (self w)
  /\ option_map refreshToken (tokens (self w'))
     = option_map refreshToken (tokens (self w))
  /\ (length (requests w') <= S (length (requests w)))%nat
  /\ (forall t, tokens (self w) = Some t -> now < expiresAt t ->
        r = Ok (accessToken t) /\ w' = w)
  /\ (forall token, r = Ok token ->
        option_map accessToken (tokens (self w')) = Some token)
  /\ (forall e, r = Throw e ->
        tokens (self w') = tokens (self w)
        \/ exists t', tokens (self w') = Some t'
                      /\ (onTokensUpdated t' (owner w)).1 = Throw e).
Proof.
  cbv zeta. unfold getValidAccessToken.
  destruct (tokens (self w)) as [t|] eqn:Htokens.
  - destruct (now >=? expiresAt t) eqn:Hexpired.
    + apply Z.geb_le in Hexpired.
      pose proof (refreshAccessToken_outcomes w) as Href. cbv zeta in Href.
      rewrite Htokens in Href.
      destruct (refreshAccessToken P onTokensUpdated requestToken later w)
        as [[[]|e0] w1]; cbn [fst snd] in Href |- *.
      * destruct Href as (Hc & Hr & Hlen & Hsome & _).
        destruct (Hsome eq_refl) as (t' & Ht').
        refine (conj Hc (conj Hr (conj Hlen (conj _ (conj _ _))))).
        -- intros tk [= <-] Hlt. lia.
        -- intros token Htoken. rewrite Ht' in Htoken |- *.
           injection Htoken as <-. reflexivity.
        -- intros e He. rewrite Ht' in He. discriminate.
      * destruct Href as (Hc & Hr & Hlen & _ & Hfail).
        refine (conj Hc (conj Hr (conj Hlen (conj _ (conj _ _))))).
        -- intros tk [= <-] Hlt. lia.
        -- intros token [=].
        -- intros e [= <-]. apply Hfail. reflexivity.
    + cbn [fst snd]. rewrite Htokens.
      refine (conj eq_refl (conj eq_refl (conj _ (conj _ (conj _ _))))).
      * lia.
      * intros tk [= <-] _. split; reflexivity.
      * intros token [= <-]. reflexivity.
      * intros e _. left. reflexivity.
  - cbn [fst snd]. rewrite Htokens.
    refine (conj eq_refl (conj eq_refl (conj _ (conj _ (conj _ _))))).
    + lia.
    + intros tk [=].
    + intros token [=].
    + intros e _. left. reflexivity.
Qed.
End AuthProperties.

Section TokenProperties.
Import Main GoogleAuth TokenStorage.
Variable S : Type.
Variable hasSecretStorage : bool.
Variable getSecret : option (string -> S -> Result (option string)).
Variable setSecret : option (string -> string -> S -> Result S).
Variable stringify : GoogleTokens -> string.
Variable parse : string -> Result (option GoogleTokens).

Lemma noTokens_saveSettingsForSave p :
  noTokensInFile (dataFile (saveSettingsForSave p))
  /\ settings (saveSettingsForSave p) = settings p.
Proof. split; reflexivity. Qed.


(** X26: tokens the secret storage took are read back on the next start:
    in a storage that returns what was last stored, and when parsing the
    text of the tokens gives the tokens back, [loadGoogleTokensFromStorage]
    after the callback returns the tokens, provided they hold a refresh
    token. *)
Theorem stored_tokens_load_back (newTokens : GoogleTokens) (h : Host S)
        (get : string -> S -> Result (option string))
        (set : string -> string -> S -> Result S) :
  hasSecretStorage = true ->
  getSecret = Some get -> setSecret = Some set ->
  (forall v s s', set GOOGLE_TOKENS_SECRET_KEY v s = Ok s' ->
                  get GOOGLE_TOKENS_SECRET_KEY s' = Ok (Some v)) ->
  parse (stringify newTokens) = Ok (Some newTokens) ->
  stringify newTokens <> "" ->
  refreshToken newTokens <> "" ->
  (saveGoogleTokensToStorage S hasSecretStorage setSecret stringify
     newTokens h).1 = true ->
  loadGoogleTokensFromStorage S hasSecretStorage getSecret parse
    (tokensUpdated S hasSecretStorage setSecret stringify newTokens h).2
  = Some newTokens.
Proof.
  intros Hhas Hget Hset Hlaw Hparse Htext Hrefresh.
  unfold tokensUpdated, saveGoogleTokensToStorage,
    loadGoogleTokensFromStorage.
  rewrite Hhas, Hget, Hset. cbn [negb].
  apply String.eqb_neq in Htext, Hrefresh. rewrite Hrefresh. cbn [negb orb].
  destruct (set GOOGLE_TOKENS_SECRET_KEY (stringify newTokens) (secrets h))
    as [s|e] eqn:Hstore; cbn [fst snd]; [|discriminate].
  intros _. cbn [withPlugin secrets].
  rewrite (Hlaw _ _ _ Hstore), Htext, Hparse, Hrefresh. reflexivity.
Qed.


End TokenProperties.


Lemma stored_tokens_load_back_witness :
  TokenStorage.loadGoogleTokensFromStorage SecretList true (Some readSecret)
    readTokensText
    (TokenStorage.tokensUpdated SecretList true (Some keepSecret) tokensText
       freshTokens hostWithTokens).2
  = Some freshTokens.
Proof.
  apply (stored_tokens_load_back SecretList true (Some readSecret)
           (Some keepSecret) tokensText readTokensText freshTokens
           hostWithTokens readSecret keepSecret);
    try reflexivity; try discriminate.
  intros v s s' [= <-]. reflexivity.
Defined.


(** When the storage refuses the tokens during the move, they are in
    neither place afterwards: the next start finds none. *)
Example migration_with_failing_storage :
  let h' := (TokenStorage.initGoogleAuth SecretList true (Some readSecret)
               (Some refuseSecret) tokensText readTokensText
               hostWithTokens).2 in
  TokenStorage.secrets h' = []
  /\ tokensInSettings (Main.settings (TokenStorage.plugin h')) = ("", "", 0)
  /\ GoogleAuth.tokens
       (TokenStorage.initGoogleAuth SecretList true (Some readSecret)
          (Some refuseSecret) tokensText readTokensText h').1
     = None.
Proof. repeat split. Qed.

(** A stale token is refreshed with one request; the refresh token stays,
    the storage takes the new tokens and the data file holds none. *)
Example refresh_with_storage :
  let w := {| GoogleAuth.self := staleService;
              GoogleAuth.owner := hostWithTokens;
              GoogleAuth.requests := []; GoogleAuth.notices := [] |} in
  let run := GoogleAuth.getValidAccessToken (TokenStorage.Host SecretList)
               (TokenStorage.tokensUpdated SecretList true (Some keepSecret)
                  tokensText)
               tokenEndpoint 1700000000000 1700000000000 w in
  run.1 = Ok "ya29.fresh"
  /\ GoogleAuth.tokens (GoogleAuth.self run.2) = Some freshTokens
  /\ GoogleAuth.requests run.2
     = [GoogleAuth.TokenRequest
          [("client_id", "client"); ("client_secret", "secret");
           ("refresh_token", "1//refresh");
           ("grant_type", "refresh_token")]]
  /\ TokenStorage.secrets (GoogleAuth.owner run.2)
     = [(TokenStorage.GOOGLE_TOKENS_SECRET_KEY, "1//refresh ya29.fresh")]
  /\ noTokensInFile
       (Main.dataFile (TokenStorage.plugin (GoogleAuth.owner run.2))).
Proof. repeat split. Qed.

Lemma getValidAccessToken_outcomes_witness :
  option_map GoogleAuth.accessToken
    (GoogleAuth.tokens
       (GoogleAuth.self
          (GoogleAuth.getValidAccessToken (TokenStorage.Host SecretList)
             (TokenStorage.tokensUpdated SecretList true (Some keepSecret)
                tokensText)
             tokenEndpoint 1700000000000 1700000000000
             {| GoogleAuth.self := staleService;
                GoogleAuth.owner := hostWithTokens;
                GoogleAuth.requests := []; GoogleAuth.notices := [] |}).2))
  = Some "ya29.fresh".
Proof.
  destruct (getValidAccessToken_outcomes (TokenStorage.Host SecretList)
              (TokenStorage.tokensUpdated SecretList true (Some keepSecret)
                 tokensText)
              tokenEndpoint 1700000000000 1700000000000
              {| GoogleAuth.self := staleService;
                 GoogleAuth.owner := hostWithTokens;
                 GoogleAuth.requests := []; GoogleAuth.notices := [] |})
    as (_ & _ & _ & _ & Hok & _).
  exact (Hok "ya29.fresh" eq_refl).
Defined.


(* ===================================================================== *)
(** ** Descriptors, once more                                              *)
(* ===================================================================== *)

Section DescriptorsFurther.
Import CalendarSettings.
Context `{UrlSyntax}.

(** X29: a descriptor that [safeParseCalendarInfo] returns is in its final
    form: parsed again, it is returned as it is. *)
Theorem safeParseCalendarInfo_fixpoint (obj : JSValue) (info : CalendarInfo) :
  safeParseCalendarInfo obj = Some info ->
  safeParseCalendarInfo (VObj info) = Some info.
Proof.
  intros Hparse.
  destruct (conforming_of_parse _ _ Hparse) as (d & c & Hconf & ->).
  apply parse_conforming.
  destruct Hconf as (props & _ & _ & Hurls & _).
  exists (variantFields d ++ [("color", VStr c)]).
  split; [reflexivity|]. split; [|split; [exact Hurls|]].
  - destruct d; repeat constructor.
  - destruct d; reflexivity.
Qed.

Lemma selectOption_schema type :
  selectOption "type" calendarOptionsSchema (VStr type)
  = if String.eqb "local" type
    then Some [("type", ZLiteral "local"); ("directory", ZString)]
    else if String.eqb "dailynote" type
    then Some [("type", ZLiteral "dailynote"); ("heading", ZString)]
    else if String.eqb "ical" type
    then Some [("type", ZLiteral "ical"); ("url", ZStringUrl)]
    else if String.eqb "caldav" type
    then Some [("type", ZLiteral "caldav"); ("name", ZString);
               ("url", ZStringUrl); ("homeUrl", ZStringUrl);
               ("username", ZString); ("password", ZString)]
    else if String.eqb "gcal" type
    then Some [("type", ZLiteral "gcal"); ("calendarId", ZString);
               ("name", ZString)]
    else None.
Proof. reflexivity. Qed.

(** X30: the partial source [makeDefaultPartialCalendarSource] builds is
    never a complete descriptor: whatever the type and the accent colour,
    [safeParseCalendarInfo] returns [null] on it. *)
Theorem default_partial_source_incomplete (accent type : string) :
  safeParseCalendarInfo (VObj (makeDefaultPartialCalendarSource accent type))
  = None.
Proof.
  unfold makeDefaultPartialCalendarSource.
  destruct (String.eqb type "icloud"); [reflexivity|].
  unfold safeParseCalendarInfo, parseCalendarInfo, parseDiscriminatedUnion.
  change (getProp "type" [("type", VStr type); ("color", VStr accent)])
    with (VStr type).
  rewrite selectOption_schema.
  destruct (String.eqb_spec "local" type) as [<-|_]; [reflexivity|].
  destruct (String.eqb_spec "dailynote" type) as [<-|_]; [reflexivity|].
  destruct (String.eqb_spec "ical" type) as [<-|_]; [reflexivity|].
  destruct (String.eqb_spec "caldav" type) as [<-|_]; [reflexivity|].
  destruct (String.eqb_spec "gcal" type) as [<-|_]; reflexivity.
Qed.
End DescriptorsFurther.

Lemma safeParseCalendarInfo_fixpoint_witness :
  @CalendarSettings.safeParseCalendarInfo testUrlSyntax
    (VObj [("type", VStr "ical"); ("url", VStr "https://example.org/team.ics");
           ("color", VStr "#059669")])
  = Some [("type", VStr "ical"); ("url", VStr "https://example.org/team.ics");
          ("color", VStr "#059669")].
Proof.
  apply (@safeParseCalendarInfo_fixpoint testUrlSyntax icalDescriptor).
  reflexivity.
Defined.
